(** * Snakegame: a shallow embedding of [script.js]

    The game logic of [script.js] (input queue, snake movement, AI policy,
    food placement, difficulty scaling and the per-tick [Game.update]) is
    transcribed class by class, one Rocq module per JavaScript class.

    Conventions of the embedding:
    - grid coordinates, scores and [Date.now()] timestamps are integers ([Z]);
    - speeds, intervals and [Math.random()] draws are JavaScript numbers that
      are not integers in general; they are taken as rationals ([Q]), i.e.
      arithmetic on them is exact;
    - a property read on [undefined] raises a [TypeError]: fallible code
      returns a [Result];
    - [Math.random()], [Date.now()] and the writes to the page go through an
      explicit environment [Env] threaded by the monad [M]. *)

From Stdlib Require Import ZArith QArith Qround Qminmax List String Ascii Bool Lia.
Import ListNotations.
Open Scope Z_scope.

(** ** Game constants *)

Definition CANVAS_WIDTH : Z := 1000.
Definition CANVAS_HEIGHT : Z := 650.
Definition GRID_SIZE : Z := 20.
Definition BASE_MOVES_PER_SECOND : Q := 8.
Definition BASE_MOVE_INTERVAL : Q := (1000 / BASE_MOVES_PER_SECOND)%Q.
Definition GRACE_PERIOD : Z := 2000.
Definition SPEED_INCREASE_RATE : Q := (1 # 10)%Q.
Definition MAX_SPEED_MULTIPLIER : Q := 2%Q.

(** ** Grid vectors: the [{x, y}] objects of the source *)

Record Vec : Set := mkVec { x : Z; y : Z }.

(** [a.x === -b.x && a.y === -b.y] *)
Definition is_reverse (a b : Vec) : bool :=
  (a.(x) =? - b.(x)) && (a.(y) =? - b.(y)).

(** [a.x !== b.x || a.y !== b.y] *)
Definition differs (a b : Vec) : bool :=
  negb (a.(x) =? b.(x)) || negb (a.(y) =? b.(y)).

(** [a.x === b.x && a.y === b.y] *)
Definition same_cell (a b : Vec) : bool :=
  (a.(x) =? b.(x)) && (a.(y) =? b.(y)).

Definition RIGHT : Vec := mkVec 1 0.
Definition LEFT : Vec := mkVec (-1) 0.
Definition DOWN : Vec := mkVec 0 1.
Definition UP : Vec := mkVec 0 (-1).

(** The four unit directions, as a decidable predicate. *)
Definition is_unit (d : Vec) : bool :=
  same_cell d RIGHT || same_cell d LEFT || same_cell d DOWN || same_cell d UP.

(** ** Strings: [String.prototype.toLowerCase] on the ASCII range *)

Definition lower_ascii (c : ascii) : ascii :=
  let n := nat_of_ascii c in
  if ((65 <=? n) && (n <=? 90))%nat then ascii_of_nat (n + 32) else c.

Fixpoint toLowerCase (s : string) : string :=
  match s with
  | EmptyString => EmptyString
  | String c r => String (lower_ascii c) (toLowerCase r)
  end.

(** ** InputHandler: keyboard input with a direction queue *)

Module InputHandler.

Record t : Set := mk {
  directionQueue : list Vec;
  currentDirection : Vec;
  pauseKeyDown : bool;
  pauseKeyWasDown : bool;
  startKeyPressed : bool
}.

Definition set_directionQueue (q : list Vec) (h : t) : t :=
  mk q (currentDirection h) (pauseKeyDown h) (pauseKeyWasDown h) (startKeyPressed h).
Definition set_currentDirection (d : Vec) (h : t) : t :=
  mk (directionQueue h) d (pauseKeyDown h) (pauseKeyWasDown h) (startKeyPressed h).
Definition set_pauseKeyDown (b : bool) (h : t) : t :=
  mk (directionQueue h) (currentDirection h) b (pauseKeyWasDown h) (startKeyPressed h).
Definition set_pauseKeyWasDown (b : bool) (h : t) : t :=
  mk (directionQueue h) (currentDirection h) (pauseKeyDown h) b (startKeyPressed h).
Definition set_startKeyPressed (b : bool) (h : t) : t :=
  mk (directionQueue h) (currentDirection h) (pauseKeyDown h) (pauseKeyWasDown h) b.

(** [constructor()] *)
Definition new : t := mk [] RIGHT false false false.

(** The block [if (newDirection) { ... }] of [handleKeyDown]: the
    [submit] of the specification. *)
Definition submit (newDirection : Vec) (h : t) : t :=
  if is_reverse newDirection (currentDirection h) then h
  else
    let h1 :=
      set_directionQueue
        (filter (fun dir => differs dir newDirection) (directionQueue h)) h in
    if differs newDirection (currentDirection h1)
    then set_directionQueue (directionQueue h1 ++ [newDirection]) h1
    else h1.

(** [handleKeyDown(e)], on [e.key]. *)
Definition handleKeyDown (e_key : string) (h : t) : t :=
  let key := toLowerCase e_key in
  if ((key =? "arrowup") || (key =? "w"))%string then submit (mkVec 0 (-1)) h
  else if ((key =? "arrowdown") || (key =? "s"))%string then submit (mkVec 0 1) h
  else if ((key =? "arrowleft") || (key =? "a"))%string then submit (mkVec (-1) 0) h
  else if ((key =? "arrowright") || (key =? "d"))%string then submit (mkVec 1 0) h
  else if ((key =? " ") || (key =? "p"))%string
       then set_startKeyPressed true (set_pauseKeyDown true h)
  else if (key =? "enter")%string then set_startKeyPressed true h
  else h.

(** [getNextDirection()]: the returned direction and the handler after
    the call. *)
Definition getNextDirection (h : t) : Vec * t :=
  match directionQueue h with
  | nextDir :: rest =>
      let h1 := set_directionQueue rest h in
      let h2 :=
        if negb (is_reverse nextDir (currentDirection h1))
        then set_currentDirection nextDir h1
        else h1 in
      (currentDirection h2, h2)
  | [] => (currentDirection h, h)
  end.

(** [handleKeyUp(e)] *)
Definition handleKeyUp (e_key : string) (h : t) : t :=
  let key := toLowerCase e_key in
  if ((key =? " ") || (key =? "p"))%string
  then set_pauseKeyWasDown false (set_pauseKeyDown false h)
  else if (key =? "enter")%string then set_startKeyPressed false h
  else h.

(** [checkStartPressed()] *)
Definition checkStartPressed (h : t) : bool * t :=
  if startKeyPressed h then (true, set_startKeyPressed false h) else (false, h).

(** [checkPauseToggle()] *)
Definition checkPauseToggle (h : t) : bool * t :=
  if pauseKeyDown h && negb (pauseKeyWasDown h)
  then (true, set_pauseKeyWasDown true h)
  else (false, h).

(** The calls a handler receives: the two DOM listeners and the three
    methods [Game.update] invokes. *)
Inductive call : Set :=
| KeyDown (e_key : string)
| KeyUp (e_key : string)
| GetNextDirection
| CheckStartPressed
| CheckPauseToggle.

Definition step (h : t) (c : call) : t :=
  match c with
  | KeyDown k => handleKeyDown k h
  | KeyUp k => handleKeyUp k h
  | GetNextDirection => snd (getNextDirection h)
  | CheckStartPressed => snd (checkStartPressed h)
  | CheckPauseToggle => snd (checkPauseToggle h)
  end.

(** The handler after a sequence of calls, oldest first. *)
Definition run (cs : list call) (h : t) : t := fold_left step cs h.

(** What holds of the queue in every reachable state: its entries are
    unit directions, pairwise distinct, and none is the committed one. *)
Definition queue_ok (h : t) : Prop :=
  is_unit (currentDirection h) = true /\
  Forall (fun d => is_unit d = true) (directionQueue h) /\
  NoDup (directionQueue h) /\
  ~ In (currentDirection h) (directionQueue h).

End InputHandler.

(** ** Effects: failures, random draws, the clock and the page *)

Inductive Failure : Set :=
| TypeError    (* a property read on [undefined] *)
| Unmodelled.  (* the source continues with a value that is no grid vector *)

Inductive Result (A : Type) : Type :=
| Ok (a : A)
| Fail (why : Failure).
Arguments Ok {A} a.
Arguments Fail {A} why.

Inductive Status : Set := GAME_OVER | READY | PAUSED | RUNNING.

(** What the game writes to the page (the DOM elements and the audio
    element), one constructor per group of assignments. *)
Inductive PageWrite : Type :=
| UpdateUI (score : Z) (length : nat) (currentSpeed : Q)
           (speedUpDisabled speedDownDisabled : bool) (status : Status)
| HideStartScreen
| ShowStartScreen
| FinalScore (score : Z)
| ShowGameOver
| HideGameOver
| PlayEatSound.

(** The environment: the values [Math.random()] and [Date.now()] return, in
    call order, how many of each were consumed, and the page writes so far
    (latest first). *)
Record Env : Type := mkEnv {
  random_values : nat -> Q;
  random_count : nat;
  clock_values : nat -> Z;
  clock_count : nat;
  page : list PageWrite
}.

Definition M (A : Type) : Type := Env -> Result (A * Env).

Definition ret {A : Type} (a : A) : M A := fun e => Ok (a, e).

Definition bind {A B : Type} (c : M A) (k : A -> M B) : M B :=
  fun e => match c e with
           | Ok (a, e') => k a e'
           | Fail why => Fail why
           end.

Notation "v <- c ;; k" := (bind c (fun v => k))
  (at level 61, c at next level, right associativity).

Definition throw {A : Type} (why : Failure) : M A := fun _ => Fail why.

Definition lift {A : Type} (r : Result A) : M A :=
  fun e => match r with
           | Ok a => Ok (a, e)
           | Fail why => Fail why
           end.

(** [Math.random()] *)
Definition Math_random : M Q :=
  fun e => Ok (random_values e (random_count e),
               mkEnv (random_values e) (S (random_count e))
                     (clock_values e) (clock_count e) (page e)).

(** [Date.now()] *)
Definition Date_now : M Z :=
  fun e => Ok (clock_values e (clock_count e),
               mkEnv (random_values e) (random_count e)
                     (clock_values e) (S (clock_count e)) (page e)).

Definition write (w : PageWrite) : M unit :=
  fun e => Ok (tt, mkEnv (random_values e) (random_count e)
                         (clock_values e) (clock_count e) (w :: page e)).

(** [array.forEach(f)] where [f] updates each element in place. *)
Fixpoint forEach {A : Type} (f : A -> M A) (l : list A) : M (list A) :=
  match l with
  | [] => ret []
  | a :: r => a' <- f a ;; r' <- forEach f r ;; ret (a' :: r')
  end.

(** [array[i]] for an integer [i]: [None] stands for [undefined]. *)
Definition array_get {A : Type} (l : list A) (i : Z) : option A :=
  if i <? 0 then None else nth_error l (Z.to_nat i).

(** [a < b] and [a > b] on numbers. *)
Definition Qlt_bool (a b : Q) : bool := negb (Qle_bool b a).
Definition Qgt_bool (a b : Q) : bool := Qlt_bool b a.

(** [{ x: -v.x, y: -v.y }] *)
Definition neg (v : Vec) : Vec := mkVec (- v.(x)) (- v.(y)).

(** The literal [[{x:1,y:0}, {x:-1,y:0}, {x:0,y:1}, {x:0,y:-1}]]. *)
Definition directions : list Vec := [mkVec 1 0; mkVec (-1) 0; mkVec 0 1; mkVec 0 (-1)].

(** ** Snake: the player snake and the base class of the AI snakes

    The fields [color] and [segmentSize] and the drawing methods only feed
    the canvas and are left out. *)

Module Snake.

Record t : Type := mk {
  segments : list Vec;
  isPlayer : bool;
  eyeBlinkTimer : Q;
  eyesOpen : bool
}.

Definition set_segments (l : list Vec) (s : t) : t :=
  mk l (isPlayer s) (eyeBlinkTimer s) (eyesOpen s).
Definition set_eyeBlinkTimer (q : Q) (s : t) : t :=
  mk (segments s) (isPlayer s) q (eyesOpen s).
Definition set_eyesOpen (b : bool) (s : t) : t :=
  mk (segments s) (isPlayer s) (eyeBlinkTimer s) b.

(** [constructor(x, y, color, isPlayer, initialLength)] *)
Definition new (px py : Z) (player : bool) (initialLength : nat) : t :=
  mk (map (fun i => mkVec (px - Z.of_nat i * GRID_SIZE) py) (seq 0 initialLength))
     player 0%Q true.

(** [update(direction)]: [unshift] the new head, [pop] the last segment. *)
Definition update (direction : Vec) (s : t) : Result t :=
  match segments s with
  | [] => Fail TypeError
  | head :: _ =>
      let newHead := mkVec (head.(x) + direction.(x) * GRID_SIZE)
                           (head.(y) + direction.(y) * GRID_SIZE) in
      Ok (set_segments (removelast (newHead :: segments s)) s)
  end.

(** [grow()]: a copy of the last segment is pushed. On an empty array the
    source pushes [{}], which has no coordinates. *)
Definition grow (s : t) : Result t :=
  match segments s with
  | [] => Fail Unmodelled
  | first :: rest =>
      let tail := last rest first in
      Ok (set_segments (segments s ++ [mkVec tail.(x) tail.(y)]) s)
  end.

(** [checkWallCollision(canvasWidth, canvasHeight)] *)
Definition checkWallCollision (canvasWidth canvasHeight : Z) (s : t) : Result bool :=
  match segments s with
  | [] => Fail TypeError
  | head :: _ =>
      Ok ((head.(x) <? GRID_SIZE / 2) || (head.(x) >=? canvasWidth - GRID_SIZE / 2) ||
          (head.(y) <? GRID_SIZE / 2) || (head.(y) >=? canvasHeight - GRID_SIZE / 2))
  end.

(** [checkSelfCollision()]: the loop starts at index 1, so the head of an
    empty array is never read. *)
Definition checkSelfCollision (s : t) : bool :=
  match segments s with
  | [] => false
  | head :: rest => existsb (fun seg => same_cell head seg) rest
  end.

(** [checkCollisionWithSnake(otherSnake)] *)
Definition checkCollisionWithSnake (otherSnake : t) (s : t) : Result bool :=
  match segments s, segments otherSnake with
  | _, [] => Ok false
  | [], _ :: _ => Fail TypeError
  | head :: _, others => Ok (existsb (fun segment => same_cell head segment) others)
  end.

(** [checkFoodCollision(food)] *)
Definition checkFoodCollision (food : Vec) (s : t) : Result bool :=
  match segments s with
  | [] => Fail TypeError
  | head :: _ => Ok (same_cell head food)
  end.

(** [updateEyes(deltaTime)] *)
Definition updateEyes (deltaTime : Q) (s : t) : t :=
  if isPlayer s then
    let s := set_eyeBlinkTimer (eyeBlinkTimer s + deltaTime)%Q s in
    let s := if Qgt_bool (eyeBlinkTimer s) 3000 then set_eyesOpen false s else s in
    if Qgt_bool (eyeBlinkTimer s) 3150
    then set_eyeBlinkTimer 0%Q (set_eyesOpen true s)
    else s
  else s.

End Snake.

(** ** AISnake: [class AISnake extends Snake]

    [base] holds the inherited fields; [shapeType] only feeds the canvas. *)

Module AISnake.

Record t : Type := mk {
  base : Snake.t;
  direction : Vec;
  nextDirection : Vec;
  aiTimer : Z;
  aiChangeInterval : Z
}.

Definition set_base (b : Snake.t) (s : t) : t :=
  mk b (direction s) (nextDirection s) (aiTimer s) (aiChangeInterval s).
Definition set_direction (d : Vec) (s : t) : t :=
  mk (base s) d (nextDirection s) (aiTimer s) (aiChangeInterval s).
Definition set_nextDirection (d : Vec) (s : t) : t :=
  mk (base s) (direction s) d (aiTimer s) (aiChangeInterval s).
Definition set_aiTimer (n : Z) (s : t) : t :=
  mk (base s) (direction s) (nextDirection s) n (aiChangeInterval s).
Definition set_aiChangeInterval (n : Z) (s : t) : t :=
  mk (base s) (direction s) (nextDirection s) (aiTimer s) n.

(** [constructor(x, y, color, initialLength, shapeType)] *)
Definition new (px py : Z) (initialLength : nat) : M t :=
  r1 <- Math_random ;;
  r2 <- Math_random ;;
  ret (mk (Snake.set_eyeBlinkTimer (r2 * 4000)%Q (Snake.new px py false initialLength))
          (mkVec 1 0) (mkVec 1 0) 0 (4 + Qfloor (r1 * 4)%Q)).

(** [updateAI(canvasWidth, canvasHeight)] *)
Definition updateAI (canvasWidth canvasHeight : Z) (s : t) : M t :=
  let s := set_aiTimer (aiTimer s + 1) s in
  if aiTimer s >=? aiChangeInterval s then
    let s := set_aiTimer 0 s in
    r <- Math_random ;;
    let s := set_aiChangeInterval (4 + Qfloor (r * 4)%Q) s in
    match Snake.segments (base s) with
    | [] => throw TypeError
    | head :: _ =>
        let nextX := head.(x) + (direction s).(x) * GRID_SIZE in
        let nextY := head.(y) + (direction s).(y) * GRID_SIZE in
        let margin := GRID_SIZE in
        let nearWall :=
          (nextX <? margin) || (nextX >=? canvasWidth - margin) ||
          (nextY <? margin) || (nextY >=? canvasHeight - margin) in
        change <- (if nearWall then ret true
                   else r <- Math_random ;; ret (Qlt_bool r (1 # 4))) ;;
        if (change : bool) then
          let validDirections :=
            filter (fun dir => negb (is_reverse dir (direction s))) directions in
          r <- Math_random ;;
          match array_get validDirections
                  (Qfloor (r * inject_Z (Z.of_nat (List.length validDirections)))%Q) with
          | Some d => ret (set_nextDirection d s)
          | None => throw Unmodelled
          end
        else ret s
    end
  else ret s.

(** [update()]: the pending direction is applied unless it is the exact
    reverse, then [super.update(this.direction)]. *)
Definition update (s : t) : Result t :=
  let s := if differs (nextDirection s) (neg (direction s))
           then set_direction (mkVec (nextDirection s).(x) (nextDirection s).(y)) s
           else s in
  match Snake.update (direction s) (base s) with
  | Ok b => Ok (set_base b s)
  | Fail why => Fail why
  end.

(** [updateEyes(deltaTime)], the override. *)
Definition updateEyes (deltaTime : Q) (s : t) : t :=
  let b := base s in
  let b := Snake.set_eyeBlinkTimer (Snake.eyeBlinkTimer b + deltaTime)%Q b in
  let b := if Qgt_bool (Snake.eyeBlinkTimer b) 4000 then Snake.set_eyesOpen false b else b in
  let b := if Qgt_bool (Snake.eyeBlinkTimer b) 4150
           then Snake.set_eyeBlinkTimer 0%Q (Snake.set_eyesOpen true b)
           else b in
  set_base b s.

End AISnake.

(** ** Food

    The food object is read through its [x] and [y] only; [size], [color]
    and [pulse] feed the canvas. *)

Module Food.

Definition t : Set := Vec.

(** [constructor(x, y)] *)
Definition new (px py : Z) : t := mkVec px py.

(** The two nested [for] loops of [respawn]: some segment of some snake is
    at [p]. *)
Definition occupied (p : Vec) (snakes : list Snake.t) : bool :=
  existsb (fun snake => existsb (fun segment => same_cell p segment) (Snake.segments snake))
          snakes.

(** One sampled position: two draws. *)
Definition sample (canvasWidth canvasHeight : Z) : M t :=
  r1 <- Math_random ;;
  r2 <- Math_random ;;
  let gridX := Qfloor (r1 * inject_Z ((canvasWidth - GRID_SIZE) / GRID_SIZE))%Q in
  let gridY := Qfloor (r2 * inject_Z ((canvasHeight - GRID_SIZE) / GRID_SIZE))%Q in
  ret (mkVec (gridX * GRID_SIZE + GRID_SIZE / 2) (gridY * GRID_SIZE + GRID_SIZE / 2)).

(** The [while (!validPosition && attempts < 100)] loop with [left]
    attempts to go: the food after the loop and the final [validPosition]. *)
Fixpoint respawn_loop (left : nat) (canvasWidth canvasHeight : Z)
  (snakes : list Snake.t) (food : t) (validPosition : bool) : M (t * bool) :=
  match left with
  | O => ret (food, validPosition)
  | S left' =>
      if validPosition then ret (food, validPosition)
      else
        food' <- sample canvasWidth canvasHeight ;;
        respawn_loop left' canvasWidth canvasHeight snakes food'
                     (negb (occupied food' snakes))
  end.

(** [respawn(canvasWidth, canvasHeight, snakes)] *)
Definition respawn (canvasWidth canvasHeight : Z) (snakes : list Snake.t) (food : t) : M t :=
  r <- respawn_loop 100 canvasWidth canvasHeight snakes food false ;;
  ret (fst r).

End Food.
(** ** Game

    The canvas, the 2d context and the DOM elements are the page; of them
    the model keeps the canvas size, which the constructor sets to
    [CANVAS_WIDTH] x [CANVAS_HEIGHT] and nothing changes afterwards. *)

Module Game.

Record t : Type := mk {
  score : Z;
  isGameOver : bool;
  isPaused : bool;
  isWaitingToStart : bool;
  gameStartTime : Z;
  isGracePeriod : bool;
  baseSpeed : Q;
  currentSpeed : Q;
  userSpeedMultiplier : Q;
  moveInterval : Q;
  lastMoveTime : Q;
  lastFrameTime : Q;
  inputHandler : InputHandler.t;
  playerDirection : Vec;
  playerSnake : Snake.t;
  aiSnakes : list AISnake.t;
  food : Food.t
}.

Definition set_score (v : Z) (g : t) : t :=
  mk v (isGameOver g) (isPaused g) (isWaitingToStart g) (gameStartTime g)
     (isGracePeriod g) (baseSpeed g) (currentSpeed g) (userSpeedMultiplier g)
     (moveInterval g) (lastMoveTime g) (lastFrameTime g) (inputHandler g)
     (playerDirection g) (playerSnake g) (aiSnakes g) (food g).
Definition set_isGameOver (v : bool) (g : t) : t :=
  mk (score g) v (isPaused g) (isWaitingToStart g) (gameStartTime g)
     (isGracePeriod g) (baseSpeed g) (currentSpeed g) (userSpeedMultiplier g)
     (moveInterval g) (lastMoveTime g) (lastFrameTime g) (inputHandler g)
     (playerDirection g) (playerSnake g) (aiSnakes g) (food g).
Definition set_isPaused (v : bool) (g : t) : t :=
  mk (score g) (isGameOver g) v (isWaitingToStart g) (gameStartTime g)
     (isGracePeriod g) (baseSpeed g) (currentSpeed g) (userSpeedMultiplier g)
     (moveInterval g) (lastMoveTime g) (lastFrameTime g) (inputHandler g)
     (playerDirection g) (playerSnake g) (aiSnakes g) (food g).
Definition set_isWaitingToStart (v : bool) (g : t) : t :=
  mk (score g) (isGameOver g) (isPaused g) v (gameStartTime g) (isGracePeriod
     g) (baseSpeed g) (currentSpeed g) (userSpeedMultiplier g) (moveInterval
     g) (lastMoveTime g) (lastFrameTime g) (inputHandler g) (playerDirection
     g) (playerSnake g) (aiSnakes g) (food g).
Definition set_gameStartTime (v : Z) (g : t) : t :=
  mk (score g) (isGameOver g) (isPaused g) (isWaitingToStart g) v
     (isGracePeriod g) (baseSpeed g) (currentSpeed g) (userSpeedMultiplier g)
     (moveInterval g) (lastMoveTime g) (lastFrameTime g) (inputHandler g)
     (playerDirection g) (playerSnake g) (aiSnakes g) (food g).
Definition set_isGracePeriod (v : bool) (g : t) : t :=
  mk (score g) (isGameOver g) (isPaused g) (isWaitingToStart g) (gameStartTime
     g) v (baseSpeed g) (currentSpeed g) (userSpeedMultiplier g) (moveInterval
     g) (lastMoveTime g) (lastFrameTime g) (inputHandler g) (playerDirection
     g) (playerSnake g) (aiSnakes g) (food g).
Definition set_baseSpeed (v : Q) (g : t) : t :=
  mk (score g) (isGameOver g) (isPaused g) (isWaitingToStart g) (gameStartTime
     g) (isGracePeriod g) v (currentSpeed g) (userSpeedMultiplier g)
     (moveInterval g) (lastMoveTime g) (lastFrameTime g) (inputHandler g)
     (playerDirection g) (playerSnake g) (aiSnakes g) (food g).
Definition set_currentSpeed (v : Q) (g : t) : t :=
  mk (score g) (isGameOver g) (isPaused g) (isWaitingToStart g) (gameStartTime
     g) (isGracePeriod g) (baseSpeed g) v (userSpeedMultiplier g)
     (moveInterval g) (lastMoveTime g) (lastFrameTime g) (inputHandler g)
     (playerDirection g) (playerSnake g) (aiSnakes g) (food g).
Definition set_userSpeedMultiplier (v : Q) (g : t) : t :=
  mk (score g) (isGameOver g) (isPaused g) (isWaitingToStart g) (gameStartTime
     g) (isGracePeriod g) (baseSpeed g) (currentSpeed g) v (moveInterval g)
     (lastMoveTime g) (lastFrameTime g) (inputHandler g) (playerDirection g)
     (playerSnake g) (aiSnakes g) (food g).
Definition set_moveInterval (v : Q) (g : t) : t :=
  mk (score g) (isGameOver g) (isPaused g) (isWaitingToStart g) (gameStartTime
     g) (isGracePeriod g) (baseSpeed g) (currentSpeed g) (userSpeedMultiplier
     g) v (lastMoveTime g) (lastFrameTime g) (inputHandler g) (playerDirection
     g) (playerSnake g) (aiSnakes g) (food g).
Definition set_lastMoveTime (v : Q) (g : t) : t :=
  mk (score g) (isGameOver g) (isPaused g) (isWaitingToStart g) (gameStartTime
     g) (isGracePeriod g) (baseSpeed g) (currentSpeed g) (userSpeedMultiplier
     g) (moveInterval g) v (lastFrameTime g) (inputHandler g) (playerDirection
     g) (playerSnake g) (aiSnakes g) (food g).
Definition set_lastFrameTime (v : Q) (g : t) : t :=
  mk (score g) (isGameOver g) (isPaused g) (isWaitingToStart g) (gameStartTime
     g) (isGracePeriod g) (baseSpeed g) (currentSpeed g) (userSpeedMultiplier
     g) (moveInterval g) (lastMoveTime g) v (inputHandler g) (playerDirection
     g) (playerSnake g) (aiSnakes g) (food g).
Definition set_inputHandler (v : InputHandler.t) (g : t) : t :=
  mk (score g) (isGameOver g) (isPaused g) (isWaitingToStart g) (gameStartTime
     g) (isGracePeriod g) (baseSpeed g) (currentSpeed g) (userSpeedMultiplier
     g) (moveInterval g) (lastMoveTime g) (lastFrameTime g) v (playerDirection
     g) (playerSnake g) (aiSnakes g) (food g).
Definition set_playerDirection (v : Vec) (g : t) : t :=
  mk (score g) (isGameOver g) (isPaused g) (isWaitingToStart g) (gameStartTime
     g) (isGracePeriod g) (baseSpeed g) (currentSpeed g) (userSpeedMultiplier
     g) (moveInterval g) (lastMoveTime g) (lastFrameTime g) (inputHandler g) v
     (playerSnake g) (aiSnakes g) (food g).
Definition set_playerSnake (v : Snake.t) (g : t) : t :=
  mk (score g) (isGameOver g) (isPaused g) (isWaitingToStart g) (gameStartTime
     g) (isGracePeriod g) (baseSpeed g) (currentSpeed g) (userSpeedMultiplier
     g) (moveInterval g) (lastMoveTime g) (lastFrameTime g) (inputHandler g)
     (playerDirection g) v (aiSnakes g) (food g).
Definition set_aiSnakes (v : list AISnake.t) (g : t) : t :=
  mk (score g) (isGameOver g) (isPaused g) (isWaitingToStart g) (gameStartTime
     g) (isGracePeriod g) (baseSpeed g) (currentSpeed g) (userSpeedMultiplier
     g) (moveInterval g) (lastMoveTime g) (lastFrameTime g) (inputHandler g)
     (playerDirection g) (playerSnake g) v (food g).
Definition set_food (v : Food.t) (g : t) : t :=
  mk (score g) (isGameOver g) (isPaused g) (isWaitingToStart g) (gameStartTime
     g) (isGracePeriod g) (baseSpeed g) (currentSpeed g) (userSpeedMultiplier
     g) (moveInterval g) (lastMoveTime g) (lastFrameTime g) (inputHandler g)
     (playerDirection g) (playerSnake g) (aiSnakes g) v.

Definition canvas_width : Z := CANVAS_WIDTH.
Definition canvas_height : Z := CANVAS_HEIGHT.
Definition minSpeed : Q := (1 # 2)%Q.
Definition maxSpeed : Q := (5 # 2)%Q.

(** [[this.playerSnake, ...this.aiSnakes]] *)
Definition snakes (g : t) : list Snake.t :=
  playerSnake g :: map AISnake.base (aiSnakes g).

(** [updateUI()] *)
Definition updateUI (g : t) : M unit :=
  write (UpdateUI (score g) (List.length (Snake.segments (playerSnake g)))
                  (currentSpeed g)
                  (Qle_bool maxSpeed (userSpeedMultiplier g))
                  (Qle_bool (userSpeedMultiplier g) minSpeed)
                  (if isGameOver g then GAME_OVER
                   else if isWaitingToStart g then READY
                   else if isPaused g then PAUSED
                   else RUNNING)).

(** [updateSpeed()] *)
Definition updateSpeed (g : t) : t :=
  let g := set_currentSpeed (baseSpeed g * userSpeedMultiplier g)%Q g in
  set_moveInterval (BASE_MOVE_INTERVAL / currentSpeed g)%Q g.

(** [adjustSpeed(delta)] *)
Definition adjustSpeed (delta : Q) (g : t) : M t :=
  let g := set_userSpeedMultiplier
             (Qmax minSpeed (Qmin maxSpeed (userSpeedMultiplier g + delta)))%Q g in
  let g := updateSpeed g in
  _ <- updateUI g ;;
  ret g.

(** [gameOver()] *)
Definition gameOver (g : t) : M t :=
  let g := set_isGameOver true g in
  _ <- write (FinalScore (score g)) ;;
  _ <- write ShowGameOver ;;
  _ <- updateUI g ;;
  ret g.

(** [update], lines 703-711: waiting for the start key. *)
Definition await_start (g : t) : M t :=
  let (pressed, h) := InputHandler.checkStartPressed (inputHandler g) in
  let (go, h) := if pressed then (true, h) else InputHandler.checkPauseToggle h in
  let g := set_inputHandler h g in
  if go then
    now <- Date_now ;;
    let g := set_isWaitingToStart false g in
    let g := set_gameStartTime now g in
    let g := set_isGracePeriod true g in
    _ <- write HideStartScreen ;;
    ret g
  else ret g.

(** [update], lines 713-719: the pause toggle. The assignment
    [this.gameStartTime = Date.now() - (Date.now() - this.gameStartTime)]
    reads the clock twice, left operand first. *)
Definition pause_toggle (g : t) : M t :=
  let (toggled, h) := InputHandler.checkPauseToggle (inputHandler g) in
  let g := set_inputHandler h g in
  if toggled then
    let g := set_isPaused (negb (isPaused g)) g in
    if negb (isPaused g) then
      t1 <- Date_now ;;
      t2 <- Date_now ;;
      ret (set_gameStartTime (t1 - (t2 - gameStartTime g)) g)
    else ret g
  else ret g.

(** [update], lines 729-732: difficulty scaling. *)
Definition scale_difficulty (g : t) : t :=
  let speedMultiplier := (1 + inject_Z (score g / 50) * SPEED_INCREASE_RATE)%Q in
  let g := set_baseSpeed (Qmin speedMultiplier MAX_SPEED_MULTIPLIER) g in
  updateSpeed g.

(** The body of the [forEach] of lines 738-742. *)
Definition update_ai (deltaTime : Q) (snake : AISnake.t) : M AISnake.t :=
  snake <- AISnake.updateAI canvas_width canvas_height snake ;;
  snake <- lift (AISnake.update snake) ;;
  ret (AISnake.updateEyes deltaTime snake).

(** [update], lines 725-746: the grace flag, the speed, then every snake
    moves one cell. *)
Definition move (deltaTime : Q) (g : t) : M t :=
  currentTime <- Date_now ;;
  let g := set_isGracePeriod (currentTime - gameStartTime g <? GRACE_PERIOD) g in
  let g := scale_difficulty g in
  let (d, h) := InputHandler.getNextDirection (inputHandler g) in
  let g := set_playerDirection d (set_inputHandler h g) in
  ais <- forEach (update_ai deltaTime) (aiSnakes g) ;;
  let g := set_aiSnakes ais g in
  p <- lift (Snake.update (playerDirection g) (playerSnake g)) ;;
  ret (set_playerSnake (Snake.updateEyes deltaTime p) g).

(** The [for (let aiSnake of this.aiSnakes)] loop of lines 756-761: does
    the player's head lie on some AI snake, first one first. *)
Fixpoint hits_ai (player : Snake.t) (ais : list AISnake.t) : Result bool :=
  match ais with
  | [] => Ok false
  | aiSnake :: rest =>
      match Snake.checkCollisionWithSnake (AISnake.base aiSnake) player with
      | Ok true => Ok true
      | Ok false => hits_ai player rest
      | Fail why => Fail why
      end
  end.

(** [update], lines 764-771: the food. *)
Definition eat (g : t) : M t :=
  hit <- lift (Snake.checkFoodCollision (food g) (playerSnake g)) ;;
  if (hit : bool) then
    p <- lift (Snake.grow (playerSnake g)) ;;
    let g := set_playerSnake p g in
    let g := set_score (score g + 10) g in
    _ <- updateUI g ;;
    _ <- write PlayEatSound ;;
    f <- Food.respawn canvas_width canvas_height (snakes g) (food g) ;;
    ret (set_food f g)
  else ret g.

(** The body of the [forEach] of lines 774-781. *)
Definition bounce (snake : AISnake.t) : M AISnake.t :=
  wall <- lift (Snake.checkWallCollision canvas_width canvas_height (AISnake.base snake)) ;;
  if (wall : bool)
  then ret (AISnake.set_nextDirection (neg (AISnake.direction snake)) snake)
  else ret snake.

(** [update], lines 764-781: what a tick does once no fatal collision
    ended it. *)
Definition eat_and_bounce (g : t) : M t :=
  g <- eat g ;;
  ais <- forEach bounce (aiSnakes g) ;;
  ret (set_aiSnakes ais g).

(** [update], lines 748-781. *)
Definition resolve (g : t) : M t :=
  if negb (isGracePeriod g) then
    wall <- lift (Snake.checkWallCollision canvas_width canvas_height (playerSnake g)) ;;
    if (wall : bool) || Snake.checkSelfCollision (playerSnake g) then gameOver g
    else
      hit <- lift (hits_ai (playerSnake g) (aiSnakes g)) ;;
      if (hit : bool) then gameOver g
      else eat_and_bounce g
  else eat_and_bounce g.

(** [update(deltaTime)] *)
Definition update (deltaTime : Q) (g : t) : M t :=
  if isGameOver g then ret g
  else if isWaitingToStart g then await_start g
  else
    g <- pause_toggle g ;;
    if isPaused g then ret g
    else
      g <- move deltaTime g ;;
      resolve g.

(** [gameLoop(currentTime)], one frame; [render()] only draws. *)
Definition gameLoop (currentTime : Q) (g : t) : M t :=
  let deltaTime := (currentTime - lastFrameTime g)%Q in
  let g := set_lastFrameTime currentTime g in
  g <- (if Qle_bool (moveInterval g) (currentTime - lastMoveTime g)
        then g <- update deltaTime g ;; ret (set_lastMoveTime currentTime g)
        else ret g) ;;
  _ <- updateUI g ;;
  ret g.

(** The AI snakes of the constructor and of [restart()]: the body of the
    [for (let i = 0; i < 4; i++)] loop at one spawn position. *)
Definition spawn_ai (spawnPos : Vec) : M AISnake.t :=
  r <- Math_random ;;
  let aiInitialLength := 6 + Qfloor (r * 3)%Q in
  let startX := spawnPos.(x) / GRID_SIZE * GRID_SIZE + GRID_SIZE / 2 in
  let startY := spawnPos.(y) / GRID_SIZE * GRID_SIZE + GRID_SIZE / 2 in
  r <- Math_random ;;
  match array_get directions
          (Qfloor (r * inject_Z (Z.of_nat (List.length directions)))%Q) with
  | Some randomDir =>
      aiSnake <- AISnake.new startX startY (Z.to_nat aiInitialLength) ;;
      ret (AISnake.set_nextDirection randomDir (AISnake.set_direction randomDir aiSnake))
  | None => throw Unmodelled
  end.

Definition spawnPositions : list Vec :=
  [mkVec 150 150; mkVec (CANVAS_WIDTH - 150) 150;
   mkVec 150 (CANVAS_HEIGHT - 150); mkVec (CANVAS_WIDTH - 150) (CANVAS_HEIGHT - 150)].

Fixpoint spawn_all (positions : list Vec) : M (list AISnake.t) :=
  match positions with
  | [] => ret []
  | spawnPos :: rest =>
      aiSnake <- spawn_ai spawnPos ;;
      others <- spawn_all rest ;;
      ret (aiSnake :: others)
  end.

Definition playerStartX : Z := CANVAS_WIDTH / 2 / GRID_SIZE * GRID_SIZE + GRID_SIZE / 2.
Definition playerStartY : Z := CANVAS_HEIGHT / 2 / GRID_SIZE * GRID_SIZE + GRID_SIZE / 2.

(** [constructor()], its first frame [gameLoop(0)] included. *)
Definition new : M t :=
  now <- Date_now ;;
  let player := Snake.new playerStartX playerStartY true 6 in
  ais <- spawn_all spawnPositions ;;
  f <- Food.respawn canvas_width canvas_height (player :: map AISnake.base ais)
         (Food.new 0 0) ;;
  let g := mk 0 false false true now true 1%Q 1%Q 1%Q BASE_MOVE_INTERVAL 0%Q 0%Q
              InputHandler.new (mkVec 1 0) player ais f in
  _ <- updateUI g ;;
  gameLoop 0%Q g.

(** [restart()] *)
Definition restart (g : t) : M t :=
  now <- Date_now ;;
  _ <- write ShowStartScreen ;;
  let player := Snake.new playerStartX playerStartY true 6 in
  ais <- spawn_all spawnPositions ;;
  f <- Food.respawn canvas_width canvas_height (player :: map AISnake.base ais)
         (food g) ;;
  let g := mk 0 false false true now true 1%Q 1%Q 1%Q BASE_MOVE_INTERVAL
              (lastMoveTime g) (lastFrameTime g)
              InputHandler.new (mkVec 1 0) player ais f in
  _ <- updateUI g ;;
  _ <- write HideGameOver ;;
  ret g.

End Game.

(** ** Vocabulary of the statements, and the scenarios they are run on *)

(** The multiplier as the specification writes it:
    [min(1 + floor(score / 50) * increaseRate, maxMultiplier)]. *)
Definition speedMultiplier_spec (s : Z) : Q :=
  Qmin (1 + inject_Z (s / 50) * SPEED_INCREASE_RATE)%Q MAX_SPEED_MULTIPLIER.

(** Two directions at a right angle: their dot product is zero. *)
Definition perpendicular (a b : Vec) : bool :=
  a.(x) * b.(x) + a.(y) * b.(y) =? 0.

(** The [i]-th position that [respawn] samples from environment [e]: the
    draws [2i] and [2i+1] after those already consumed. *)
Definition sample_at (canvasWidth canvasHeight : Z) (e : Env) (i : nat) : Vec :=
  let r1 := random_values e (random_count e + 2 * i) in
  let r2 := random_values e (random_count e + 2 * i + 1) in
  mkVec (Qfloor (r1 * inject_Z ((canvasWidth - GRID_SIZE) / GRID_SIZE))%Q * GRID_SIZE
         + GRID_SIZE / 2)
        (Qfloor (r2 * inject_Z ((canvasHeight - GRID_SIZE) / GRID_SIZE))%Q * GRID_SIZE
         + GRID_SIZE / 2).

(** The environment after [n] more random draws. *)
Definition drawn (n : nat) (e : Env) : Env :=
  mkEnv (random_values e) (random_count e + n) (clock_values e) (clock_count e) (page e).

(** A snake lying on the cell that the draws 0, 0 select. *)
Definition corner_snake : Snake.t :=
  Snake.mk [mkVec 50 10; mkVec 30 10; mkVec 10 10; mkVec 10 30; mkVec 10 50; mkVec 10 70]
           true 0%Q true.

(** An environment whose every random draw is 0. *)
Definition zero_draws : Env := mkEnv (fun _ => 0%Q) 0 (fun n => Z.of_nat n) 0 [].

(** [Math.random()] returns a number in [0, 1). *)
Definition random_in_range (e : Env) : Prop :=
  forall n, (0 <= random_values e n)%Q /\ (random_values e n < 1)%Q.

(** [e'] is [e] after some more draws: same sources, same clock position,
    same page. *)
Definition only_draws (e e' : Env) : Prop := exists n, e' = drawn n e.

(** [e'] continues [e]: the same two sources of values. *)
Definition same_sources (e e' : Env) : Prop :=
  random_values e' = random_values e /\ clock_values e' = clock_values e.

Definition ai_well_formed (a : AISnake.t) : Prop :=
  Snake.segments (AISnake.base a) <> [] /\
  is_unit (AISnake.direction a) = true /\
  is_unit (AISnake.nextDirection a) = true.

Definition well_formed (g : Game.t) : Prop :=
  Snake.segments (Game.playerSnake g) <> [] /\
  Forall ai_well_formed (Game.aiSnakes g).

(** [a'] is [a] one movement application later. *)
Definition ai_moved (a a' : AISnake.t) : Prop :=
  ai_well_formed a' /\
  is_reverse (AISnake.direction a') (AISnake.direction a) = false /\
  exists head rest,
    Snake.segments (AISnake.base a) = head :: rest /\
    Snake.segments (AISnake.base a') =
      mkVec (head.(x) + (AISnake.direction a').(x) * GRID_SIZE)
            (head.(y) + (AISnake.direction a').(y) * GRID_SIZE)
      :: removelast (head :: rest).

(** The environment after one more clock read. *)
Definition clock_read (e : Env) : Env :=
  mkEnv (random_values e) (random_count e) (clock_values e) (S (clock_count e)) (page e).

(** The player's snake in [g'] is that of [g] one cell further along the
    player direction of [g']. *)
Definition player_moved (g g' : Game.t) : Prop :=
  exists head rest,
    Snake.segments (Game.playerSnake g) = head :: rest /\
    Snake.segments (Game.playerSnake g') =
      mkVec (head.(x) + (Game.playerDirection g').(x) * GRID_SIZE)
            (head.(y) + (Game.playerDirection g').(y) * GRID_SIZE)
      :: removelast (head :: rest).

(** The cell ahead of the head of [a] is within one cell of a wall: the
    [nearWall] of [updateAI] on the game's canvas. *)
Definition near_wall (a : AISnake.t) : bool :=
  match Snake.segments (AISnake.base a) with
  | [] => false
  | head :: _ =>
      let nextX := head.(x) + (AISnake.direction a).(x) * GRID_SIZE in
      let nextY := head.(y) + (AISnake.direction a).(y) * GRID_SIZE in
      (nextX <? GRID_SIZE) || (nextX >=? Game.canvas_width - GRID_SIZE) ||
      (nextY <? GRID_SIZE) || (nextY >=? Game.canvas_height - GRID_SIZE)
  end.

(** The headings [updateAI] chooses among: every direction but the exact
    reverse of the committed one, in the order of [directions]. *)
Definition valid_directions (a : AISnake.t) : list Vec :=
  filter (fun dir => negb (is_reverse dir (AISnake.direction a))) directions.

(** [a'] and [e'] are what the countdown of [updateAI] leaves of [a] and
    [e]. Short of the interval the timer gains one and no draw is made. At
    the interval the timer restarts and the first draw sets the next
    interval to 4..7; near a wall the second draw picks the pending heading
    among [valid_directions]; elsewhere the second draw decides (below 1/4)
    whether a third one picks it. *)
Definition ai_decided (a : AISnake.t) (e : Env) (a' : AISnake.t) (e' : Env) : Prop :=
  let r0 := random_values e (random_count e) in
  let r1 := random_values e (random_count e + 1) in
  let r2 := random_values e (random_count e + 2) in
  let turned := fun r : Q =>
    array_get (valid_directions a)
      (Qfloor (r * inject_Z (Z.of_nat (List.length (valid_directions a)))))
      = Some (AISnake.nextDirection a') /\
    is_unit (AISnake.nextDirection a') = true /\
    is_reverse (AISnake.nextDirection a') (AISnake.direction a) = false in
  if AISnake.aiTimer a + 1 >=? AISnake.aiChangeInterval a then
    AISnake.aiTimer a' = 0 /\
    AISnake.aiChangeInterval a' = 4 + Qfloor (r0 * 4) /\
    4 <= AISnake.aiChangeInterval a' <= 7 /\
    (if near_wall a then turned r1 /\ e' = drawn 2 e
     else if Qlt_bool r1 (1 # 4) then turned r2 /\ e' = drawn 3 e
     else AISnake.nextDirection a' = AISnake.nextDirection a /\ e' = drawn 2 e)
  else
    AISnake.aiTimer a' = AISnake.aiTimer a + 1 /\
    AISnake.aiChangeInterval a' = AISnake.aiChangeInterval a /\
    AISnake.nextDirection a' = AISnake.nextDirection a /\
    e' = e.

(** [s'] is [s] with the blink timer advanced by [deltaTime]: past
    [closeAt] the eyes are shut, past [openAt] they are open again and the
    timer restarts. *)
Definition blinked (closeAt openAt deltaTime : Q) (s s' : Snake.t) : Prop :=
  let t := (Snake.eyeBlinkTimer s + deltaTime)%Q in
  Snake.isPlayer s' = Snake.isPlayer s /\
  Snake.eyeBlinkTimer s' = (if Qgt_bool t openAt then 0%Q else t) /\
  Snake.eyesOpen s' =
    (if Qgt_bool t openAt then true
     else if Qgt_bool t closeAt then false
     else Snake.eyesOpen s).

(** [a'] and [e'] are [a] and [e] after the AI part of a tick of
    [deltaTime] milliseconds: the countdown and its draws, the pending
    heading committed unless it is the exact reverse, one cell moved along
    the committed heading, the blink timer advanced. *)
Definition ai_stepped (deltaTime : Q) (a : AISnake.t) (e : Env)
  (a' : AISnake.t) (e' : Env) : Prop :=
  ai_decided a e a' e' /\
  AISnake.direction a' =
    (if is_reverse (AISnake.nextDirection a') (AISnake.direction a)
     then AISnake.direction a else AISnake.nextDirection a') /\
  (exists head rest,
      Snake.segments (AISnake.base a) = head :: rest /\
      Snake.segments (AISnake.base a') =
        mkVec (head.(x) + (AISnake.direction a').(x) * GRID_SIZE)
              (head.(y) + (AISnake.direction a').(y) * GRID_SIZE)
        :: removelast (head :: rest)) /\
  blinked 4000 4150 deltaTime (AISnake.base a) (AISnake.base a').

(** The AI snakes [l'] and the environment [e'] are [l] and [e] after the
    AI part of a tick: each snake stepped in list order, each from the
    environment its predecessor left. *)
Fixpoint ai_pass (deltaTime : Q) (l : list AISnake.t) (e : Env)
  (l' : list AISnake.t) (e' : Env) : Prop :=
  match l, l' with
  | [], [] => e' = e
  | a :: l, a' :: l' =>
      exists e1, ai_stepped deltaTime a e a' e1 /\ ai_pass deltaTime l e1 l' e'
  | _, _ => False
  end.

(** The player's part of a tick of [deltaTime] milliseconds: the heading
    taken from the input queue, one cell moved along it, the blink timer
    advanced (on a snake drawn as the player's). *)
Definition player_stepped (deltaTime : Q) (g g' : Game.t) : Prop :=
  Game.playerDirection g' = fst (InputHandler.getNextDirection (Game.inputHandler g)) /\
  Game.inputHandler g' = snd (InputHandler.getNextDirection (Game.inputHandler g)) /\
  player_moved g g' /\
  (if Snake.isPlayer (Game.playerSnake g)
   then blinked 3000 3150 deltaTime (Game.playerSnake g) (Game.playerSnake g')
   else Snake.isPlayer (Game.playerSnake g') = false /\
        Snake.eyeBlinkTimer (Game.playerSnake g') = Snake.eyeBlinkTimer (Game.playerSnake g) /\
        Snake.eyesOpen (Game.playerSnake g') = Snake.eyesOpen (Game.playerSnake g)).

(** The environment after the page writes [ws] (latest first). *)
Definition wrote (ws : list PageWrite) (e : Env) : Env :=
  mkEnv (random_values e) (random_count e) (clock_values e) (clock_count e) (ws ++ page e).

(** What [updateUI()] writes for the game [g]. *)
Definition ui_of (g : Game.t) : PageWrite :=
  UpdateUI (Game.score g) (List.length (Snake.segments (Game.playerSnake g)))
           (Game.currentSpeed g)
           (Qle_bool Game.maxSpeed (Game.userSpeedMultiplier g))
           (Qle_bool (Game.userSpeedMultiplier g) Game.minSpeed)
           (if Game.isGameOver g then GAME_OVER
            else if Game.isWaitingToStart g then READY
            else if Game.isPaused g then PAUSED
            else RUNNING).

(** The state in which the player has eaten: one more segment, ten more
    points. *)
Definition fed (p : Snake.t) (g : Game.t) : Game.t :=
  Game.set_score (Game.score g + 10) (Game.set_playerSnake p g).

(** What the bounce pass does to one AI snake. *)
Definition bounced (a a' : AISnake.t) : Prop :=
  exists wall,
    Snake.checkWallCollision Game.canvas_width Game.canvas_height (AISnake.base a)
      = Ok wall /\
    a' = (if wall then AISnake.set_nextDirection (neg (AISnake.direction a)) a else a).

(** An environment whose every random draw is 1/2 and whose clock reads
    [start], [start + 1], ... *)
Definition half_draws (start : Z) : Env :=
  mkEnv (fun _ => (1 # 2)%Q) 0 (fun n => start + Z.of_nat n) 0 [].

(** A game in the Running phase, score 0, entered at time 0. *)
Definition running_game (player : Snake.t) (ais : list AISnake.t) (food : Vec) : Game.t :=
  Game.mk 0 false false false 0 true 1 1 1 BASE_MOVE_INTERVAL 0 0
          InputHandler.new (mkVec 1 0) player ais food.

(** [n] successive calls of [update]. *)
Fixpoint ticks (n : nat) (deltaTime : Q) (g : Game.t) : M Game.t :=
  match n with
  | O => ret g
  | S k => g' <- Game.update deltaTime g ;; ticks k deltaTime g'
  end.

(** Head, heading and pending heading of each AI snake of a result. *)
Definition ai_view (r : Result (Game.t * Env)) : list (option Vec * Vec * Vec) :=
  match r with
  | Ok (g, _) =>
      map (fun a => (hd_error (Snake.segments (AISnake.base a)),
                     AISnake.direction a, AISnake.nextDirection a))
          (Game.aiSnakes g)
  | Fail _ => []
  end.

(** Which AI snakes of a result are in a wall-collision position. *)
Definition ai_at_wall (r : Result (Game.t * Env)) : list (Result bool) :=
  match r with
  | Ok (g, _) =>
      map (fun a => Snake.checkWallCollision Game.canvas_width Game.canvas_height
                      (AISnake.base a))
          (Game.aiSnakes g)
  | Fail _ => []
  end.

(** One AI snake heading right, two cells from the right wall. *)
Definition bounce_game : Game.t :=
  running_game (Snake.new 510 330 true 6)
               [AISnake.mk (Snake.new 950 150 false 6) RIGHT RIGHT 0 7]
               (mkVec 290 270).

(** The game-over flag and the page of a result. *)
Definition ending (r : Result (Game.t * Env)) : option (bool * list PageWrite) :=
  match r with
  | Ok (g, e) => Some (Game.isGameOver g, page e)
  | Fail _ => None
  end.

(** The three fatal predicates (wall, self, some AI snake) on the state of
    a result. *)
Definition fatal_predicates (r : Result (Game.t * Env))
  : option (Result bool * bool * Result bool) :=
  match r with
  | Ok (g, _) =>
      Some (Snake.checkWallCollision Game.canvas_width Game.canvas_height
              (Game.playerSnake g),
            Snake.checkSelfCollision (Game.playerSnake g),
            Game.hits_ai (Game.playerSnake g) (Game.aiSnakes g))
  | Fail _ => None
  end.

(** An AI snake of six segments heading down, its head at [(hx, hy)]. *)
Definition falling_snake (hx hy : Z) : AISnake.t :=
  AISnake.mk (Snake.mk (map (fun i => mkVec hx (hy - Z.of_nat i * GRID_SIZE)) (seq 0 6))
                       false 0%Q true)
             DOWN DOWN 0 7.

(** The player steps into the right wall, onto the cell an AI snake steps
    onto in the same tick. *)
Definition wall_and_ai_game : Game.t :=
  running_game (Snake.new 970 330 true 6) [falling_snake 990 310] (mkVec 290 270).

(** The player steps onto the cell an AI snake steps onto, far from any
    wall. *)
Definition ai_only_game : Game.t :=
  running_game (Snake.new 510 330 true 6) [falling_snake 530 310] (mkVec 290 270).

(** The player steps onto the food, on the cell an AI snake steps onto in
    the same tick. *)
Definition meal_on_ai_game : Game.t :=
  running_game (Snake.new 510 330 true 6) [falling_snake 530 310] (mkVec 530 330).

(** The state on which a tick evaluates the fatal predicates. *)
Definition after_move (deltaTime : Q) (g : Game.t) : M Game.t :=
  g1 <- Game.pause_toggle g ;; Game.move deltaTime g1.

(** The state of [wall_and_ai_game] once every snake has moved, outside the
    grace period. *)
Definition wall_and_ai_moved : Game.t :=
  Game.set_isGracePeriod false
    (running_game (Snake.new 990 330 true 6) [falling_snake 990 330] (mkVec 290 270)).

(** A paused game with the pause key just pressed. *)
Definition paused_game : Game.t :=
  Game.set_isPaused true
    (Game.set_inputHandler (InputHandler.handleKeyDown "p" InputHandler.new)
       (running_game (Snake.new 510 330 true 6) [falling_snake 150 150] (mkVec 290 270))).

(** The grace anchor of a result. *)
Definition anchor (r : Result (Game.t * Env)) : option Z :=
  match r with
  | Ok (g, _) => Some (Game.gameStartTime g)
  | Fail _ => None
  end.

(** ** Sessions, and what the statements on them speak of *)

(** The dashboard relation between the player's length and the score:
    six segments at score 0, one more per ten points. *)
Definition length_matches_score (g : Game.t) : Prop :=
  10 * Z.of_nat (List.length (Snake.segments (Game.playerSnake g))) = 60 + Game.score g.

(** What reaches the game from outside: the two keyboard listeners, a frame
    of [requestAnimationFrame] with its timestamp, and the clicks on the
    speed buttons and on the restart button. *)
Inductive event : Type :=
| KeyDownEvent (e_key : string)
| KeyUpEvent (e_key : string)
| FrameEvent (currentTime : Q)
| SpeedUpClick
| SpeedDownClick
| RestartClick.

(** The listener that an event triggers. *)
Definition handle (ev : event) (g : Game.t) : M Game.t :=
  match ev with
  | KeyDownEvent k =>
      ret (Game.set_inputHandler (InputHandler.handleKeyDown k (Game.inputHandler g)) g)
  | KeyUpEvent k =>
      ret (Game.set_inputHandler (InputHandler.handleKeyUp k (Game.inputHandler g)) g)
  | FrameEvent currentTime => Game.gameLoop currentTime g
  | SpeedUpClick => Game.adjustSpeed (1 # 10) g
  | SpeedDownClick => Game.adjustSpeed (- (1 # 10)) g
  | RestartClick => Game.restart g
  end.

(** A session: the events in the order they arrive. *)
Fixpoint play (evs : list event) (g : Game.t) : M Game.t :=
  match evs with
  | [] => ret g
  | ev :: rest => g' <- handle ev g ;; play rest g'
  end.

(** What every reachable game satisfies. *)
Definition sound (g : Game.t) : Prop :=
  well_formed g /\ length_matches_score g /\ 0 <= Game.score g.

(** The page opens ([new Game()]) and the events of [evs] arrive. *)
Definition session (evs : list event) : M Game.t :=
  g <- Game.new ;; play evs g.

(** A call that releases the pause key: [keyup] of Space or P. *)
Definition releases_pause (c : InputHandler.call) : bool :=
  match c with
  | InputHandler.KeyUp k =>
      let key := toLowerCase k in ((key =? " ") || (key =? "p"))%string
  | _ => false
  end.

(** The decision countdown of an AI snake is running: the interval is
    between 4 and 7 ticks and the timer is below it. *)
Definition countdown_ok (a : AISnake.t) : Prop :=
  4 <= AISnake.aiChangeInterval a <= 7 /\
  0 <= AISnake.aiTimer a < AISnake.aiChangeInterval a.

(** An AI snake as the constructor and [restart] create it at the spawn
    position [pos]: 6 to 8 segments in a row to the left of the head, which
    is at the centre of the cell of [pos]; heading and pending heading the
    same unit direction; the countdown at 0 of 4 to 7. *)
Definition fresh_ai (pos : Vec) (a : AISnake.t) : Prop :=
  (exists n, (6 <= n <= 8)%nat /\
     Snake.segments (AISnake.base a) =
       map (fun i => mkVec (pos.(x) / 20 * 20 + 10 - Z.of_nat i * 20)
                           (pos.(y) / 20 * 20 + 10)) (seq 0 n)) /\
  AISnake.direction a = AISnake.nextDirection a /\
  is_unit (AISnake.direction a) = true /\
  AISnake.aiTimer a = 0 /\
  4 <= AISnake.aiChangeInterval a <= 7.

(** A game as the constructor and [restart] leave it. *)
Definition fresh (g : Game.t) : Prop :=
  Game.score g = 0 /\
  Game.isGameOver g = false /\ Game.isPaused g = false /\
  Game.isWaitingToStart g = true /\ Game.isGracePeriod g = true /\
  Game.baseSpeed g = 1%Q /\ Game.currentSpeed g = 1%Q /\
  Game.userSpeedMultiplier g = 1%Q /\ Game.moveInterval g = BASE_MOVE_INTERVAL /\
  Game.inputHandler g = InputHandler.new /\
  Game.playerDirection g = mkVec 1 0 /\
  Snake.segments (Game.playerSnake g) =
    [mkVec 510 330; mkVec 490 330; mkVec 470 330;
     mkVec 450 330; mkVec 430 330; mkVec 410 330] /\
  Forall2 fresh_ai
    [mkVec 150 150; mkVec 850 150; mkVec 150 500; mkVec 850 500] (Game.aiSnakes g).

(** The speeds of a game are in range and consistent. *)
Definition speeds_ok (g : Game.t) : Prop :=
  (1 <= Game.baseSpeed g)%Q /\ (Game.baseSpeed g <= MAX_SPEED_MULTIPLIER)%Q /\
  (Game.minSpeed <= Game.userSpeedMultiplier g)%Q /\
  (Game.userSpeedMultiplier g <= Game.maxSpeed)%Q /\
  (Game.currentSpeed g == Game.baseSpeed g * Game.userSpeedMultiplier g)%Q /\
  (Game.moveInterval g == BASE_MOVE_INTERVAL / Game.currentSpeed g)%Q.

(** A cell centre: both coordinates are 10 plus a multiple of the cell
    size 20. *)
Definition on_lattice (p : Vec) : Prop :=
  (p.(x) - 10) mod 20 = 0 /\ (p.(y) - 10) mod 20 = 0.

(** A cell where [respawn] can put the food on the game's canvas. *)
Definition in_arena (p : Vec) : Prop :=
  10 <= p.(x) <= 970 /\ 10 <= p.(y) <= 610.

(** Every segment of every snake is a cell centre, and the food is a cell
    centre inside the walls. *)
Definition on_grid (g : Game.t) : Prop :=
  Forall on_lattice (Snake.segments (Game.playerSnake g)) /\
  Forall (fun a => Forall on_lattice (Snake.segments (AISnake.base a))) (Game.aiSnakes g) /\
  on_lattice (Game.food g) /\ in_arena (Game.food g).

(** What every reachable game satisfies besides [sound]. *)
Definition tuned (g : Game.t) : Prop := speeds_ok g /\ on_grid g.

(** ** Facts on grid vectors *)

(** Case analysis on every condition of a chain of [if]s. *)
Ltac case_ifs :=
  repeat match goal with
         | |- context [if ?b then _ else _] => destruct b
         end.

Lemma same_cell_eq (a b : Vec) : same_cell a b = true <-> a = b.
Proof.
  unfold same_cell. destruct a as [ax ay], b as [bx by_]. simpl.
  rewrite andb_true_iff, !Z.eqb_eq. split.
  - intros [-> ->]. reflexivity.
  - intros H. injection H. auto.
Qed.

Lemma differs_same_cell (a b : Vec) : differs a b = negb (same_cell a b).
Proof. unfold differs, same_cell. now rewrite negb_andb. Qed.

Lemma differs_neq (a b : Vec) : differs a b = true <-> a <> b.
Proof.
  rewrite differs_same_cell, negb_true_iff, <- not_true_iff_false.
  now rewrite same_cell_eq.
Qed.

Lemma is_unit_cases (d : Vec) :
  is_unit d = true <-> d = RIGHT \/ d = LEFT \/ d = DOWN \/ d = UP.
Proof.
  unfold is_unit. rewrite !orb_true_iff, !same_cell_eq. tauto.
Qed.

(** A unit direction is never its own reverse. *)
Lemma unit_not_self_reverse (d : Vec) :
  is_unit d = true -> is_reverse d d = false.
Proof.
  rewrite is_unit_cases. intros [-> | [-> | [-> | ->]]]; reflexivity.
Qed.

(** ** InputHandler: the queue invariant *)

Section QueueInvariant.

Import InputHandler.

Lemma queue_ok_new : queue_ok new.
Proof.
  unfold queue_ok, new. simpl. repeat split; auto using NoDup_nil.
Qed.

Lemma queue_ok_submit (d : Vec) (h : t) :
  is_unit d = true -> queue_ok h -> queue_ok (submit d h).
Proof.
  intros Hd (Hc & Hu & Hn & Hi). unfold submit.
  destruct (is_reverse d (currentDirection h)); [now repeat split|].
  simpl.
  set (q := filter (fun dir => differs dir d) (directionQueue h)).
  assert (Hqu : Forall (fun e => is_unit e = true) q).
  { apply Forall_forall. intros e He. apply filter_In in He.
    rewrite Forall_forall in Hu. now apply Hu. }
  assert (Hqn : NoDup q) by now apply NoDup_filter.
  assert (Hqi : ~ In (currentDirection h) q).
  { intros He. apply filter_In in He. tauto. }
  assert (Hqd : ~ In d q).
  { intros He. apply filter_In in He. destruct He as [_ He].
    apply differs_neq in He. congruence. }
  destruct (differs d (currentDirection h)) eqn:E;
    unfold queue_ok, set_directionQueue; simpl.
  - apply differs_neq in E. split; [exact Hc | split; [| split]].
    + apply Forall_app. split; auto.
    + apply NoDup_app; auto using NoDup_nil.
      * constructor; [simpl; tauto | constructor].
      * intros e He [<- | []]. contradiction.
    + rewrite in_app_iff. simpl. intros [? | [? | []]]; congruence.
  - repeat split; auto.
Qed.

Lemma queue_ok_getNextDirection (h : t) :
  queue_ok h -> queue_ok (snd (getNextDirection h)).
Proof.
  intros (Hc & Hu & Hn & Hi). unfold getNextDirection.
  destruct (directionQueue h) as [|nextDir rest] eqn:E; simpl.
  - unfold queue_ok. rewrite E. repeat split; auto.
  - inversion Hu; subst. inversion Hn; subst.
    destruct (is_reverse nextDir (currentDirection h)); simpl;
      repeat split; auto.
    intros Hin. apply Hi. now right.
Qed.

Lemma queue_ok_handleKeyDown (k : string) (h : t) :
  queue_ok h -> queue_ok (handleKeyDown k h).
Proof.
  intros H. unfold handleKeyDown.
  case_ifs;
    try (apply queue_ok_submit; [reflexivity | assumption]);
    assumption.
Qed.

Lemma queue_ok_step (h : t) (c : call) : queue_ok h -> queue_ok (step h c).
Proof.
  intros H. destruct c as [k | k | | |]; simpl.
  - now apply queue_ok_handleKeyDown.
  - unfold handleKeyUp.
    case_ifs; assumption.
  - now apply queue_ok_getNextDirection.
  - unfold checkStartPressed. destruct (startKeyPressed h); assumption.
  - unfold checkPauseToggle.
    destruct (pauseKeyDown h && negb (pauseKeyWasDown h)); assumption.
Qed.

Lemma queue_ok_run (cs : list call) :
  forall h, queue_ok h -> queue_ok (run cs h).
Proof.
  unfold run. induction cs as [|c cs IH]; simpl; intros h H; auto.
  apply IH. now apply queue_ok_step.
Qed.

End QueueInvariant.

(** ** InputHandler: the committed heading *)

Section CommittedHeading.

Import InputHandler.

(** One call of [getNextDirection] on a handler whose heading is a unit
    direction: the heading returned is the one committed, and it is not the
    reverse of the heading before the call. *)
Lemma getNextDirection_no_reverse (h : t) :
  is_unit (currentDirection h) = true ->
  fst (getNextDirection h) = currentDirection (snd (getNextDirection h)) /\
  is_reverse (fst (getNextDirection h)) (currentDirection h) = false.
Proof.
  intros Hu. unfold getNextDirection.
  destruct (directionQueue h) as [|nextDir rest]; simpl.
  - split; [reflexivity | now apply unit_not_self_reverse].
  - destruct (is_reverse nextDir (currentDirection h)) eqn:E; simpl.
    + split; [reflexivity | now apply unit_not_self_reverse].
    + split; [reflexivity | exact E].
Qed.

(** C1: after any sequence of key presses, key releases and calls of the
    handler's methods, the heading that [getNextDirection] returns (and
    commits) is never the exact reverse of the heading committed before the
    call. *)
Theorem C1_committed_heading_never_reversed (cs : list call) :
  let h := run cs new in
  fst (getNextDirection h) = currentDirection (snd (getNextDirection h)) /\
  is_reverse (fst (getNextDirection h)) (currentDirection h) = false.
Proof.
  intros h. apply getNextDirection_no_reverse.
  apply (queue_ok_run cs new queue_ok_new).
Qed.

(** C4, as stated, fails: after [w], [s] and one tick the committed heading
    is up and the queue holds down, its direct reverse. *)
Lemma C4_queue_holds_reverse :
  let h := run [KeyDown "w"; KeyDown "s"; GetNextDirection] new in
  currentDirection h = UP /\ directionQueue h = [DOWN] /\
  existsb (fun d => is_reverse d (currentDirection h)) (directionQueue h) = true.
Proof. repeat split. Qed.

(** [submit] appends nothing that is the reverse of the committed heading:
    an entry of the queue after the call that is such a reverse was queued
    before. *)
Lemma submit_adds_no_reverse (newDirection d : Vec) (h : t) :
  In d (directionQueue (submit newDirection h)) ->
  is_reverse d (currentDirection h) = true ->
  In d (directionQueue h).
Proof.
  unfold submit. destruct (is_reverse newDirection (currentDirection h)) eqn:R; auto.
  simpl. destruct (differs newDirection (currentDirection h)); simpl.
  - rewrite in_app_iff. simpl. intros [H | [<- | []]] Hr.
    + apply filter_In in H. tauto.
    + congruence.
  - intros H _. apply filter_In in H. tauto.
Qed.

Lemma handleKeyDown_adds_no_reverse (k : string) (d : Vec) (h : t) :
  In d (directionQueue (handleKeyDown k h)) ->
  is_reverse d (currentDirection h) = true ->
  In d (directionQueue h).
Proof.
  unfold handleKeyDown.
  case_ifs;
    try apply submit_adds_no_reverse; simpl; auto.
Qed.

(** C4, amended: in every reachable state the queued entries are pairwise
    distinct, so no two consecutive ones are equal, and none is the
    committed heading; a key press never appends the direct reverse of the
    committed heading (a queued reverse dates from before the last commit). *)
Theorem C4_queue_distinct_and_no_reverse_appended (cs : list call) :
  let h := run cs new in
  NoDup (directionQueue h) /\
  (forall l1 a b l2, directionQueue h = l1 ++ a :: b :: l2 -> a <> b) /\
  ~ In (currentDirection h) (directionQueue h) /\
  (forall k d, In d (directionQueue (handleKeyDown k h)) ->
               is_reverse d (currentDirection h) = true ->
               In d (directionQueue h)).
Proof.
  intros h.
  destruct (queue_ok_run cs new queue_ok_new) as (_ & _ & Hn & Hi).
  fold h in Hn, Hi. repeat split; auto.
  - intros l1 a b l2 E Hab. rewrite E in Hn. subst b.
    apply NoDup_remove_2 in Hn. apply Hn.
    rewrite in_app_iff. right. now left.
  - intros k d. apply handleKeyDown_adds_no_reverse.
Qed.

End CommittedHeading.

(** ** Snake: movement and growth *)

Lemma last_cons_default {A : Type} (a d : A) (l : list A) :
  last l a = last (a :: l) d.
Proof.
  revert a d. induction l as [|b l IH]; intros a d; [reflexivity|].
  change (last (b :: l) a = last (b :: l) d).
  now rewrite <- (IH b a), <- (IH b d).
Qed.

Lemma length_removelast_cons {A : Type} (a : A) (l : list A) :
  List.length (removelast (a :: l)) = List.length l.
Proof.
  revert a. induction l as [|b l IH]; intros a; [reflexivity|].
  change (S (List.length (removelast (b :: l))) = S (List.length l)).
  now rewrite IH.
Qed.

(** [update] on a snake with a head: the translated head in front, the
    last segment gone, as many segments as before. *)
Lemma Snake_update_cons (direction head : Vec) (rest : list Vec) (s : Snake.t) :
  Snake.segments s = head :: rest ->
  exists s',
    Snake.update direction s = Ok s' /\
    Snake.segments s' =
      mkVec (head.(x) + direction.(x) * GRID_SIZE) (head.(y) + direction.(y) * GRID_SIZE)
      :: removelast (head :: rest) /\
    List.length (Snake.segments s') = List.length (Snake.segments s) /\
    Snake.isPlayer s' = Snake.isPlayer s /\
    Snake.eyeBlinkTimer s' = Snake.eyeBlinkTimer s /\
    Snake.eyesOpen s' = Snake.eyesOpen s.
Proof.
  intros E. unfold Snake.update. rewrite E. eexists. split; [reflexivity|].
  unfold Snake.set_segments. simpl Snake.segments.
  split; [reflexivity|]. split; [|repeat split].
  change (S (List.length (removelast (head :: rest))) = S (List.length rest)).
  f_equal. apply length_removelast_cons.
Qed.

(** [grow] on a snake with a head: one more segment, a copy of the last. *)
Lemma Snake_grow_cons (head : Vec) (rest : list Vec) (s : Snake.t) :
  Snake.segments s = head :: rest ->
  exists s',
    Snake.grow s = Ok s' /\
    Snake.segments s' = (head :: rest) ++ [last (head :: rest) head] /\
    List.length (Snake.segments s') = S (List.length (Snake.segments s)).
Proof.
  intros E. unfold Snake.grow. rewrite E. eexists. split; [reflexivity|].
  unfold Snake.set_segments. simpl Snake.segments.
  rewrite (last_cons_default head head rest).
  destruct (last (head :: rest) head) as [lx ly]. simpl x. simpl y.
  split; [reflexivity|].
  simpl. rewrite length_app. simpl. lia.
Qed.

(** C5: [update] puts the head translated by the heading times the cell
    size in front and drops the last segment, so the segment count is
    unchanged; [grow] appends a copy of the tail, one segment more; a snake
    of six segments heading right (no key pressed) steps to a head one cell
    to the right, six segments, the old tail cell gone. *)
Theorem C5_update_translates_and_grow_duplicates :
  (forall direction head rest player timer eyes,
     let s := Snake.mk (head :: rest) player timer eyes in
     exists s',
       Snake.update direction s = Ok s' /\
       Snake.segments s' =
         mkVec (head.(x) + direction.(x) * GRID_SIZE)
               (head.(y) + direction.(y) * GRID_SIZE)
         :: removelast (head :: rest) /\
       List.length (Snake.segments s') = List.length (Snake.segments s)) /\
  (forall head rest player timer eyes,
     let s := Snake.mk (head :: rest) player timer eyes in
     exists s',
       Snake.grow s = Ok s' /\
       Snake.segments s' = Snake.segments s ++ [last (Snake.segments s) head] /\
       List.length (Snake.segments s') = S (List.length (Snake.segments s))) /\
  (forall px py,
     let s := Snake.new px py true 6 in
     let heading := fst (InputHandler.getNextDirection InputHandler.new) in
     heading = mkVec 1 0 /\
     Snake.segments s =
       [mkVec px py; mkVec (px - 20) py; mkVec (px - 40) py;
        mkVec (px - 60) py; mkVec (px - 80) py; mkVec (px - 100) py] /\
     exists s',
       Snake.update heading s = Ok s' /\
       Snake.segments s' =
         [mkVec (px + 20) py; mkVec px py; mkVec (px - 20) py;
          mkVec (px - 40) py; mkVec (px - 60) py; mkVec (px - 80) py]).
Proof.
  split; [|split].
  - intros direction head rest player timer eyes s.
    destruct (Snake_update_cons direction head rest s eq_refl) as (s' & H1 & H2 & H3 & _).
    exists s'. auto.
  - intros head rest player timer eyes s.
    destruct (Snake_grow_cons head rest s eq_refl) as (s' & H1 & H2 & H3).
    exists s'. auto.
  - intros px py s heading.
    assert (Hs : Snake.segments s =
       [mkVec px py; mkVec (px - 20) py; mkVec (px - 40) py;
        mkVec (px - 60) py; mkVec (px - 80) py; mkVec (px - 100) py]).
    { unfold s, Snake.new, GRID_SIZE. simpl.
      repeat (f_equal; try lia). }
    split; [reflexivity|]. split; [exact Hs|].
    destruct (Snake_update_cons heading _ _ s Hs) as (s' & H1 & H2 & _).
    exists s'. split; [exact H1|]. rewrite H2.
    unfold heading, GRID_SIZE. simpl. repeat (f_equal; try lia).
Qed.

(** ** Difficulty scaling *)

Lemma speedMultiplier_spec_mono (s1 s2 : Z) :
  s1 <= s2 -> (speedMultiplier_spec s1 <= speedMultiplier_spec s2)%Q.
Proof.
  intros H. unfold speedMultiplier_spec.
  apply Q.min_le_compat_r.
  apply Qplus_le_r.
  apply Qmult_le_compat_r; [|discriminate].
  rewrite <- Zle_Qle. apply Z.div_le_mono; lia.
Qed.

(** C6: the base speed that a tick computes is
    [min(1 + floor(score / 50) * 0.1, 2.0)]; it does not decrease when the
    score grows, it never exceeds 2.0, and the movement interval is
    [BASE_MOVE_INTERVAL / (baseSpeed * userSpeedMultiplier)]. *)
Theorem C6_speed_multiplier (g : Game.t) :
  let g' := Game.scale_difficulty g in
  Game.baseSpeed g' = speedMultiplier_spec (Game.score g) /\
  (Game.baseSpeed g' <= MAX_SPEED_MULTIPLIER)%Q /\
  (MAX_SPEED_MULTIPLIER == 2)%Q /\
  (forall g2, Game.score g <= Game.score g2 ->
     (Game.baseSpeed g' <= Game.baseSpeed (Game.scale_difficulty g2))%Q) /\
  Game.moveInterval g' =
    (BASE_MOVE_INTERVAL / (Game.baseSpeed g' * Game.userSpeedMultiplier g'))%Q /\
  Game.userSpeedMultiplier g' = Game.userSpeedMultiplier g /\
  Game.moveInterval (Game.updateSpeed g) =
    (BASE_MOVE_INTERVAL / (Game.baseSpeed g * Game.userSpeedMultiplier g))%Q.
Proof.
  intros g'. repeat split.
  - apply Q.le_min_r.
  - intros g2 H. apply (speedMultiplier_spec_mono _ _ H).
Qed.

(** The theorem on the scores 40 and 120. *)
Lemma C6_speed_multiplier_witness :
  let g := Game.mk 40 false false false 0 false 1 1 1 125 0 0
             InputHandler.new RIGHT (Snake.new 510 330 true 6) [] (mkVec 10 10) in
  let g2 := Game.set_score 120 g in
  (Game.baseSpeed (Game.scale_difficulty g) <=
   Game.baseSpeed (Game.scale_difficulty g2))%Q.
Proof.
  intros g g2.
  destruct (C6_speed_multiplier g) as (_ & _ & _ & H & _).
  apply H. simpl. lia.
Defined.

(** ** AISnake: applying the pending direction *)

Lemma differs_neg (a b : Vec) : differs a (neg b) = negb (is_reverse a b).
Proof. unfold differs, is_reverse, neg. simpl. now rewrite negb_andb. Qed.

Lemma is_reverse_neg (d : Vec) : is_reverse (neg d) d = true.
Proof. unfold is_reverse, neg. simpl. now rewrite !Z.eqb_refl. Qed.

Lemma is_unit_neg (d : Vec) : is_unit d = true -> is_unit (neg d) = true.
Proof.
  rewrite is_unit_cases. intros [-> | [-> | [-> | ->]]]; reflexivity.
Qed.

Lemma Vec_eta (v : Vec) : mkVec v.(x) v.(y) = v.
Proof. now destruct v. Qed.

(** What [AISnake.update] does to a snake with a head. *)
Lemma AISnake_update_cons (s : AISnake.t) (head : Vec) (rest : list Vec) :
  Snake.segments (AISnake.base s) = head :: rest ->
  exists s',
    AISnake.update s = Ok s' /\
    AISnake.direction s' =
      (if is_reverse (AISnake.nextDirection s) (AISnake.direction s)
       then AISnake.direction s else AISnake.nextDirection s) /\
    AISnake.nextDirection s' = AISnake.nextDirection s /\
    AISnake.aiTimer s' = AISnake.aiTimer s /\
    AISnake.aiChangeInterval s' = AISnake.aiChangeInterval s /\
    Snake.segments (AISnake.base s') =
      mkVec (head.(x) + (AISnake.direction s').(x) * GRID_SIZE)
            (head.(y) + (AISnake.direction s').(y) * GRID_SIZE)
      :: removelast (head :: rest).
Proof.
  intros E. unfold AISnake.update. rewrite differs_neg, Vec_eta.
  destruct (is_reverse (AISnake.nextDirection s) (AISnake.direction s));
    simpl negb; cbv iota.
  - destruct (Snake_update_cons (AISnake.direction s) head rest (AISnake.base s) E)
      as (b & -> & Hb & _).
    eexists. split; [reflexivity|]. simpl. auto.
  - set (s1 := AISnake.set_direction (AISnake.nextDirection s) s).
    destruct (Snake_update_cons (AISnake.direction s1) head rest (AISnake.base s1) E)
      as (b & -> & Hb & _).
    eexists. split; [reflexivity|]. simpl. auto.
Qed.

(** C9: on an AI snake whose heading and pending heading are unit
    directions, [AISnake.update] commits the pending heading exactly when it
    is not the exact reverse of the heading; the heading after the call is
    never the reverse of the heading before it, and it is the same heading
    or one at a right angle. *)
Theorem C9_ai_heading_never_reversed (s : AISnake.t) :
  is_unit (AISnake.direction s) = true ->
  is_unit (AISnake.nextDirection s) = true ->
  Snake.segments (AISnake.base s) <> [] ->
  exists s',
    AISnake.update s = Ok s' /\
    is_reverse (AISnake.direction s') (AISnake.direction s) = false /\
    (AISnake.direction s' = AISnake.nextDirection s <->
     is_reverse (AISnake.nextDirection s) (AISnake.direction s) = false) /\
    (AISnake.direction s' = AISnake.direction s \/
     perpendicular (AISnake.direction s') (AISnake.direction s) = true).
Proof.
  intros Hd Hn Hs.
  destruct (Snake.segments (AISnake.base s)) as [|head rest] eqn:E; [congruence|].
  destruct (AISnake_update_cons s head rest E) as (s' & Hu & Hdir & _).
  exists s'. split; [exact Hu|]. rewrite Hdir.
  apply is_unit_cases in Hd. apply is_unit_cases in Hn.
  destruct Hd as [-> | [-> | [-> | ->]]], Hn as [-> | [-> | [-> | ->]]];
    simpl; repeat split; auto; try discriminate.
Qed.

(** The theorem on a snake heading right whose pending heading is left. *)
Lemma C9_ai_heading_never_reversed_witness :
  exists s',
    AISnake.update (AISnake.mk (Snake.new 150 150 false 6) RIGHT LEFT 0 5) = Ok s' /\
    AISnake.direction s' = RIGHT.
Proof.
  destruct (C9_ai_heading_never_reversed
              (AISnake.mk (Snake.new 150 150 false 6) RIGHT LEFT 0 5))
    as (s' & Hu & _ & _ & [Hd | Hp]).
  - reflexivity.
  - reflexivity.
  - simpl. discriminate.
  - exists s'. split; [exact Hu | exact Hd].
  - exists s'. split; [exact Hu|].
    simpl in Hu. injection Hu as <-. reflexivity.
Defined.

(** The bounce of [Game.update] stores the exact reverse of the heading as
    the pending heading; [AISnake.update] then discards it: the heading is
    unchanged and the head moves one more cell along it. *)
Lemma bounce_is_discarded (s : AISnake.t) (head : Vec) (rest : list Vec) :
  Snake.segments (AISnake.base s) = head :: rest ->
  exists s',
    AISnake.update (AISnake.set_nextDirection (neg (AISnake.direction s)) s) = Ok s' /\
    AISnake.direction s' = AISnake.direction s /\
    Snake.segments (AISnake.base s') =
      mkVec (head.(x) + (AISnake.direction s).(x) * GRID_SIZE)
            (head.(y) + (AISnake.direction s).(y) * GRID_SIZE)
      :: removelast (head :: rest).
Proof.
  intros E.
  destruct (AISnake_update_cons
              (AISnake.set_nextDirection (neg (AISnake.direction s)) s) head rest E)
    as (s' & Hu & Hd & _ & _ & _ & Hs).
  simpl in Hd. rewrite is_reverse_neg in Hd.
  exists s'. rewrite Hd in Hs. auto.
Qed.

(** ** Food placement *)

Lemma drawn_0 (e : Env) : drawn 0 e = e.
Proof. unfold drawn. rewrite Nat.add_0_r. now destruct e. Qed.

Lemma drawn_drawn (n m : nat) (e : Env) : drawn n (drawn m e) = drawn (m + n) e.
Proof. unfold drawn. simpl. now rewrite Nat.add_assoc. Qed.

Lemma sample_at_drawn (cw ch : Z) (e : Env) (i : nat) :
  sample_at cw ch (drawn 2 e) i = sample_at cw ch e (S i).
Proof.
  unfold sample_at, drawn. cbn [random_values random_count].
  replace (random_count e + 2 + 2 * i)%nat with (random_count e + 2 * S i)%nat by lia.
  reflexivity.
Qed.

Lemma Food_sample_eq (cw ch : Z) (e : Env) :
  Food.sample cw ch e = Ok (sample_at cw ch e 0, drawn 2 e).
Proof.
  unfold Food.sample, sample_at, bind, Math_random, ret, drawn.
  cbn [random_values random_count clock_values clock_count page Nat.mul].
  rewrite !Nat.add_0_r.
  replace (random_count e + 2)%nat with (S (S (random_count e))) by lia.
  replace (random_count e + 1)%nat with (S (random_count e)) by lia.
  reflexivity.
Qed.

Lemma occupied_false_iff (p : Vec) (snakes : list Snake.t) :
  Food.occupied p snakes = false <->
  forall snake segment,
    In snake snakes -> In segment (Snake.segments snake) -> segment <> p.
Proof.
  unfold Food.occupied. rewrite <- not_true_iff_false, existsb_exists. split.
  - intros H snake segment Hs Hg ->. apply H. exists snake. split; [exact Hs|].
    apply existsb_exists. exists p. split; [exact Hg | now apply same_cell_eq].
  - intros H (snake & Hs & Hg). apply existsb_exists in Hg.
    destruct Hg as (segment & Hg & Heq). apply same_cell_eq in Heq.
    apply (H snake segment Hs Hg). congruence.
Qed.

(** The loop entered with [validPosition] already true does nothing. *)
Lemma respawn_loop_valid (left : nat) (cw ch : Z) (snakes : list Snake.t)
  (food : Food.t) (e : Env) :
  Food.respawn_loop left cw ch snakes food true e = Ok ((food, true), e).
Proof. destruct left; reflexivity. Qed.

(** One more attempt: the next sample is taken and tested. *)
Lemma respawn_loop_step (left : nat) (cw ch : Z) (snakes : list Snake.t)
  (food : Food.t) (e : Env) :
  Food.respawn_loop (S left) cw ch snakes food false e =
  Food.respawn_loop left cw ch snakes (sample_at cw ch e 0)
    (negb (Food.occupied (sample_at cw ch e 0) snakes)) (drawn 2 e).
Proof.
  simpl Food.respawn_loop. unfold bind. now rewrite Food_sample_eq.
Qed.

(** The loop with [left] attempts to go always returns: either with the
    first free sample, or, every sample being occupied, with the last one
    (the food it started from when [left] is 0). *)
Lemma respawn_loop_spec (left : nat) (cw ch : Z) (snakes : list Snake.t) :
  forall (food : Food.t) (e : Env),
    (exists i,
        (i < left)%nat /\
        Food.respawn_loop left cw ch snakes food false e =
          Ok ((sample_at cw ch e i, true), drawn (2 * S i) e) /\
        Food.occupied (sample_at cw ch e i) snakes = false /\
        forall j, (j < i)%nat -> Food.occupied (sample_at cw ch e j) snakes = true)
    \/
    (Food.respawn_loop left cw ch snakes food false e =
       Ok ((match left with O => food | S k => sample_at cw ch e k end, false),
           drawn (2 * left) e) /\
     forall j, (j < left)%nat -> Food.occupied (sample_at cw ch e j) snakes = true).
Proof.
  induction left as [|left IH]; intros food e.
  - right. split; [simpl; now rewrite drawn_0 | intros j Hj; lia].
  - rewrite !respawn_loop_step.
    destruct (Food.occupied (sample_at cw ch e 0) snakes) eqn:Occ; simpl negb.
    + destruct (IH (sample_at cw ch e 0) (drawn 2 e))
        as [(i & Hi & Hrun & Hfree & Hbefore) | (Hrun & Hall)].
      * left. exists (S i). split; [lia|].
        rewrite sample_at_drawn, drawn_drawn in Hrun.
        rewrite sample_at_drawn in Hfree.
        replace (2 + 2 * S i)%nat with (2 * S (S i))%nat in Hrun by lia.
        split; [exact Hrun|]. split; [exact Hfree|].
        intros [|j] Hj; [exact Occ|].
        rewrite <- sample_at_drawn. apply Hbefore. lia.
      * right. rewrite drawn_drawn in Hrun.
        replace (2 + 2 * left)%nat with (2 * S left)%nat in Hrun by lia.
        split.
        -- rewrite Hrun. destruct left as [|k]; [reflexivity|].
           now rewrite sample_at_drawn.
        -- intros [|j] Hj; [exact Occ|].
           rewrite <- sample_at_drawn. apply Hall. lia.
    + left. exists 0%nat. split; [lia|].
      rewrite respawn_loop_valid. split; [reflexivity|].
      split; [exact Occ | intros j Hj; lia].
Qed.

(** C3, as stated, fails: when each of the 100 sampled cells is occupied
    (here every draw is 0 and a snake lies on the first cell), [respawn]
    leaves the food on a segment. *)
Lemma C3_food_left_on_a_segment :
  Food.respawn CANVAS_WIDTH CANVAS_HEIGHT [corner_snake] (Food.new 0 0) zero_draws
    = Ok (mkVec 10 10, drawn 200 zero_draws) /\
  In (mkVec 10 10) (Snake.segments corner_snake).
Proof.
  split.
  - vm_compute. reflexivity.
  - simpl. auto.
Qed.

(** C3, amended: [respawn] always returns; the food is then on the first
    of the up to 100 sampled cells that coincides with no segment of any
    snake passed in, and only when all 100 sampled cells are occupied is it
    left on the last of them. *)
Theorem C3_food_on_first_free_sample
  (canvasWidth canvasHeight : Z) (snakes : list Snake.t) (food : Food.t) (e : Env) :
  exists food' e',
    Food.respawn canvasWidth canvasHeight snakes food e = Ok (food', e') /\
    ((exists i,
        (i < 100)%nat /\
        food' = sample_at canvasWidth canvasHeight e i /\
        (forall snake segment,
            In snake snakes -> In segment (Snake.segments snake) -> segment <> food') /\
        (forall j, (j < i)%nat ->
            Food.occupied (sample_at canvasWidth canvasHeight e j) snakes = true))
     \/
     (food' = sample_at canvasWidth canvasHeight e 99 /\
      forall j, (j < 100)%nat ->
        Food.occupied (sample_at canvasWidth canvasHeight e j) snakes = true)).
Proof.
  unfold Food.respawn, bind.
  destruct (respawn_loop_spec 100 canvasWidth canvasHeight snakes food e)
    as [(i & Hi & -> & Hfree & Hbefore) | (-> & Hall)].
  - eexists. eexists. split; [reflexivity|]. left. exists i.
    split; [exact Hi|]. split; [reflexivity|]. split; [|exact Hbefore].
    now apply occupied_false_iff.
  - eexists. eexists. split; [reflexivity|]. right. split; [reflexivity | exact Hall].
Qed.

(** ** Environments and well-formed games *)

Lemma only_draws_refl (e : Env) : only_draws e e.
Proof. exists 0%nat. now rewrite drawn_0. Qed.

Lemma only_draws_trans (e1 e2 e3 : Env) :
  only_draws e1 e2 -> only_draws e2 e3 -> only_draws e1 e3.
Proof. intros [n ->] [m ->]. exists (n + m)%nat. apply drawn_drawn. Qed.

Lemma only_draws_random (e : Env) : only_draws e (drawn 1 e).
Proof. now exists 1%nat. Qed.

Lemma only_draws_sources (e e' : Env) : only_draws e e' -> same_sources e e'.
Proof. intros [n ->]. split; reflexivity. Qed.

Lemma same_sources_refl (e : Env) : same_sources e e.
Proof. split; reflexivity. Qed.

Lemma same_sources_trans (e1 e2 e3 : Env) :
  same_sources e1 e2 -> same_sources e2 e3 -> same_sources e1 e3.
Proof. intros [H1 H2] [H3 H4]. split; congruence. Qed.

Lemma random_in_range_sources (e e' : Env) :
  same_sources e e' -> random_in_range e -> random_in_range e'.
Proof. intros [H _] R n. rewrite H. apply R. Qed.

Lemma Math_random_eq (e : Env) :
  Math_random e = Ok (random_values e (random_count e), drawn 1 e).
Proof.
  unfold Math_random, drawn.
  replace (random_count e + 1)%nat with (S (random_count e)) by lia. reflexivity.
Qed.

(** [Math.floor(Math.random() * n)] is an index below [n]. *)
Lemma floor_draw_range (r : Q) (n : Z) :
  (0 <= r)%Q -> (r < 1)%Q -> 0 < n ->
  0 <= Qfloor (r * inject_Z n)%Q < n.
Proof.
  intros H0 H1 Hn. split.
  - change 0 with (Qfloor (inject_Z 0)). apply Qfloor_resp_le.
    apply Qmult_le_0_compat; [exact H0|].
    change 0%Q with (inject_Z 0). rewrite <- Zle_Qle. lia.
  - assert (Hlt : (r * inject_Z n < inject_Z n)%Q).
    { rewrite <- (Qmult_1_l (inject_Z n)) at 2.
      apply Qmult_lt_compat_r; [|exact H1].
      change 0%Q with (inject_Z 0). rewrite <- Zlt_Qlt. exact Hn. }
    rewrite Zlt_Qlt. eapply Qle_lt_trans; [apply Qfloor_le | exact Hlt].
Qed.

Lemma array_get_in_range {A : Type} (l : list A) (i : Z) :
  0 <= i < Z.of_nat (List.length l) ->
  exists a, array_get l i = Some a /\ In a l.
Proof.
  intros [H0 H1]. unfold array_get.
  destruct (i <? 0) eqn:E; [apply Z.ltb_lt in E; lia|].
  destruct (nth_error l (Z.to_nat i)) as [a|] eqn:N.
  - exists a. split; [reflexivity|]. eapply nth_error_In; eauto.
  - apply nth_error_None in N. lia.
Qed.

(** [forEach] over elements on which [f] returns: it returns, element by
    element, whatever [f] establishes. *)
Lemma forEach_ok {A : Type} (f : A -> M A) (P : A -> Prop) (R : A -> A -> Prop)
  (I : Env -> Prop) (T : Env -> Env -> Prop) :
  (forall e, T e e) ->
  (forall e1 e2 e3, T e1 e2 -> T e2 e3 -> T e1 e3) ->
  (forall a e, P a -> I e ->
     exists a' e', f a e = Ok (a', e') /\ R a a' /\ I e' /\ T e e') ->
  forall l e, Forall P l -> I e ->
    exists l' e', forEach f l e = Ok (l', e') /\ Forall2 R l l' /\ I e' /\ T e e'.
Proof.
  intros Trefl Ttrans Hf. induction l as [|a l IH]; intros e HP HI.
  - exists [], e. repeat split; auto.
  - inversion HP as [|? ? Pa Pl]; subst.
    destruct (Hf a e Pa HI) as (a' & e1 & Ha & Ra & I1 & T1).
    destruct (IH e1 Pl I1) as (l' & e2 & Hl & Rl & I2 & T2).
    exists (a' :: l'), e2. simpl. unfold bind. rewrite Ha, Hl.
    repeat split; eauto.
Qed.

(** ** The AI policy and one tick of the game *)

Lemma valid_directions_unit (d : Vec) :
  is_unit d = true ->
  let validDirections := filter (fun dir => negb (is_reverse dir d)) directions in
  List.length validDirections = 3%nat /\
  forall c, In c validDirections -> is_unit c = true /\ is_reverse c d = false.
Proof.
  intros Hd validDirections. split.
  - apply is_unit_cases in Hd. destruct Hd as [-> | [-> | [-> | ->]]]; reflexivity.
  - intros c Hc. apply filter_In in Hc. destruct Hc as [Hin Hr].
    split; [|now apply negb_true_iff].
    apply is_unit_cases. unfold directions in Hin. simpl in Hin.
    unfold RIGHT, LEFT, DOWN, UP. intuition.
Qed.

Lemma updateAI_ok (cw ch : Z) (s : AISnake.t) (e : Env) :
  random_in_range e -> ai_well_formed s ->
  exists s' e',
    AISnake.updateAI cw ch s e = Ok (s', e') /\
    only_draws e e' /\
    AISnake.base s' = AISnake.base s /\
    AISnake.direction s' = AISnake.direction s /\
    is_unit (AISnake.nextDirection s') = true /\
    (AISnake.nextDirection s' = AISnake.nextDirection s \/
     is_reverse (AISnake.nextDirection s') (AISnake.direction s) = false).
Proof.
  intros Hr (Hseg & Hd & Hn). unfold AISnake.updateAI.
  cbn [AISnake.aiTimer AISnake.aiChangeInterval AISnake.set_aiTimer
       AISnake.set_aiChangeInterval AISnake.base AISnake.direction].
  destruct (AISnake.aiTimer s + 1 >=? AISnake.aiChangeInterval s).
  2:{ eexists; eexists. split; [reflexivity|]. 
      split; [apply only_draws_refl|]. cbn. auto. }
  unfold bind at 1. rewrite Math_random_eq.
  destruct (Snake.segments (AISnake.base s)) as [|head rest] eqn:E; [congruence|].
  set (s1 := AISnake.set_aiChangeInterval _ _).
  match goal with |- context [bind (if ?b then _ else _)] => set (nearWall := b) end.
  assert (Hchange : exists c e1,
             (if nearWall then ret true
              else r <- Math_random;; ret (Qlt_bool r (1 # 4))) (drawn 1 e) = Ok (c, e1) /\
             only_draws e e1).
  { destruct nearWall.
    - eexists; eexists. split; [reflexivity | apply only_draws_random].
    - unfold bind. rewrite Math_random_eq. eexists; eexists.
      split; [reflexivity|]. rewrite drawn_drawn. now exists 2%nat. }
  destruct Hchange as (c & e1 & Hc & He1).
  unfold bind at 1. rewrite Hc. destruct c.
  - unfold bind. rewrite Math_random_eq.
    destruct (valid_directions_unit _ Hd) as [Hlen Hvalid].
    assert (Hr1 : random_in_range e1).
    { eapply random_in_range_sources; [apply only_draws_sources|]; eauto. }
    destruct (array_get_in_range
                (filter (fun dir => negb (is_reverse dir (AISnake.direction s))) directions)
                (Qfloor (random_values e1 (random_count e1) *
                         inject_Z (Z.of_nat (List.length
                           (filter (fun dir => negb (is_reverse dir (AISnake.direction s)))
                                   directions))))))
      as (d & Hget & Hin).
    { apply floor_draw_range; try apply Hr1. rewrite Hlen. reflexivity. }
    rewrite Hget. destruct (Hvalid d Hin) as [Hu Hnr].
    eexists; eexists. split; [reflexivity|].
    split; [eapply only_draws_trans; [exact He1 | apply only_draws_random]|].
    cbn. auto.
  - eexists; eexists. split; [reflexivity|]. split; [exact He1|]. cbn. auto.
Qed.

Lemma AISnake_updateEyes_frame (dt : Q) (s : AISnake.t) :
  Snake.segments (AISnake.base (AISnake.updateEyes dt s)) = Snake.segments (AISnake.base s) /\
  AISnake.direction (AISnake.updateEyes dt s) = AISnake.direction s /\
  AISnake.nextDirection (AISnake.updateEyes dt s) = AISnake.nextDirection s.
Proof.
  unfold AISnake.updateEyes. cbn.
  case_ifs; cbn; auto.
Qed.

Lemma Snake_updateEyes_segments (dt : Q) (s : Snake.t) :
  Snake.segments (Snake.updateEyes dt s) = Snake.segments s.
Proof.
  unfold Snake.updateEyes. cbn.
  case_ifs; cbn; auto.
Qed.

Lemma update_ai_ok (dt : Q) (a : AISnake.t) (e : Env) :
  ai_well_formed a -> random_in_range e ->
  exists a' e',
    Game.update_ai dt a e = Ok (a', e') /\
    ai_moved a a' /\ random_in_range e' /\ only_draws e e'.
Proof.
  intros Hwf Hr.
  destruct (updateAI_ok Game.canvas_width Game.canvas_height a e Hr Hwf)
    as (s1 & e1 & Hrun & Hdraws & Hbase & Hdir & Hnext & _).
  destruct Hwf as (Hseg & Hd & Hn).
  destruct (Snake.segments (AISnake.base a)) as [|head rest] eqn:E; [congruence|].
  assert (E1 : Snake.segments (AISnake.base s1) = head :: rest) by now rewrite Hbase.
  destruct (AISnake_update_cons s1 head rest E1)
    as (s2 & Hupd & Hdir2 & Hnext2 & _ & _ & Hseg2).
  destruct (AISnake_updateEyes_frame dt s2) as (Fs & Fd & Fn).
  exists (AISnake.updateEyes dt s2), e1.
  split.
  { unfold Game.update_ai, bind. rewrite Hrun. unfold lift. rewrite Hupd. reflexivity. }
  split; [|split; [|exact Hdraws]].
  - assert (Hu2 : is_unit (AISnake.direction s2) = true).
    { rewrite Hdir2. destruct (is_reverse _ _); congruence. }
    assert (Hrev : is_reverse (AISnake.direction s2) (AISnake.direction a) = false).
    { rewrite Hdir2, Hdir.
      destruct (is_reverse (AISnake.nextDirection s1) (AISnake.direction a)) eqn:R;
        [now apply unit_not_self_reverse | exact R]. }
    unfold ai_moved, ai_well_formed. rewrite Fs, Fd, Fn, Hseg2, Hnext2.
    repeat split; auto; try discriminate.
    exists head, rest. auto.
  - eapply random_in_range_sources; [apply only_draws_sources; exact Hdraws | exact Hr].
Qed.

Lemma Date_now_eq (e : Env) :
  Date_now e = Ok (clock_values e (clock_count e), clock_read e).
Proof. reflexivity. Qed.

Lemma ai_moved_well_formed (l l' : list AISnake.t) :
  Forall2 ai_moved l l' -> Forall ai_well_formed l'.
Proof.
  induction 1 as [|a a' l l' Ha _ IH]; constructor; auto. apply Ha.
Qed.

Lemma move_ok (dt : Q) (g : Game.t) (e : Env) :
  well_formed g -> random_in_range e ->
  exists gm em,
    Game.move dt g e = Ok (gm, em) /\
    Game.isGracePeriod gm =
      (clock_values e (clock_count e) - Game.gameStartTime g <? GRACE_PERIOD) /\
    Forall2 ai_moved (Game.aiSnakes g) (Game.aiSnakes gm) /\
    player_moved g gm /\
    Game.playerDirection gm = fst (InputHandler.getNextDirection (Game.inputHandler g)) /\
    Game.score gm = Game.score g /\
    Game.food gm = Game.food g /\
    Game.isGameOver gm = Game.isGameOver g /\
    Game.gameStartTime gm = Game.gameStartTime g /\
    well_formed gm /\
    random_in_range em /\
    only_draws (clock_read e) em.
Proof.
  intros (Hp & Hai) Hr. unfold Game.move.
  unfold bind at 1. rewrite Date_now_eq.
  destruct (InputHandler.getNextDirection
              (Game.inputHandler
                 (Game.scale_difficulty
                    (Game.set_isGracePeriod
                       (clock_values e (clock_count e) - Game.gameStartTime g <? GRACE_PERIOD)
                       g)))) as [d h] eqn:Eg.
  assert (Hr1 : random_in_range (clock_read e)) by exact Hr.
  destruct (forEach_ok (Game.update_ai dt) ai_well_formed ai_moved random_in_range only_draws
              only_draws_refl only_draws_trans
              (fun a e Ha He => update_ai_ok dt a e Ha He)
              (Game.aiSnakes g) (clock_read e) Hai Hr1)
    as (ais & e1 & Hrun & Hmoved & Hr2 & Hdraws).
  destruct (Snake.segments (Game.playerSnake g)) as [|head rest] eqn:E; [congruence|].
  destruct (Snake_update_cons d head rest (Game.playerSnake g) E)
    as (p & Hupd & Hsegs & _).
  eexists; eexists. split.
  { cbn [Game.aiSnakes Game.set_playerDirection Game.set_inputHandler
         Game.scale_difficulty Game.updateSpeed Game.set_moveInterval
         Game.set_currentSpeed Game.set_baseSpeed Game.set_isGracePeriod
         Game.playerDirection Game.playerSnake Game.set_aiSnakes].
    unfold bind. rewrite Hrun. unfold lift. rewrite Hupd. reflexivity. }
  unfold player_moved, well_formed.
  cbn [Game.isGracePeriod Game.set_playerSnake Game.set_aiSnakes Game.aiSnakes
       Game.playerSnake Game.playerDirection Game.score Game.food Game.isGameOver
       Game.gameStartTime Game.set_playerDirection Game.set_inputHandler
       Game.scale_difficulty Game.updateSpeed Game.set_moveInterval
       Game.set_currentSpeed Game.set_baseSpeed Game.set_isGracePeriod].
  split; [reflexivity|]. split; [exact Hmoved|].
  split.
  { exists head, rest. split; [exact E|].
    rewrite Snake_updateEyes_segments. exact Hsegs. }
  split.
  { cbn in Eg. now rewrite Eg. }
  do 4 (split; [reflexivity|]).
  split; [split|split; [exact Hr2 | exact Hdraws]].
  - rewrite Snake_updateEyes_segments, Hsegs. discriminate.
  - eapply ai_moved_well_formed; eauto.
Qed.

Lemma updateUI_eq (g : Game.t) (e : Env) :
  Game.updateUI g e = Ok (tt, wrote [ui_of g] e).
Proof. reflexivity. Qed.

(** [gameOver()] sets the flag and writes the final score, the game-over
    panel and the dashboard: nothing else, whatever led to the call. *)
Lemma gameOver_eq (g : Game.t) (e : Env) :
  Game.gameOver g e =
  Ok (Game.set_isGameOver true g,
      wrote [ui_of (Game.set_isGameOver true g); ShowGameOver; FinalScore (Game.score g)] e).
Proof. reflexivity. Qed.

Lemma respawn_draws (cw ch : Z) (snakes : list Snake.t) (food : Food.t) (e : Env) :
  exists f n, Food.respawn cw ch snakes food e = Ok (f, drawn n e).
Proof.
  unfold Food.respawn, bind.
  destruct (respawn_loop_spec 100 cw ch snakes food e)
    as [(i & _ & -> & _) | (-> & _)]; eexists; eexists; reflexivity.
Qed.

(** [eat] on a game whose player has a head: nothing when the head is not
    on the food; else the snake grows, the score gains 10, the dashboard
    and the sound are written and the food is respawned among all snakes. *)
Lemma eat_ok (g : Game.t) (e : Env) (head : Vec) (rest : list Vec) :
  Snake.segments (Game.playerSnake g) = head :: rest ->
  (same_cell head (Game.food g) = false /\ Game.eat g e = Ok (g, e)) \/
  (same_cell head (Game.food g) = true /\
   exists p f n,
     Snake.grow (Game.playerSnake g) = Ok p /\
     Food.respawn Game.canvas_width Game.canvas_height (Game.snakes (fed p g))
       (Game.food g) (wrote [PlayEatSound; ui_of (fed p g)] e)
       = Ok (f, drawn n (wrote [PlayEatSound; ui_of (fed p g)] e)) /\
     Game.eat g e =
       Ok (Game.set_food f (fed p g), drawn n (wrote [PlayEatSound; ui_of (fed p g)] e))).
Proof.
  intros E. unfold Game.eat, bind, lift, Snake.checkFoodCollision. rewrite E.
  destruct (same_cell head (Game.food g)) eqn:Hit.
  - right. split; [reflexivity|].
    destruct (Snake_grow_cons head rest (Game.playerSnake g) E) as (p & Hgrow & _).
    rewrite Hgrow.
    destruct (respawn_draws Game.canvas_width Game.canvas_height (Game.snakes (fed p g))
                (Game.food g) (wrote [PlayEatSound; ui_of (fed p g)] e)) as (f & n & Hre).
    exists p, f, n. split; [reflexivity|]. split; [exact Hre|].
    change (match Food.respawn Game.canvas_width Game.canvas_height
                    (Game.snakes (fed p g)) (Game.food g)
                    (wrote [PlayEatSound; ui_of (fed p g)] e) with
            | Ok (a, e') => Ok (Game.set_food a (fed p g), e')
            | Fail why => Fail why
            end = Ok (Game.set_food f (fed p g),
                      drawn n (wrote [PlayEatSound; ui_of (fed p g)] e))).
    now rewrite Hre.
  - left. split; reflexivity.
Qed.

(** The bounce of one AI snake with a segment returns and touches
    nothing of the environment. *)
Lemma bounce_ok (a : AISnake.t) (e : Env) :
  ai_well_formed a ->
  exists a', Game.bounce a e = Ok (a', e) /\ bounced a a'.
Proof.
  intros (Hseg & _ & _). unfold Game.bounce, bind, lift, bounced, Snake.checkWallCollision.
  destruct (Snake.segments (AISnake.base a)) as [|head rest]; [congruence|].
  match goal with |- context [Ok ?b] => set (wall := b) end.
  exists (if wall then AISnake.set_nextDirection (neg (AISnake.direction a)) a else a).
  split; [now destruct wall|]. exists wall. auto.
Qed.

Lemma forEach_bounce (l : list AISnake.t) (e : Env) :
  Forall ai_well_formed l ->
  exists l', forEach Game.bounce l e = Ok (l', e) /\ Forall2 bounced l l'.
Proof.
  induction 1 as [|a l Ha _ (l' & Hl & Hb)].
  - exists []. split; [reflexivity | constructor].
  - destruct (bounce_ok a e Ha) as (a' & Hrun & Hba).
    exists (a' :: l'). simpl. unfold bind. rewrite Hrun, Hl.
    split; [reflexivity | now constructor].
Qed.

Lemma bounced_well_formed (l l' : list AISnake.t) :
  Forall ai_well_formed l -> Forall2 bounced l l' -> Forall ai_well_formed l'.
Proof.
  intros Hl H. induction H as [|a a' l l' (wall & _ & ->) _ IH]; [constructor|].
  inversion Hl as [|? ? (Hs & Hd & Hn) Hl']; subst. constructor; [|auto].
  destruct wall; [|now repeat split].
  repeat split; auto. now apply is_unit_neg.
Qed.

(** [eat_and_bounce] on a well-formed game returns, and leaves the
    game-over flag alone. *)
Lemma eat_and_bounce_ok (g : Game.t) (e : Env) :
  well_formed g ->
  exists g1 e' ais,
    Game.eat g e = Ok (g1, e') /\
    Forall2 bounced (Game.aiSnakes g1) ais /\
    Game.eat_and_bounce g e = Ok (Game.set_aiSnakes ais g1, e') /\
    Game.isGameOver g1 = Game.isGameOver g /\
    Game.aiSnakes g1 = Game.aiSnakes g.
Proof.
  intros (Hp & Hai). unfold Game.eat_and_bounce.
  destruct (Snake.segments (Game.playerSnake g)) as [|head rest] eqn:E; [congruence|].
  assert (Heat : exists g1 e', Game.eat g e = Ok (g1, e') /\
                   Game.isGameOver g1 = Game.isGameOver g /\
                   Game.aiSnakes g1 = Game.aiSnakes g).
  { destruct (eat_ok g e head rest E) as [(_ & ->) | (_ & p & f & n & _ & _ & ->)];
      eexists; eexists; split; try reflexivity; split; reflexivity. }
  destruct Heat as (g1 & e' & Heat & Hover & Hsame).
  assert (Hai1 : Forall ai_well_formed (Game.aiSnakes g1)) by now rewrite Hsame.
  destruct (forEach_bounce (Game.aiSnakes g1) e' Hai1) as (ais & Hrun & Hb).
  exists g1, e', ais. split; [exact Heat|]. split; [exact Hb|].
  split; [|auto]. unfold bind. now rewrite Heat, Hrun.
Qed.

(** ** The pause toggle *)

(** [pause_toggle] always returns; it touches the handler, the pause flag
    and the grace anchor only, and consumes clock reads only. *)
Lemma pause_toggle_frame (g : Game.t) (e : Env) :
  exists g1 e1,
    Game.pause_toggle g e = Ok (g1, e1) /\
    Game.playerSnake g1 = Game.playerSnake g /\
    Game.aiSnakes g1 = Game.aiSnakes g /\
    Game.score g1 = Game.score g /\
    Game.food g1 = Game.food g /\
    Game.isGameOver g1 = Game.isGameOver g /\
    same_sources e e1.
Proof.
  unfold Game.pause_toggle.
  destruct (InputHandler.checkPauseToggle (Game.inputHandler g)) as [toggled h].
  destruct toggled.
  - cbn [Game.isPaused Game.set_isPaused Game.set_inputHandler].
    destruct (negb (negb (Game.isPaused g))).
    + eexists; eexists. split; [reflexivity|].
      repeat split; reflexivity.
    + eexists; eexists. split; [reflexivity|].
      repeat split; reflexivity.
  - eexists; eexists. split; [reflexivity|]. repeat split; reflexivity.
Qed.

Lemma pause_toggle_unpause (g : Game.t) (e : Env) :
  Game.isPaused g = true ->
  fst (InputHandler.checkPauseToggle (Game.inputHandler g)) = true ->
  Game.pause_toggle g e =
  Ok (Game.set_gameStartTime
        (clock_values e (clock_count e)
         - (clock_values e (S (clock_count e)) - Game.gameStartTime g))
        (Game.set_isPaused false
           (Game.set_inputHandler
              (snd (InputHandler.checkPauseToggle (Game.inputHandler g))) g)),
      clock_read (clock_read e)).
Proof.
  intros Hp Ht. unfold Game.pause_toggle.
  destruct (InputHandler.checkPauseToggle (Game.inputHandler g)) as [toggled h].
  simpl in Ht. subst toggled.
  cbn [Game.isPaused Game.set_isPaused Game.set_inputHandler]. rewrite Hp.
  reflexivity.
Qed.

Lemma hits_ai_eq (p : Snake.t) (head : Vec) (rest : list Vec) (ais : list AISnake.t) :
  Snake.segments p = head :: rest ->
  Game.hits_ai p ais =
  Ok (existsb (fun a => existsb (fun segment => same_cell head segment)
                                (Snake.segments (AISnake.base a))) ais).
Proof.
  intros E. induction ais as [|a ais IH]; [reflexivity|].
  simpl. unfold Snake.checkCollisionWithSnake. rewrite E.
  destruct (Snake.segments (AISnake.base a)) as [|s0 others]; [exact IH|].
  destruct (existsb (fun segment => same_cell head segment) (s0 :: others));
    [reflexivity | exact IH].
Qed.

Lemma checkWallCollision_cons (cw ch : Z) (p : Snake.t) (head : Vec) (rest : list Vec) :
  Snake.segments p = head :: rest ->
  exists wall, Snake.checkWallCollision cw ch p = Ok wall.
Proof. intros E. unfold Snake.checkWallCollision. rewrite E. eexists. reflexivity. Qed.

(** [resolve] on a well-formed game returns and keeps the grace flag. *)
Lemma resolve_ok (g : Game.t) (e : Env) :
  well_formed g ->
  exists g' e', Game.resolve g e = Ok (g', e') /\
                Game.isGracePeriod g' = Game.isGracePeriod g /\
                Game.gameStartTime g' = Game.gameStartTime g.
Proof.
  intros Hwf.
  assert (Heb : exists g' e', Game.eat_and_bounce g e = Ok (g', e') /\
                              Game.isGracePeriod g' = Game.isGracePeriod g /\
                              Game.gameStartTime g' = Game.gameStartTime g).
  { destruct (eat_and_bounce_ok g e Hwf) as (g1 & e' & ais & Heat & _ & Hrun & _).
    exists (Game.set_aiSnakes ais g1), e'. split; [exact Hrun|].
    destruct Hwf as (Hp & _).
    destruct (Snake.segments (Game.playerSnake g)) as [|head rest] eqn:E; [congruence|].
    destruct (eat_ok g e head rest E) as [(_ & H) | (_ & p & f & n & _ & _ & H)];
      rewrite H in Heat; injection Heat as <- _; split; reflexivity. }
  unfold Game.resolve. destruct (negb (Game.isGracePeriod g)); [|exact Heb].
  destruct Hwf as (Hp & _).
  destruct (Snake.segments (Game.playerSnake g)) as [|head rest] eqn:E; [congruence|].
  destruct (checkWallCollision_cons Game.canvas_width Game.canvas_height _ _ _ E)
    as (wall & Hw).
  unfold bind at 1. unfold lift at 1. rewrite Hw.
  destruct (wall || Snake.checkSelfCollision (Game.playerSnake g)).
  - rewrite gameOver_eq. eexists; eexists. repeat split; reflexivity.
  - unfold bind, lift. rewrite (hits_ai_eq _ _ _ _ E).
    destruct (existsb _ _).
    + rewrite gameOver_eq. eexists; eexists. repeat split; reflexivity.
    + exact Heb.
Qed.

(** ** The wall bounce of the AI snakes *)

(** Whatever [updateAI] draws, the movement application that follows a
    bounce never commits the reverse heading that the bounce stored. *)
Lemma bounce_never_takes_effect (dt : Q) (a : AISnake.t) (e : Env) :
  ai_well_formed a -> random_in_range e ->
  exists a' e',
    Game.update_ai dt (AISnake.set_nextDirection (neg (AISnake.direction a)) a) e
      = Ok (a', e') /\
    AISnake.direction a' <> neg (AISnake.direction a).
Proof.
  intros (Hs & Hd & Hn) Hr.
  destruct (update_ai_ok dt (AISnake.set_nextDirection (neg (AISnake.direction a)) a) e)
    as (a' & e' & Hrun & (_ & Hrev & _) & _); [|exact Hr|].
  { split; [exact Hs|]. split; [exact Hd | now apply is_unit_neg]. }
  exists a', e'. split; [exact Hrun|]. intros Heq.
  simpl in Hrev. rewrite Heq, is_reverse_neg in Hrev. discriminate.
Qed.

(** C2 fails on the code: the AI snake of [bounce_game] reaches the wall
    position x = 990 at the second tick, where the bounce stores the
    reverse heading (left) as pending; at the third tick [AISnake.update]
    discards it: the committed heading is still right and the head leaves
    the arena at x = 1010. *)
Theorem C2_bounce_is_never_committed :
  ai_view (ticks 1 125 bounce_game (half_draws 5000))
    = [(Some (mkVec 970 150), RIGHT, RIGHT)] /\
  ai_at_wall (ticks 2 125 bounce_game (half_draws 5000)) = [Ok true] /\
  ai_view (ticks 2 125 bounce_game (half_draws 5000))
    = [(Some (mkVec 990 150), RIGHT, LEFT)] /\
  ai_view (ticks 3 125 bounce_game (half_draws 5000))
    = [(Some (mkVec 1010 150), RIGHT, LEFT)].
Proof. repeat split; vm_compute; reflexivity. Qed.

(** ** Fatal collisions *)

(** C7, as stated, fails: no failure reason is reported. A tick that ends
    the session through the wall check (the player also overlapping an AI
    snake) and a tick that ends it through the AI check leave the same
    writes on the page ([10 # 10] is the speed 1.0 as [1 + 0 * (1 # 10)]
    computes it). *)
Lemma C7_no_failure_reason_reported :
  fatal_predicates (after_move 125 wall_and_ai_game (half_draws 5000))
    = Some (Ok true, false, Ok true) /\
  fatal_predicates (after_move 125 ai_only_game (half_draws 5000))
    = Some (Ok false, false, Ok true) /\
  ending (Game.update 125 wall_and_ai_game (half_draws 5000))
    = Some (true, [UpdateUI 0 6 (10 # 10) false false GAME_OVER;
                   ShowGameOver; FinalScore 0]) /\
  ending (Game.update 125 ai_only_game (half_draws 5000))
    = ending (Game.update 125 wall_and_ai_game (half_draws 5000)).
Proof. repeat split; vm_compute; reflexivity. Qed.

(** C7, amended: outside the grace period the fatal checks run in the
    order wall, self, AI snakes in list (spawn) order, and the first that
    holds ends the tick with [gameOver()], food and bounce skipped;
    [gameOver()] sets the flag and writes the final score, the panel and the
    dashboard, the same whichever check held: no reason is recorded. *)
Theorem C7_fatal_checks_in_order (g : Game.t) (e : Env) (head : Vec) (rest : list Vec) :
  Game.isGracePeriod g = false ->
  Snake.segments (Game.playerSnake g) = head :: rest ->
  exists wall self other,
    Snake.checkWallCollision Game.canvas_width Game.canvas_height (Game.playerSnake g)
      = Ok wall /\
    Snake.checkSelfCollision (Game.playerSnake g) = self /\
    Game.hits_ai (Game.playerSnake g) (Game.aiSnakes g) = Ok other /\
    (other = true <->
     exists a, In a (Game.aiSnakes g) /\ In head (Snake.segments (AISnake.base a))) /\
    Game.resolve g e =
      (if wall then Game.gameOver g e
       else if self then Game.gameOver g e
       else if other then Game.gameOver g e
       else Game.eat_and_bounce g e) /\
    Game.gameOver g e =
      Ok (Game.set_isGameOver true g,
          wrote [ui_of (Game.set_isGameOver true g); ShowGameOver;
                 FinalScore (Game.score g)] e).
Proof.
  intros Hg E.
  destruct (checkWallCollision_cons Game.canvas_width Game.canvas_height _ _ _ E)
    as (wall & Hw).
  exists wall, (Snake.checkSelfCollision (Game.playerSnake g)).
  eexists. split; [exact Hw|]. split; [reflexivity|].
  split; [apply (hits_ai_eq _ _ _ _ E)|]. split; [|split; [|apply gameOver_eq]].
  - rewrite existsb_exists. split.
    + intros (a & Ha & Hs). exists a. split; [exact Ha|].
      apply existsb_exists in Hs. destruct Hs as (seg & Hin & Heq).
      apply same_cell_eq in Heq. now subst seg.
    + intros (a & Ha & Hin). exists a. split; [exact Ha|].
      apply existsb_exists. exists head. split; [exact Hin | now apply same_cell_eq].
  - unfold Game.resolve. rewrite Hg. simpl negb. cbv iota.
    unfold bind at 1. unfold lift at 1. rewrite Hw.
    destruct wall; [reflexivity|]. simpl orb.
    destruct (Snake.checkSelfCollision (Game.playerSnake g)); [reflexivity|].
    unfold bind, lift. rewrite (hits_ai_eq _ _ _ _ E).
    destruct (existsb _ _); reflexivity.
Qed.

(** The theorem on [wall_and_ai_moved]: the wall check ends the tick. *)
Lemma C7_fatal_checks_in_order_witness :
  Game.resolve wall_and_ai_moved (half_draws 5000)
  = Game.gameOver wall_and_ai_moved (half_draws 5000).
Proof.
  destruct (C7_fatal_checks_in_order wall_and_ai_moved (half_draws 5000)
              (mkVec 990 330)
              [mkVec 970 330; mkVec 950 330; mkVec 930 330; mkVec 910 330; mkVec 890 330]
              eq_refl eq_refl)
    as (wall & self & other & Hw & _ & _ & _ & Hr & _).
  rewrite Hr. vm_compute in Hw. injection Hw as <-. reflexivity.
Defined.

(** ** The grace period *)

Lemma update_running (dt : Q) (g : Game.t) (e : Env) :
  Game.isGameOver g = false -> Game.isWaitingToStart g = false ->
  Game.update dt g e =
  (g1 <- Game.pause_toggle g ;;
   if Game.isPaused g1 then ret g1 else gm <- Game.move dt g1 ;; Game.resolve gm) e.
Proof. intros H1 H2. unfold Game.update. now rewrite H1, H2. Qed.

Lemma resolve_in_grace (g : Game.t) (e : Env) :
  Game.isGracePeriod g = true -> Game.resolve g e = Game.eat_and_bounce g e.
Proof. intros H. unfold Game.resolve. now rewrite H. Qed.

(** What [updateAI] does on the game's canvas. *)
Lemma updateAI_spec (s : AISnake.t) (e : Env) :
  random_in_range e -> ai_well_formed s ->
  exists s' e',
    AISnake.updateAI Game.canvas_width Game.canvas_height s e = Ok (s', e') /\
    AISnake.base s' = AISnake.base s /\
    AISnake.direction s' = AISnake.direction s /\
    ai_decided s e s' e'.
Proof.
  intros Hr (Hseg & Hd & Hn). unfold AISnake.updateAI, ai_decided.
  cbn [AISnake.aiTimer AISnake.aiChangeInterval AISnake.set_aiTimer
       AISnake.set_aiChangeInterval AISnake.base AISnake.direction].
  cbv zeta.
  destruct (AISnake.aiTimer s + 1 >=? AISnake.aiChangeInterval s).
  2:{ eexists; eexists. split; [reflexivity|]. cbn.
      do 2 (split; [reflexivity|]). repeat split; reflexivity. }
  unfold bind at 1. rewrite Math_random_eq.
  assert (Hint : 4 <= 4 + Qfloor (random_values e (random_count e) * 4) <= 7).
  { assert (H : 0 <= Qfloor (random_values e (random_count e) * inject_Z 4) < 4)
      by (apply floor_draw_range; try apply Hr; reflexivity).
    change (inject_Z 4) with 4%Q in H. lia. }
  assert (Hpick : forall r, (0 <= r)%Q -> (r < 1)%Q ->
            exists d,
              array_get (valid_directions s)
                (Qfloor (r * inject_Z (Z.of_nat (List.length (valid_directions s)))))
                = Some d /\
              is_unit d = true /\ is_reverse d (AISnake.direction s) = false).
  { intros r H0 H1. destruct (valid_directions_unit _ Hd) as [Hlen Hvalid].
    destruct (array_get_in_range (valid_directions s)
                (Qfloor (r * inject_Z (Z.of_nat (List.length (valid_directions s))))))
      as (d & Hget & Hin).
    { apply floor_draw_range; auto. unfold valid_directions. rewrite Hlen. reflexivity. }
    exists d. split; [exact Hget|]. now apply Hvalid. }
  assert (Hnw : near_wall s =
                match Snake.segments (AISnake.base s) with
                | [] => false
                | head :: _ =>
                    (head.(x) + (AISnake.direction s).(x) * GRID_SIZE <? GRID_SIZE)
                    || (head.(x) + (AISnake.direction s).(x) * GRID_SIZE
                        >=? Game.canvas_width - GRID_SIZE)
                    || (head.(y) + (AISnake.direction s).(y) * GRID_SIZE <? GRID_SIZE)
                    || (head.(y) + (AISnake.direction s).(y) * GRID_SIZE
                        >=? Game.canvas_height - GRID_SIZE)
                end) by reflexivity.
  destruct (Snake.segments (AISnake.base s)) as [|head rest] eqn:E; [congruence|].
  rewrite Hnw.
  match goal with |- context [bind (if ?b then _ else _)] => destruct b end.
  - unfold bind at 1. unfold ret at 1. unfold bind. rewrite Math_random_eq.
    rewrite drawn_drawn. cbn [random_values random_count drawn Nat.add].
    destruct (Hpick (random_values e (random_count e + 1))) as (d & Hget & Hu & Hnr);
      try apply Hr.
    fold (valid_directions s). rewrite Hget.
    eexists; eexists. split; [reflexivity|]. cbn.
    do 2 (split; [reflexivity|]). split; [reflexivity|]. split; [reflexivity|].
    split; [exact Hint|]. split; [|reflexivity]. split; [reflexivity|]. split; assumption.
  - unfold bind at 1. unfold bind at 1. rewrite Math_random_eq. unfold ret at 1.
    cbn [random_values random_count drawn].
    destruct (Qlt_bool (random_values e (random_count e + 1)) (1 # 4)).
    + unfold bind. rewrite Math_random_eq. rewrite !drawn_drawn.
      cbn [random_values random_count drawn Nat.add].
      replace (random_count e + 1 + 1)%nat with (random_count e + 2)%nat by lia.
      destruct (Hpick (random_values e (random_count e + 2))) as (d & Hget & Hu & Hnr);
        try apply Hr.
      fold (valid_directions s). rewrite Hget.
      eexists; eexists. split; [reflexivity|]. cbn.
      do 2 (split; [reflexivity|]). split; [reflexivity|]. split; [reflexivity|].
      split; [exact Hint|]. split; [|reflexivity]. split; [reflexivity|]. split; assumption.
    + rewrite drawn_drawn.
      eexists; eexists. split; [reflexivity|]. cbn.
      do 2 (split; [reflexivity|]). split; [reflexivity|]. split; [reflexivity|].
      split; [exact Hint|]. split; reflexivity.
Qed.

Lemma AISnake_updateEyes_blinked (dt : Q) (s : AISnake.t) :
  blinked 4000 4150 dt (AISnake.base s) (AISnake.base (AISnake.updateEyes dt s)).
Proof.
  unfold blinked, AISnake.updateEyes. cbv zeta.
  cbn [AISnake.base AISnake.set_base Snake.eyeBlinkTimer Snake.set_eyeBlinkTimer].
  destruct (Qgt_bool (Snake.eyeBlinkTimer (AISnake.base s) + dt) 4000);
    cbn [Snake.eyeBlinkTimer Snake.set_eyesOpen Snake.set_eyeBlinkTimer];
    destruct (Qgt_bool (Snake.eyeBlinkTimer (AISnake.base s) + dt) 4150);
    repeat split; reflexivity.
Qed.

Lemma Snake_updateEyes_blinked (dt : Q) (s : Snake.t) :
  if Snake.isPlayer s
  then blinked 3000 3150 dt s (Snake.updateEyes dt s)
  else Snake.updateEyes dt s = s.
Proof.
  unfold blinked, Snake.updateEyes. cbv zeta.
  destruct (Snake.isPlayer s) eqn:P; [|reflexivity].
  cbn [Snake.eyeBlinkTimer Snake.set_eyeBlinkTimer].
  destruct (Qgt_bool (Snake.eyeBlinkTimer s + dt) 3000);
    cbn [Snake.eyeBlinkTimer Snake.set_eyesOpen Snake.set_eyeBlinkTimer];
    destruct (Qgt_bool (Snake.eyeBlinkTimer s + dt) 3150);
    repeat split; cbn; auto.
Qed.

Lemma AISnake_update_base (s s' : AISnake.t) :
  AISnake.update s = Ok s' ->
  Snake.isPlayer (AISnake.base s') = Snake.isPlayer (AISnake.base s) /\
  Snake.eyeBlinkTimer (AISnake.base s') = Snake.eyeBlinkTimer (AISnake.base s) /\
  Snake.eyesOpen (AISnake.base s') = Snake.eyesOpen (AISnake.base s).
Proof.
  unfold AISnake.update, Snake.update.
  destruct (differs (AISnake.nextDirection s) (neg (AISnake.direction s)));
    cbn [AISnake.base AISnake.direction AISnake.set_direction];
    destruct (Snake.segments (AISnake.base s)); try discriminate;
    intros H; injection H as <-; repeat split; reflexivity.
Qed.

(** One AI snake through the [forEach] of the movement part of a tick. *)
Lemma update_ai_spec (dt : Q) (a : AISnake.t) (e : Env) :
  ai_well_formed a -> random_in_range e ->
  exists a' e',
    Game.update_ai dt a e = Ok (a', e') /\
    ai_moved a a' /\ ai_stepped dt a e a' e' /\
    random_in_range e' /\ only_draws e e'.
Proof.
  intros Hwf Hr.
  destruct (update_ai_ok dt a e Hwf Hr) as (a' & e' & Hrun & Hmoved & Hr' & Hdraws).
  exists a', e'. split; [exact Hrun|]. split; [exact Hmoved|].
  split; [|split; assumption].
  destruct (updateAI_spec a e Hr Hwf) as (s1 & e1 & Hrun1 & Hbase & Hdir & Hdec).
  destruct Hwf as (Hseg & Hd & Hn).
  destruct (Snake.segments (AISnake.base a)) as [|head rest] eqn:E; [congruence|].
  assert (E1 : Snake.segments (AISnake.base s1) = head :: rest) by now rewrite Hbase.
  destruct (AISnake_update_cons s1 head rest E1)
    as (s2 & Hupd & Hdir2 & Hnext2 & Ht2 & Hi2 & Hseg2).
  destruct (AISnake_update_base s1 s2 Hupd) as (Hpl & Hey1 & Hey2).
  revert Hrun. unfold Game.update_ai, bind. rewrite Hrun1. unfold lift. rewrite Hupd.
  intros Hrun. injection Hrun as <- <-.
  destruct (AISnake_updateEyes_frame dt s2) as (Fs & Fd & Fn).
  pose proof (AISnake_updateEyes_blinked dt s2) as Fb.
  assert (Ftimer : AISnake.aiTimer (AISnake.updateEyes dt s2) = AISnake.aiTimer s1)
    by (rewrite <- Ht2; reflexivity).
  assert (Fint : AISnake.aiChangeInterval (AISnake.updateEyes dt s2)
                 = AISnake.aiChangeInterval s1)
    by (rewrite <- Hi2; reflexivity).
  assert (Fnext : AISnake.nextDirection (AISnake.updateEyes dt s2)
                  = AISnake.nextDirection s1) by congruence.
  split.
  { revert Hdec. unfold ai_decided. cbv zeta. rewrite Ftimer, Fint, Fnext. auto. }
  split.
  { rewrite Fd, Fnext, Hdir2, Hdir. reflexivity. }
  split.
  { exists head, rest. split; [exact E|]. rewrite Fs, Hseg2, Fd. reflexivity. }
  revert Fb. unfold blinked. cbv zeta. rewrite Hpl, Hey1, Hey2, Hbase. auto.
Qed.

(** The [forEach] of the movement part of a tick, snake by snake. *)
Lemma forEach_update_ai (dt : Q) (l : list AISnake.t) :
  forall e, Forall ai_well_formed l -> random_in_range e ->
    exists l' e',
      forEach (Game.update_ai dt) l e = Ok (l', e') /\
      ai_pass dt l e l' e' /\ Forall2 ai_moved l l' /\
      random_in_range e' /\ only_draws e e'.
Proof.
  induction l as [|a l IH]; intros e Hl Hr.
  - exists [], e. split; [reflexivity|]. split; [reflexivity|].
    split; [constructor|]. split; [exact Hr | apply only_draws_refl].
  - inversion Hl as [|? ? Ha Hl']; subst.
    destruct (update_ai_spec dt a e Ha Hr) as (a' & e1 & Hrun & Hm & Hs & Hr1 & Hd1).
    destruct (IH e1 Hl' Hr1) as (l' & e2 & Hrun2 & Hp & Hm2 & Hr2 & Hd2).
    exists (a' :: l'), e2. simpl forEach. unfold bind. rewrite Hrun, Hrun2.
    split; [reflexivity|]. split; [exists e1; split; assumption|].
    split; [now constructor|]. split; [exact Hr2|].
    eapply only_draws_trans; eauto.
Qed.

(** The movement part of a tick on a well-formed game: the result, field
    by field. *)
Lemma move_spec (dt : Q) (g : Game.t) (e : Env) :
  well_formed g -> random_in_range e ->
  exists ais p em,
    ai_pass dt (Game.aiSnakes g) (clock_read e) ais em /\
    Forall2 ai_moved (Game.aiSnakes g) ais /\
    Snake.update (fst (InputHandler.getNextDirection (Game.inputHandler g)))
                 (Game.playerSnake g) = Ok p /\
    random_in_range em /\ only_draws (clock_read e) em /\
    Game.move dt g e =
      Ok (Game.set_playerSnake (Snake.updateEyes dt p)
            (Game.set_aiSnakes ais
               (Game.set_playerDirection
                  (fst (InputHandler.getNextDirection (Game.inputHandler g)))
                  (Game.set_inputHandler
                     (snd (InputHandler.getNextDirection (Game.inputHandler g)))
                     (Game.scale_difficulty
                        (Game.set_isGracePeriod
                           (clock_values e (clock_count e) - Game.gameStartTime g
                            <? GRACE_PERIOD) g))))),
          em).
Proof.
  intros (Hp & Hai) Hr. unfold Game.move.
  unfold bind at 1. rewrite Date_now_eq.
  change (Game.inputHandler
            (Game.scale_difficulty
               (Game.set_isGracePeriod
                  (clock_values e (clock_count e) - Game.gameStartTime g <? GRACE_PERIOD)
                  g))) with (Game.inputHandler g).
  destruct (InputHandler.getNextDirection (Game.inputHandler g)) as [d h].
  assert (Hr1 : random_in_range (clock_read e)) by exact Hr.
  destruct (forEach_update_ai dt (Game.aiSnakes g) (clock_read e) Hai Hr1)
    as (ais & e1 & Hrun & Hpass & Hmoved & Hr2 & Hdraws).
  destruct (Snake.segments (Game.playerSnake g)) as [|head rest] eqn:E; [congruence|].
  destruct (Snake_update_cons d head rest (Game.playerSnake g) E) as (p & Hupd & _).
  exists ais, p, e1. split; [exact Hpass|]. split; [exact Hmoved|].
  split; [exact Hupd|]. split; [exact Hr2|]. split; [exact Hdraws|].
  cbn [Game.aiSnakes Game.set_playerDirection Game.set_inputHandler
       Game.scale_difficulty Game.updateSpeed Game.set_moveInterval
       Game.set_currentSpeed Game.set_baseSpeed Game.set_isGracePeriod
       Game.playerDirection Game.playerSnake Game.set_aiSnakes fst snd].
  unfold bind. rewrite Hrun. unfold lift. rewrite Hupd. reflexivity.
Qed.

(** The movement part of a tick does not depend on the grace anchor: from
    another anchor the same snakes, handler, speeds and environment come
    out, the grace flag apart. *)
Lemma move_any_anchor (dt : Q) (g gm : Game.t) (e em : Env) (anchor' : Z) :
  Game.move dt g e = Ok (gm, em) ->
  Game.move dt (Game.set_gameStartTime anchor' g) e =
  Ok (Game.set_gameStartTime anchor'
        (Game.set_isGracePeriod
           (clock_values e (clock_count e) - anchor' <? GRACE_PERIOD) gm),
      em).
Proof.
  unfold Game.move, bind, lift, Date_now, ret.
  cbn [Game.inputHandler Game.aiSnakes Game.set_playerDirection Game.set_inputHandler
       Game.scale_difficulty Game.updateSpeed Game.set_moveInterval
       Game.set_currentSpeed Game.set_baseSpeed Game.set_isGracePeriod
       Game.set_gameStartTime Game.gameStartTime
       Game.playerDirection Game.playerSnake Game.set_aiSnakes].
  destruct (InputHandler.getNextDirection (Game.inputHandler g)) as [d h].
  cbn [Game.inputHandler Game.aiSnakes Game.set_playerDirection Game.set_inputHandler
       Game.scale_difficulty Game.updateSpeed Game.set_moveInterval
       Game.set_currentSpeed Game.set_baseSpeed Game.set_isGracePeriod
       Game.set_gameStartTime Game.gameStartTime
       Game.playerDirection Game.playerSnake Game.set_aiSnakes].
  destruct (forEach (Game.update_ai dt) (Game.aiSnakes g) _)
    as [[ais e1]|]; [|discriminate].
  destruct (Snake.update d (Game.playerSnake g)) as [p|]; [|discriminate].
  intros H. injection H as <- <-. reflexivity.
Qed.

Lemma pause_toggle_handler (g g1 : Game.t) (e e1 : Env) :
  Game.pause_toggle g e = Ok (g1, e1) ->
  Game.inputHandler g1 = snd (InputHandler.checkPauseToggle (Game.inputHandler g)).
Proof.
  unfold Game.pause_toggle.
  destruct (InputHandler.checkPauseToggle (Game.inputHandler g)) as [toggled h].
  destruct toggled.
  - cbn [Game.isPaused Game.set_isPaused Game.set_inputHandler].
    destruct (negb (negb (Game.isPaused g)));
      intros H; injection H as <- _; reflexivity.
  - intros H; injection H as <- _; reflexivity.
Qed.

(** [respawn] returns with the food on the [i]-th sampled cell, [i] the
    first free one or, none of the 100 being free, the last. *)
Lemma respawn_spec (cw ch : Z) (snakes : list Snake.t) (food : Food.t) (e : Env) :
  exists i,
    (i < 100)%nat /\
    Food.respawn cw ch snakes food e = Ok (sample_at cw ch e i, drawn (2 * S i) e) /\
    (forall j, (j < i)%nat -> Food.occupied (sample_at cw ch e j) snakes = true) /\
    (Food.occupied (sample_at cw ch e i) snakes = false \/ i = 99%nat).
Proof.
  unfold Food.respawn, bind.
  destruct (respawn_loop_spec 100 cw ch snakes food e)
    as [(i & Hi & -> & Hfree & Hbefore) | (-> & Hall)].
  - exists i. split; [exact Hi|]. split; [reflexivity|]. split; [exact Hbefore|].
    now left.
  - exists 99%nat. split; [lia|]. split; [reflexivity|].
    split; [intros j Hj; apply Hall; lia | now right].
Qed.

Lemma Snake_update_frame (d : Vec) (s s' : Snake.t) :
  Snake.update d s = Ok s' ->
  Snake.isPlayer s' = Snake.isPlayer s /\
  Snake.eyeBlinkTimer s' = Snake.eyeBlinkTimer s /\
  Snake.eyesOpen s' = Snake.eyesOpen s.
Proof.
  unfold Snake.update. destruct (Snake.segments s); [discriminate|].
  intros H. injection H as <-. repeat split; reflexivity.
Qed.

(** C8: a tick of a running game whose grace period has not elapsed
    ([Date.now() - gameStartTime < GRACE_PERIOD]) runs all movement as any
    other tick does: each AI snake, in list order and from the draws its
    predecessors left, advances its countdown, chooses its pending heading,
    commits it and moves one cell; the player takes the heading of the
    input queue and moves one cell; the speed follows the score; and from
    any other grace anchor the same movement results. No collision ends the
    session, whatever the player's head touches. The food is still
    collected: with the head on it the snake grows by its tail cell, the
    score gains ten, the dashboard and the sound are written and the food
    goes to the first free of up to 100 cells sampled from the draws that
    follow the movement (the last one when none is free); otherwise
    nothing changes. Last, each AI snake in a wall position gets the
    reverse of its heading as pending heading. *)
Theorem C8_grace_tick (dt : Q) (g g1 : Game.t) (e e1 : Env) :
  Game.isGameOver g = false ->
  Game.isWaitingToStart g = false ->
  Game.pause_toggle g e = Ok (g1, e1) ->
  Game.isPaused g1 = false ->
  clock_values e1 (clock_count e1) - Game.gameStartTime g1 < GRACE_PERIOD ->
  well_formed g ->
  random_in_range e ->
  exists gm em g' e' head rest,
    Game.move dt g1 e1 = Ok (gm, em) /\
    Forall2 ai_moved (Game.aiSnakes g) (Game.aiSnakes gm) /\
    ai_pass dt (Game.aiSnakes g) (clock_read e1) (Game.aiSnakes gm) em /\
    player_moved g gm /\
    Game.inputHandler g1 = snd (InputHandler.checkPauseToggle (Game.inputHandler g)) /\
    player_stepped dt g1 gm /\
    Game.baseSpeed gm = speedMultiplier_spec (Game.score g) /\
    Game.isGracePeriod gm = true /\
    (forall anchor',
        Game.move dt (Game.set_gameStartTime anchor' g1) e1 =
        Ok (Game.set_gameStartTime anchor'
              (Game.set_isGracePeriod
                 (clock_values e1 (clock_count e1) - anchor' <? GRACE_PERIOD) gm),
            em)) /\
    Game.update dt g e = Ok (g', e') /\
    Game.isGameOver g' = false /\
    Forall2 bounced (Game.aiSnakes gm) (Game.aiSnakes g') /\
    Snake.segments (Game.playerSnake gm) = head :: rest /\
    (same_cell head (Game.food g) = true ->
     exists p i,
       let ea := wrote [PlayEatSound; ui_of (fed p gm)] em in
       let snakes := p :: map AISnake.base (Game.aiSnakes gm) in
       Snake.grow (Game.playerSnake gm) = Ok p /\
       Snake.segments p = (head :: rest) ++ [last (head :: rest) head] /\
       g' = Game.set_aiSnakes (Game.aiSnakes g')
              (Game.set_food (Game.food g') (fed p gm)) /\
       Game.playerSnake g' = p /\
       Game.score g' = Game.score g + 10 /\
       Food.respawn Game.canvas_width Game.canvas_height snakes (Game.food g) ea
         = Ok (Game.food g', e') /\
       (i < 100)%nat /\
       Game.food g' = sample_at Game.canvas_width Game.canvas_height ea i /\
       e' = drawn (2 * S i) ea /\
       (forall j, (j < i)%nat ->
          Food.occupied (sample_at Game.canvas_width Game.canvas_height ea j) snakes
            = true) /\
       ((forall snake segment,
            In snake snakes -> In segment (Snake.segments snake) ->
            segment <> Game.food g')
        \/ i = 99%nat)) /\
    (same_cell head (Game.food g) = false ->
     g' = Game.set_aiSnakes (Game.aiSnakes g') gm /\
     Game.playerSnake g' = Game.playerSnake gm /\
     Game.score g' = Game.score g /\
     Game.food g' = Game.food g /\
     e' = em).
Proof.
  intros Hover Hwait Hpause Hnp Hgrace Hwf Hr.
  destruct (pause_toggle_frame g e)
    as (g1' & e1' & Hp' & Fp & Fa & Fs & Ff & Fo & Fsrc).
  rewrite Hpause in Hp'. injection Hp' as <- <-.
  assert (Hwf1 : well_formed g1).
  { destruct Hwf as (H1 & H2). split; [now rewrite Fp | now rewrite Fa]. }
  assert (Hr1 : random_in_range e1) by (eapply random_in_range_sources; eauto).
  destruct (move_spec dt g1 e1 Hwf1 Hr1)
    as (ais & p0 & em & Hpass & _ & Hupd & _ & _ & Hmove).
  destruct (move_ok dt g1 e1 Hwf1 Hr1)
    as (gm & em' & Hmove' & Hg & Hai & Hpl & Hdir & Hs & Hf & Ho & _ & Hwfm & Hrm & _).
  rewrite Hmove in Hmove'. injection Hmove' as Hgm <-.
  assert (Hais : Game.aiSnakes gm = ais) by (rewrite <- Hgm; reflexivity).
  assert (Hmoved : Game.move dt g1 e1 = Ok (gm, em)) by (rewrite <- Hgm; exact Hmove).
  assert (Hgm' : Game.isGracePeriod gm = true).
  { rewrite Hg. apply Z.ltb_lt. exact Hgrace. }
  destruct (eat_and_bounce_ok gm em Hwfm)
    as (g2 & e' & ais' & Heat & Hb & Hrun & Ho2 & Ha2).
  destruct Hpl as (h0 & r0 & E0 & Em).
  exists gm, em, (Game.set_aiSnakes ais' g2), e'.
  eexists; eexists.
  split; [exact Hmoved|]. split; [now rewrite <- Fa|].
  split; [rewrite <- Fa, Hais; exact Hpass|].
  split.
  { exists h0, r0. rewrite <- Fp. auto. }
  split; [exact (pause_toggle_handler g g1 e e1 Hpause)|].
  split.
  { split; [exact Hdir|]. split; [rewrite <- Hgm; reflexivity|].
    split; [exists h0, r0; auto|].
    destruct (Snake_update_frame _ _ _ Hupd) as (Ep & Et & Eo).
    pose proof (Snake_updateEyes_blinked dt p0) as Hblink.
    rewrite Ep in Hblink. rewrite <- Hgm.
    cbn [Game.playerSnake Game.set_playerSnake].
    destruct (Snake.isPlayer (Game.playerSnake g1)) eqn:P.
    - unfold blinked in *. cbv zeta in *. rewrite Ep, Et, Eo in Hblink. rewrite P. exact Hblink.
    - rewrite Hblink. auto. }
  split.
  { rewrite <- Hgm, <- Fs. reflexivity. }
  split; [exact Hgm'|].
  split.
  { intros anchor'. apply move_any_anchor. exact Hmoved. }
  split.
  { rewrite (update_running dt g e Hover Hwait). unfold bind at 1. rewrite Hpause, Hnp.
    unfold bind. rewrite Hmoved.
    rewrite (resolve_in_grace gm em Hgm'). exact Hrun. }
  split.
  { cbn. rewrite Ho2, Ho, Fo. exact Hover. }
  split; [rewrite <- Ha2; exact Hb|].
  split; [exact Em|].
  rewrite <- Ff, <- Hf, <- Fs, <- Hs.
  destruct (eat_ok gm em _ _ Em) as [(Hno & H) | (Hyes & p & f & n & Hgrow & Hre & H)];
    rewrite H in Heat; injection Heat as <- <-.
  - split; [congruence|]. intros _. repeat split; reflexivity.
  - split; [|congruence]. intros _.
    destruct (respawn_spec Game.canvas_width Game.canvas_height (Game.snakes (fed p gm))
                (Game.food gm) (wrote [PlayEatSound; ui_of (fed p gm)] em))
      as (i & Hi & Hrun' & Hbefore & Hfree).
    assert (Hcell : f = sample_at Game.canvas_width Game.canvas_height
                       (wrote [PlayEatSound; ui_of (fed p gm)] em) i) by congruence.
    assert (Hn : drawn n (wrote [PlayEatSound; ui_of (fed p gm)] em)
                 = drawn (2 * S i) (wrote [PlayEatSound; ui_of (fed p gm)] em))
      by congruence.
    subst f. rewrite Hn.
    destruct (Snake_grow_cons _ _ _ Em) as (p' & Hgrow' & Hsegs & _).
    rewrite Hgrow in Hgrow'. injection Hgrow' as <-.
    exists p, i. cbv zeta.
    split; [exact Hgrow|]. split; [exact Hsegs|].
    split; [reflexivity|]. split; [reflexivity|]. split; [reflexivity|].
    split; [exact Hrun'|]. split; [exact Hi|].
    split; [reflexivity|]. split; [reflexivity|].
    split; [exact Hbefore|].
    destruct Hfree as [Hfree | ->]; [left | now right].
    now apply occupied_false_iff.
Qed.

Lemma half_draws_in_range (start : Z) : random_in_range (half_draws start).
Proof. intros n. split; unfold Qle, Qlt; simpl; lia. Qed.

Lemma falling_snake_well_formed (hx hy : Z) : ai_well_formed (falling_snake hx hy).
Proof. repeat split. discriminate. Qed.

(** The theorem on [meal_on_ai_game] one second after the start: the
    player's head is on the food and on an AI snake; the session goes on,
    the player has grown to seven segments and scored ten, and the food is
    on the first sampled cell. *)
Lemma C8_grace_tick_witness :
  exists g' e',
    Game.update 125 meal_on_ai_game (half_draws 1000) = Ok (g', e') /\
    Game.isGameOver g' = false /\
    Game.score g' = 10 /\
    List.length (Snake.segments (Game.playerSnake g')) = 7%nat /\
    Game.food g' = mkVec 490 310.
Proof.
  destruct (C8_grace_tick 125 meal_on_ai_game
              (Game.set_inputHandler InputHandler.new meal_on_ai_game)
              (half_draws 1000) (half_draws 1000)
              eq_refl eq_refl eq_refl eq_refl)
    as (gm & em & g' & e' & head & rest & Hmove & _ & _ & _ & _ & _ & _ & _ & _
        & Hu & Ho & _ & Em & Hfood & _).
  - vm_compute. reflexivity.
  - split; [discriminate|].
    constructor; [apply falling_snake_well_formed | constructor].
  - apply half_draws_in_range.
  - vm_compute in Hmove. injection Hmove as <- <-.
    vm_compute in Em. injection Em as <- <-.
    destruct (Hfood eq_refl) as (p & i & Hgrow & Hsegs & _ & Hp & Hs & Hre & _).
    vm_compute in Hgrow. injection Hgrow as <-.
    vm_compute in Hre. injection Hre as Hf _.
    exists g', e'. split; [exact Hu|]. split; [exact Ho|].
    split; [exact Hs|]. split; [rewrite Hp; reflexivity | now symmetry].
Defined.

(** ** Un-pausing and the grace anchor *)

(** C10, as stated, fails when the clock advances between the two reads
    of [Date.now() - (Date.now() - this.gameStartTime)]: with reads 5000 and
    5001 the anchor 0 becomes -1. *)
Lemma C10_anchor_moves_between_reads :
  Game.gameStartTime paused_game = 0 /\
  clock_values (half_draws 5000) 0 = 5000 /\
  clock_values (half_draws 5000) 1 = 5001 /\
  anchor (Game.pause_toggle paused_game (half_draws 5000)) = Some (-1).
Proof. repeat split. Qed.

(** C10, amended: un-pausing does not compensate the grace anchor for the
    paused time. The assignment reads the clock twice, [t1] then [t2], and
    leaves [gameStartTime - (t2 - t1)]: unchanged when both reads agree. The
    tick that un-pauses is in the grace period exactly when its next read
    [t3] is less than [GRACE_PERIOD] after that anchor. When the clock does
    not run backwards between the two reads ([t1 <= t2]) the anchor never
    moves later, and the tick tests the grace period against at least the
    whole time since the anchor, paused time included: a grace period that
    elapsed during the pause is over. *)
Theorem C10_unpause_does_not_extend_grace (dt : Q) (g : Game.t) (e : Env) :
  Game.isGameOver g = false ->
  Game.isWaitingToStart g = false ->
  Game.isPaused g = true ->
  fst (InputHandler.checkPauseToggle (Game.inputHandler g)) = true ->
  well_formed g ->
  random_in_range e ->
  let t1 := clock_values e (clock_count e) in
  let t2 := clock_values e (S (clock_count e)) in
  let t3 := clock_values e (S (S (clock_count e))) in
  exists g1 g' e',
    Game.pause_toggle g e = Ok (g1, clock_read (clock_read e)) /\
    Game.isPaused g1 = false /\
    Game.gameStartTime g1 = Game.gameStartTime g - (t2 - t1) /\
    (t1 = t2 -> Game.gameStartTime g1 = Game.gameStartTime g) /\
    (t1 <= t2 -> Game.gameStartTime g1 <= Game.gameStartTime g) /\
    Game.update dt g e = Ok (g', e') /\
    Game.gameStartTime g' = Game.gameStartTime g1 /\
    Game.isGracePeriod g' = (t3 - Game.gameStartTime g1 <? GRACE_PERIOD) /\
    (t1 <= t2 -> GRACE_PERIOD <= t3 - Game.gameStartTime g ->
     Game.isGracePeriod g' = false).
Proof.
  intros Hover Hwait Hp Ht Hwf Hr t1 t2 t3.
  pose proof (pause_toggle_unpause g e Hp Ht) as Hrun.
  set (g1 := Game.set_gameStartTime _ _) in Hrun.
  assert (Hanchor : Game.gameStartTime g1 = Game.gameStartTime g - (t2 - t1)).
  { unfold g1, t1, t2. cbn. lia. }
  assert (Hwf1 : well_formed g1) by exact Hwf.
  assert (Hr1 : random_in_range (clock_read (clock_read e))) by exact Hr.
  destruct (move_ok dt g1 _ Hwf1 Hr1)
    as (gm & em & Hmove & Hg & _ & _ & _ & _ & _ & _ & Hst & Hwfm & _ & _).
  destruct (resolve_ok gm em Hwfm) as (g' & e' & Hres & Hgg & Hss).
  assert (Hgrace : Game.isGracePeriod g' = (t3 - Game.gameStartTime g1 <? GRACE_PERIOD)).
  { rewrite Hgg, Hg. reflexivity. }
  exists g1, g', e'.
  split; [exact Hrun|]. split; [reflexivity|]. split; [exact Hanchor|].
  split; [lia|]. split; [lia|].
  split.
  { rewrite (update_running dt g e Hover Hwait). unfold bind at 1. rewrite Hrun.
    change (Game.isPaused g1) with false. cbv iota.
    unfold bind. rewrite Hmove. exact Hres. }
  split; [congruence|]. split; [exact Hgrace|].
  intros H12 H3. rewrite Hgrace. apply Z.ltb_ge. lia.
Qed.

(** The theorem on [paused_game], un-paused five seconds after the start:
    the grace period is over. *)
Lemma C10_unpause_does_not_extend_grace_witness :
  exists g' e',
    Game.update 125 paused_game (half_draws 5000) = Ok (g', e') /\
    Game.isGracePeriod g' = false.
Proof.
  destruct (C10_unpause_does_not_extend_grace 125 paused_game (half_draws 5000)
              eq_refl eq_refl eq_refl eq_refl)
    as (g1 & g' & e' & _ & _ & _ & _ & _ & Hu & _ & _ & Hg).
  - split; [discriminate|].
    constructor; [apply falling_snake_well_formed | constructor].
  - apply half_draws_in_range.
  - exists g', e'. split; [exact Hu|]. apply Hg; vm_compute; discriminate.
Defined.

(** ** Every reachable game is well formed *)

Lemma await_start_frame (g : Game.t) (e : Env) :
  exists g' e',
    Game.await_start g e = Ok (g', e') /\
    Game.playerSnake g' = Game.playerSnake g /\
    Game.aiSnakes g' = Game.aiSnakes g /\
    same_sources e e'.
Proof.
  unfold Game.await_start.
  destruct (InputHandler.checkStartPressed (Game.inputHandler g)) as [pressed h].
  destruct (if pressed then (true, h) else InputHandler.checkPauseToggle h) as [go h'].
  destruct go; eexists; eexists; (split; [reflexivity|]); repeat split; reflexivity.
Qed.

Lemma eat_well_formed (g : Game.t) (e : Env) :
  well_formed g ->
  exists g' e',
    Game.eat g e = Ok (g', e') /\ well_formed g' /\ same_sources e e'.
Proof.
  intros (Hp & Hai).
  destruct (Snake.segments (Game.playerSnake g)) as [|head rest] eqn:E; [congruence|].
  destruct (eat_ok g e head rest E) as [(_ & ->) | (_ & p & f & n & Hgrow & _ & ->)].
  - exists g, e. split; [reflexivity|]. split; [|apply same_sources_refl].
    split; [now rewrite E | exact Hai].
  - eexists; eexists. split; [reflexivity|]. split; [|split; reflexivity].
    split; [|exact Hai]. cbn.
    destruct (Snake_grow_cons head rest _ E) as (p' & Hgrow' & Hsegs & _).
    rewrite Hgrow in Hgrow'. injection Hgrow' as <-. rewrite Hsegs. discriminate.
Qed.

Lemma resolve_well_formed (g : Game.t) (e : Env) :
  well_formed g ->
  exists g' e',
    Game.resolve g e = Ok (g', e') /\ well_formed g' /\ same_sources e e'.
Proof.
  intros Hwf.
  assert (Heb : exists g' e', Game.eat_and_bounce g e = Ok (g', e') /\
                              well_formed g' /\ same_sources e e').
  { destruct (eat_well_formed g e Hwf) as (g1 & e1 & Heat & (Hp1 & Hai1) & Hsrc).
    destruct (eat_and_bounce_ok g e Hwf) as (g1' & e1' & ais & Heat' & Hb & Hrun & _).
    rewrite Heat in Heat'. injection Heat' as <- <-.
    exists (Game.set_aiSnakes ais g1), e1. split; [exact Hrun|]. split; [|exact Hsrc].
    split; [exact Hp1|]. cbn. eapply bounced_well_formed; eauto. }
  destruct (resolve_ok g e Hwf) as (g' & e' & Hres & _).
  unfold Game.resolve in *. destruct (negb (Game.isGracePeriod g)); [|exact Heb].
  destruct Hwf as (Hp & Hai).
  destruct (Snake.segments (Game.playerSnake g)) as [|head rest] eqn:E; [congruence|].
  destruct (checkWallCollision_cons Game.canvas_width Game.canvas_height _ _ _ E)
    as (wall & Hw).
  assert (Hover : exists g' e', Game.gameOver g e = Ok (g', e') /\
                                well_formed g' /\ same_sources e e').
  { rewrite gameOver_eq. eexists; eexists. split; [reflexivity|].
    split; [|split; reflexivity]. split; [cbn; now rewrite E | exact Hai]. }
  unfold bind at 1. unfold lift at 1. rewrite Hw.
  destruct (wall || Snake.checkSelfCollision (Game.playerSnake g)); [exact Hover|].
  unfold bind, lift. rewrite (hits_ai_eq _ _ _ _ E).
  destruct (existsb _ _); [exact Hover | exact Heb].
Qed.

(** [update] never fails on a well-formed game, and the game it returns is
    well formed. *)
Lemma update_well_formed (dt : Q) (g : Game.t) (e : Env) :
  well_formed g -> random_in_range e ->
  exists g' e',
    Game.update dt g e = Ok (g', e') /\ well_formed g' /\ random_in_range e'.
Proof.
  intros Hwf Hr. unfold Game.update.
  destruct (Game.isGameOver g); [exists g, e; auto|].
  destruct (Game.isWaitingToStart g).
  { destruct (await_start_frame g e) as (g' & e' & Hrun & Fp & Fa & Hsrc).
    exists g', e'. split; [exact Hrun|].
    split; [|eapply random_in_range_sources; eauto].
    destruct Hwf as (Hp & Hai). split; [now rewrite Fp | now rewrite Fa]. }
  destruct (pause_toggle_frame g e) as (g1 & e1 & Hrun & Fp & Fa & _ & _ & _ & Hsrc).
  assert (Hwf1 : well_formed g1).
  { destruct Hwf as (Hp & Hai). split; [now rewrite Fp | now rewrite Fa]. }
  assert (Hr1 : random_in_range e1) by (eapply random_in_range_sources; eauto).
  unfold bind at 1. rewrite Hrun.
  destruct (Game.isPaused g1); [exists g1, e1; auto|].
  destruct (move_ok dt g1 e1 Hwf1 Hr1)
    as (gm & em & Hmove & _ & _ & _ & _ & _ & _ & _ & _ & Hwfm & Hrm & _).
  destruct (resolve_well_formed gm em Hwfm) as (g' & e' & Hres & Hwf' & Hsrc').
  exists g', e'. unfold bind. rewrite Hmove.
  split; [exact Hres|]. split; [exact Hwf'|].
  eapply random_in_range_sources; eauto.
Qed.

Lemma well_formed_set_inputHandler (h : InputHandler.t) (g : Game.t) :
  well_formed g -> well_formed (Game.set_inputHandler h g).
Proof. intros H. exact H. Qed.

Lemma ticks_well_formed (n : nat) (dt : Q) :
  forall g e, well_formed g -> random_in_range e ->
  exists g' e',
    ticks n dt g e = Ok (g', e') /\ well_formed g' /\ random_in_range e'.
Proof.
  induction n as [|n IH]; intros g e Hwf Hr.
  - exists g, e. auto.
  - destruct (update_well_formed dt g e Hwf Hr) as (g1 & e1 & Hrun & Hwf1 & Hr1).
    destruct (IH g1 e1 Hwf1 Hr1) as (g' & e' & Hrun' & Hwf' & Hr').
    exists g', e'. simpl. unfold bind. rewrite Hrun. auto.
Qed.

Lemma Snake_new_segments (px py : Z) (player : bool) (n : nat) :
  (0 < n)%nat -> Snake.segments (Snake.new px py player n) <> [].
Proof. destruct n; [lia|]. discriminate. Qed.

Lemma spawn_ai_ok (spawnPos : Vec) (e : Env) :
  random_in_range e ->
  exists a e',
    Game.spawn_ai spawnPos e = Ok (a, e') /\ ai_well_formed a /\ only_draws e e'.
Proof.
  intros Hr. unfold Game.spawn_ai.
  unfold bind at 1. rewrite Math_random_eq.
  unfold bind at 1. rewrite Math_random_eq.
  set (r1 := random_values e (random_count e)).
  set (r2 := random_values (drawn 1 e) (random_count (drawn 1 e))).
  destruct (array_get_in_range directions
              (Qfloor (r2 * inject_Z (Z.of_nat (List.length directions)))))
    as (d & Hget & Hin).
  { apply floor_draw_range; try apply Hr. reflexivity. }
  rewrite Hget. unfold AISnake.new.
  unfold bind at 1. unfold bind at 1. rewrite Math_random_eq.
  unfold bind at 1. rewrite Math_random_eq.
  eexists; eexists. split; [reflexivity|]. split.
  - assert (Hd : is_unit d = true).
    { apply is_unit_cases. unfold directions in Hin. simpl in Hin.
      unfold RIGHT, LEFT, DOWN, UP. intuition. }
    split; [|split; exact Hd].
    cbn [AISnake.base Snake.segments Snake.set_eyeBlinkTimer AISnake.set_direction
         AISnake.set_nextDirection].
    apply (Snake_new_segments _ _ false).
    assert (0 <= Qfloor (r1 * 3)).
    { apply (floor_draw_range r1 3); try apply Hr. reflexivity. }
    lia.
  - rewrite !drawn_drawn. now exists 4%nat.
Qed.

Lemma spawn_all_ok (positions : list Vec) :
  forall e, random_in_range e ->
  exists ais e',
    Game.spawn_all positions e = Ok (ais, e') /\
    Forall ai_well_formed ais /\ only_draws e e'.
Proof.
  induction positions as [|pos rest IH]; intros e Hr.
  - exists [], e. split; [reflexivity|]. split; [constructor | apply only_draws_refl].
  - destruct (spawn_ai_ok pos e Hr) as (a & e1 & Ha & Hwf & Hd1).
    assert (Hr1 : random_in_range e1).
    { eapply random_in_range_sources; [apply only_draws_sources|]; eauto. }
    destruct (IH e1 Hr1) as (ais & e2 & Hrest & Hall & Hd2).
    exists (a :: ais), e2. simpl. unfold bind. rewrite Ha, Hrest.
    split; [reflexivity|]. split; [now constructor|].
    eapply only_draws_trans; eauto.
Qed.

(** The constructor returns a well-formed game that waits for the start
    key. *)
Lemma new_well_formed (e : Env) :
  random_in_range e ->
  exists g e',
    Game.new e = Ok (g, e') /\
    well_formed g /\ random_in_range e' /\
    Game.isWaitingToStart g = true /\ Game.isGameOver g = false /\
    Game.score g = 0 /\
    List.length (Snake.segments (Game.playerSnake g)) = 6%nat /\
    List.length (Game.aiSnakes g) = 4%nat.
Proof.
  intros Hr. unfold Game.new.
  unfold bind at 1. rewrite Date_now_eq.
  assert (Hr0 : random_in_range (clock_read e)) by exact Hr.
  destruct (spawn_all_ok Game.spawnPositions (clock_read e) Hr0)
    as (ais & e1 & Hspawn & Hall & Hd1).
  unfold bind at 1. rewrite Hspawn.
  destruct (respawn_draws Game.canvas_width Game.canvas_height
              (Snake.new Game.playerStartX Game.playerStartY true 6
               :: map AISnake.base ais) (Food.new 0 0) e1) as (f & n & Hre).
  unfold bind at 1. rewrite Hre.
  eexists; eexists. split; [reflexivity|].
  split; [split; [discriminate | exact Hall]|].
  split.
  { intros k. cbn. destruct Hd1 as [m ->]. apply Hr. }
  repeat split.
  assert (Hlen : forall ps e0 l e0', Game.spawn_all ps e0 = Ok (l, e0') ->
                                     List.length l = List.length ps).
  { induction ps as [|p ps IHp]; intros e0 l e0' H.
    - injection H as <- _. reflexivity.
    - simpl in H. unfold bind in H.
      destruct (Game.spawn_ai p e0) as [[a ea]|]; [|discriminate].
      destruct (Game.spawn_all ps ea) as [[l' eb]|] eqn:El; [|discriminate].
      injection H as <- _. simpl. f_equal. eapply IHp; eauto. }
  cbn. apply (Hlen _ _ _ _ Hspawn).
Qed.

(** ** What a tick does to the score and the player's length *)

Lemma eat_and_bounce_score (g : Game.t) (e : Env) :
  well_formed g ->
  exists g' e',
    Game.eat_and_bounce g e = Ok (g', e') /\
    ((Game.playerSnake g' = Game.playerSnake g /\ Game.score g' = Game.score g) \/
     (exists p, Snake.grow (Game.playerSnake g) = Ok p /\
                Game.playerSnake g' = p /\ Game.score g' = Game.score g + 10)).
Proof.
  intros Hwf.
  destruct (eat_and_bounce_ok g e Hwf) as (g1 & e' & ais & Heat & _ & Hrun & _).
  exists (Game.set_aiSnakes ais g1), e'. split; [exact Hrun|].
  destruct Hwf as (Hp & _).
  destruct (Snake.segments (Game.playerSnake g)) as [|head rest] eqn:E; [congruence|].
  destruct (eat_ok g e head rest E) as [(_ & H) | (_ & p & f & n & Hgrow & _ & H)];
    rewrite H in Heat; injection Heat as <- _.
  - left. split; reflexivity.
  - right. exists p. repeat split. exact Hgrow.
Qed.

Lemma resolve_score (g : Game.t) (e : Env) :
  well_formed g ->
  exists g' e',
    Game.resolve g e = Ok (g', e') /\
    ((Game.playerSnake g' = Game.playerSnake g /\ Game.score g' = Game.score g) \/
     (exists p, Snake.grow (Game.playerSnake g) = Ok p /\
                Game.playerSnake g' = p /\ Game.score g' = Game.score g + 10)).
Proof.
  intros Hwf. pose proof (eat_and_bounce_score g e Hwf) as Heb.
  assert (Hover : exists g' e',
             Game.gameOver g e = Ok (g', e') /\
             ((Game.playerSnake g' = Game.playerSnake g /\ Game.score g' = Game.score g) \/
              (exists p, Snake.grow (Game.playerSnake g) = Ok p /\
                         Game.playerSnake g' = p /\ Game.score g' = Game.score g + 10))).
  { rewrite gameOver_eq. eexists; eexists. split; [reflexivity|]. left. split; reflexivity. }
  unfold Game.resolve. destruct (negb (Game.isGracePeriod g)); [|exact Heb].
  destruct Hwf as (Hp & _).
  destruct (Snake.segments (Game.playerSnake g)) as [|head rest] eqn:E; [congruence|].
  destruct (checkWallCollision_cons Game.canvas_width Game.canvas_height _ _ _ E)
    as (wall & Hw).
  unfold bind at 1. unfold lift at 1. rewrite Hw.
  destruct (wall || Snake.checkSelfCollision (Game.playerSnake g)); [exact Hover|].
  unfold bind, lift. rewrite (hits_ai_eq _ _ _ _ E).
  destruct (existsb _ _); [exact Hover | exact Heb].
Qed.

Lemma update_score (dt : Q) (g : Game.t) (e : Env) :
  well_formed g -> random_in_range e ->
  exists g' e',
    Game.update dt g e = Ok (g', e') /\
    (Game.score g' = Game.score g \/ Game.score g' = Game.score g + 10) /\
    (length_matches_score g -> length_matches_score g').
Proof.
  intros Hwf Hr. unfold Game.update.
  destruct (Game.isGameOver g); [exists g, e; auto|].
  destruct (Game.isWaitingToStart g).
  { unfold Game.await_start.
    destruct (InputHandler.checkStartPressed (Game.inputHandler g)) as [pressed h].
    destruct (if pressed then (true, h) else InputHandler.checkPauseToggle h) as [go h'].
    destruct go; eexists; eexists; (split; [reflexivity|]); split; auto. }
  destruct (pause_toggle_frame g e) as (g1 & e1 & Hrun & Fp & Fa & Fs & _ & _ & Hsrc).
  assert (Hwf1 : well_formed g1).
  { destruct Hwf as (Hp & Hai). split; [now rewrite Fp | now rewrite Fa]. }
  assert (Hr1 : random_in_range e1) by (eapply random_in_range_sources; eauto).
  unfold bind at 1. rewrite Hrun.
  destruct (Game.isPaused g1).
  { exists g1, e1. split; [reflexivity|]. split; [auto|].
    unfold length_matches_score. now rewrite Fp, Fs. }
  destruct (move_ok dt g1 e1 Hwf1 Hr1)
    as (gm & em & Hmove & _ & _ & Hpl & _ & Hs & _ & _ & _ & Hwfm & _ & _).
  destruct (resolve_score gm em Hwfm) as (g' & e' & Hres & Hcases).
  exists g', e'. unfold bind. rewrite Hmove. split; [exact Hres|].
  destruct Hpl as (head & rest & E1 & Em).
  assert (Hlen : List.length (Snake.segments (Game.playerSnake gm)) =
                 List.length (Snake.segments (Game.playerSnake g))).
  { rewrite Em, <- Fp, E1. simpl List.length. f_equal. apply length_removelast_cons. }
  destruct Hcases as [(Hp' & Hs') | (p & Hgrow & Hp' & Hs')].
  - split; [left; congruence|]. unfold length_matches_score.
    rewrite Hp', Hs', Hs, Fs, Hlen. auto.
  - split; [right; congruence|]. unfold length_matches_score.
    destruct (Snake_grow_cons _ _ _ Em) as (p' & Hgrow' & _ & Hlen').
    rewrite Hgrow in Hgrow'. injection Hgrow' as <-.
    rewrite Hp', Hs', Hs, Fs, Hlen', Hlen. lia.
Qed.

(** ** Sessions: the page opens and events arrive *)

Lemma fresh_game_sound (now : Z) (lm lf : Q) (ais : list AISnake.t) (f : Food.t) :
  Forall ai_well_formed ais ->
  sound (Game.mk 0 false false true now true 1 1 1 BASE_MOVE_INTERVAL lm lf
                 InputHandler.new (mkVec 1 0)
                 (Snake.new Game.playerStartX Game.playerStartY true 6) ais f).
Proof.
  intros H. split; [split; [discriminate | exact H]|]. split; [reflexivity|].
  simpl. lia.
Qed.

Lemma update_sound (dt : Q) (g : Game.t) (e : Env) :
  sound g -> random_in_range e ->
  exists g' e', Game.update dt g e = Ok (g', e') /\ sound g' /\ random_in_range e'.
Proof.
  intros (Hwf & Hlen & Hs) Hr.
  destruct (update_well_formed dt g e Hwf Hr) as (g' & e' & Hrun & Hwf' & Hr').
  destruct (update_score dt g e Hwf Hr) as (g'' & e'' & Hrun' & Hsc & Hl).
  rewrite Hrun in Hrun'. injection Hrun' as <- <-.
  exists g', e'. split; [exact Hrun|]. split; [|exact Hr'].
  split; [exact Hwf'|]. split; [auto | lia].
Qed.

Lemma gameLoop_sound (currentTime : Q) (g : Game.t) (e : Env) :
  sound g -> random_in_range e ->
  exists g' e', Game.gameLoop currentTime g e = Ok (g', e') /\ sound g' /\ random_in_range e'.
Proof.
  intros Hs Hr. unfold Game.gameLoop.
  set (g0 := Game.set_lastFrameTime currentTime g).
  assert (Hs0 : sound g0) by exact Hs.
  destruct (Qle_bool (Game.moveInterval g0) (currentTime - Game.lastMoveTime g0)).
  - destruct (update_sound (currentTime - Game.lastFrameTime g)%Q g0 e Hs0 Hr)
      as (g1 & e1 & Hrun & Hs1 & Hr1).
    unfold bind at 1. unfold bind at 1. rewrite Hrun.
    eexists; eexists. split; [reflexivity|]. split; [exact Hs1 | exact Hr1].
  - eexists; eexists. split; [reflexivity|]. split; [exact Hs0 | exact Hr].
Qed.

Lemma restart_sound (g : Game.t) (e : Env) :
  random_in_range e ->
  exists g' e', Game.restart g e = Ok (g', e') /\ sound g' /\ random_in_range e'.
Proof.
  intros Hr. unfold Game.restart.
  unfold bind at 1. rewrite Date_now_eq.
  unfold bind at 1. unfold write at 1.
  match goal with |- context [bind (Game.spawn_all _) _ ?e0] => set (e1 := e0) end.
  assert (Hr1 : random_in_range e1) by exact Hr.
  destruct (spawn_all_ok Game.spawnPositions e1 Hr1) as (ais & e2 & Hspawn & Hall & Hd).
  unfold bind at 1. rewrite Hspawn.
  destruct (respawn_draws Game.canvas_width Game.canvas_height
              (Snake.new Game.playerStartX Game.playerStartY true 6
               :: map AISnake.base ais) (Game.food g) e2) as (f & n & Hre).
  unfold bind at 1. rewrite Hre.
  eexists; eexists. split; [reflexivity|].
  split; [now apply fresh_game_sound|].
  intros k. cbn. destruct Hd as [m ->]. apply Hr.
Qed.

Lemma handle_sound (ev : event) (g : Game.t) (e : Env) :
  sound g -> random_in_range e ->
  exists g' e', handle ev g e = Ok (g', e') /\ sound g' /\ random_in_range e'.
Proof.
  intros Hs Hr. destruct ev; simpl.
  - eexists; eexists. split; [reflexivity|]. split; [exact Hs | exact Hr].
  - eexists; eexists. split; [reflexivity|]. split; [exact Hs | exact Hr].
  - now apply gameLoop_sound.
  - eexists; eexists. split; [reflexivity|]. split; [exact Hs | exact Hr].
  - eexists; eexists. split; [reflexivity|]. split; [exact Hs | exact Hr].
  - now apply restart_sound.
Qed.

Lemma play_sound (evs : list event) :
  forall g e, sound g -> random_in_range e ->
  exists g' e', play evs g e = Ok (g', e') /\ sound g' /\ random_in_range e'.
Proof.
  induction evs as [|ev evs IH]; intros g e Hs Hr.
  - exists g, e. auto.
  - destruct (handle_sound ev g e Hs Hr) as (g1 & e1 & Hrun & Hs1 & Hr1).
    destruct (IH g1 e1 Hs1 Hr1) as (g' & e' & Hrun' & Hs' & Hr').
    exists g', e'. simpl. unfold bind. rewrite Hrun. auto.
Qed.

Lemma new_sound (e : Env) :
  random_in_range e ->
  exists g e', Game.new e = Ok (g, e') /\ sound g /\ random_in_range e'.
Proof.
  intros Hr. unfold Game.new.
  unfold bind at 1. rewrite Date_now_eq.
  assert (Hr0 : random_in_range (clock_read e)) by exact Hr.
  destruct (spawn_all_ok Game.spawnPositions (clock_read e) Hr0)
    as (ais & e1 & Hspawn & Hall & Hd1).
  unfold bind at 1. rewrite Hspawn.
  destruct (respawn_draws Game.canvas_width Game.canvas_height
              (Snake.new Game.playerStartX Game.playerStartY true 6
               :: map AISnake.base ais) (Food.new 0 0) e1) as (f & n & Hre).
  unfold bind at 1. rewrite Hre.
  eexists; eexists. split; [reflexivity|].
  split; [now apply fresh_game_sound|].
  intros k. cbn. destruct Hd1 as [m ->]. apply Hr.
Qed.

(** X1: a session never raises a [TypeError]: whatever keys, frames and
    clicks arrive after the page has opened, every listener returns, and
    every snake still has a head. *)
Theorem X1_session_never_throws (evs : list event) (e : Env) :
  random_in_range e ->
  exists g e',
    session evs e = Ok (g, e') /\
    Snake.segments (Game.playerSnake g) <> [] /\
    Forall (fun a => Snake.segments (AISnake.base a) <> []) (Game.aiSnakes g).
Proof.
  intros Hr. destruct (new_sound e Hr) as (g0 & e0 & Hnew & Hs0 & Hr0).
  destruct (play_sound evs g0 e0 Hs0 Hr0) as (g & e' & Hrun & ((Hp & Hai) & _) & _).
  exists g, e'. unfold session, bind. rewrite Hnew. split; [exact Hrun|].
  split; [exact Hp|]. eapply Forall_impl; [|exact Hai]. intros a Ha. apply Ha.
Qed.

(** The theorem on a session with a start, two turns of the loop, a speed
    click and a restart. *)
Lemma X1_session_never_throws_witness :
  exists g e',
    session [KeyDownEvent "Enter"; FrameEvent 125; KeyDownEvent "w"; FrameEvent 250;
             SpeedUpClick; FrameEvent 400; RestartClick] (half_draws 0) = Ok (g, e') /\
    Snake.segments (Game.playerSnake g) <> [].
Proof.
  destruct (X1_session_never_throws
              [KeyDownEvent "Enter"; FrameEvent 125; KeyDownEvent "w"; FrameEvent 250;
               SpeedUpClick; FrameEvent 400; RestartClick] (half_draws 0)
              (half_draws_in_range 0))
    as (g & e' & Hrun & Hp & _).
  exists g, e'. split; [exact Hrun | exact Hp].
Defined.

(** X3: in every state of a session the player has six segments plus one
    per ten points, and the score is a non-negative multiple of ten. *)
Theorem X3_length_matches_score (evs : list event) (e : Env) :
  random_in_range e ->
  exists g e',
    session evs e = Ok (g, e') /\
    Z.of_nat (List.length (Snake.segments (Game.playerSnake g))) = 6 + Game.score g / 10 /\
    0 <= Game.score g /\ Game.score g mod 10 = 0.
Proof.
  intros Hr. destruct (new_sound e Hr) as (g0 & e0 & Hnew & Hs0 & Hr0).
  destruct (play_sound evs g0 e0 Hs0 Hr0) as (g1 & e1 & Hrun1 & (_ & Hlen & Hs) & _).
  exists g1, e1. unfold session, bind. rewrite Hnew. split; [exact Hrun1|].
  unfold length_matches_score in Hlen.
  set (n := Z.of_nat (List.length (Snake.segments (Game.playerSnake g1)))) in *.
  assert (Hsc : Game.score g1 = (n - 6) * 10) by lia.
  rewrite Hsc. rewrite Z.div_mul, Z.mod_mul by lia. lia.
Qed.

(** The theorem on a session of two ticks. *)
Lemma X3_length_matches_score_witness :
  exists g e',
    session [KeyDownEvent "Enter"; FrameEvent 125; FrameEvent 250] (half_draws 0)
      = Ok (g, e') /\
    Game.score g mod 10 = 0.
Proof.
  destruct (X3_length_matches_score
              [KeyDownEvent "Enter"; FrameEvent 125; FrameEvent 250] (half_draws 0)
              (half_draws_in_range 0))
    as (g & e' & Hrun & _ & _ & Hm).
  exists g, e'. split; [exact Hrun | exact Hm].
Defined.

(** ** The input handler between two ticks *)

Lemma step_keeps_pauseKeyWasDown (h : InputHandler.t) (c : InputHandler.call) :
  releases_pause c = false ->
  InputHandler.pauseKeyWasDown h = true ->
  InputHandler.pauseKeyWasDown (InputHandler.step h c) = true.
Proof.
  intros Hc Hw. destruct c as [k | k | | |]; simpl in *.
  - unfold InputHandler.handleKeyDown, InputHandler.submit. case_ifs; simpl; auto.
  - unfold InputHandler.handleKeyUp. rewrite Hc. case_ifs; simpl; auto.
  - unfold InputHandler.getNextDirection.
    destruct (InputHandler.directionQueue h); simpl; [auto|]. case_ifs; simpl; auto.
  - unfold InputHandler.checkStartPressed. case_ifs; simpl; auto.
  - unfold InputHandler.checkPauseToggle. case_ifs; simpl; auto.
Qed.

(** X4: the pause toggle is edge-triggered. Once [checkPauseToggle] has
    returned true it returns false after any calls that do not release the
    pause key, however often the key repeats; after a release, one more
    press makes it return true again. *)
Theorem X4_pause_toggle_needs_release (h : InputHandler.t) (cs : list InputHandler.call) :
  fst (InputHandler.checkPauseToggle h) = true ->
  forallb (fun c => negb (releases_pause c)) cs = true ->
  let held := InputHandler.run cs (snd (InputHandler.checkPauseToggle h)) in
  fst (InputHandler.checkPauseToggle held) = false /\
  fst (InputHandler.checkPauseToggle
         (InputHandler.handleKeyDown "p" (InputHandler.handleKeyUp "p" held))) = true.
Proof.
  intros Ht Hcs held.
  assert (Hw : InputHandler.pauseKeyWasDown held = true).
  { unfold held, InputHandler.run.
    assert (H0 : InputHandler.pauseKeyWasDown (snd (InputHandler.checkPauseToggle h)) = true).
    { unfold InputHandler.checkPauseToggle in *.
      destruct (InputHandler.pauseKeyDown h && negb (InputHandler.pauseKeyWasDown h));
        [reflexivity | discriminate]. }
    revert H0. generalize (snd (InputHandler.checkPauseToggle h)).
    induction cs as [|c cs IH]; intros h0 H0; [exact H0|].
    simpl in Hcs. apply andb_true_iff in Hcs. destruct Hcs as [Hc Hcs].
    simpl. apply IH; [exact Hcs|]. apply step_keeps_pauseKeyWasDown; [|exact H0].
    now apply negb_true_iff. }
  split.
  - unfold InputHandler.checkPauseToggle. rewrite Hw.
    now rewrite andb_false_r.
  - reflexivity.
Qed.

(** The theorem with the key held through a repeat and a tick. *)
Lemma X4_pause_toggle_needs_release_witness :
  fst (InputHandler.checkPauseToggle
         (InputHandler.run [InputHandler.KeyDown "p"; InputHandler.GetNextDirection;
                            InputHandler.KeyDown "P"]
            (snd (InputHandler.checkPauseToggle
                    (InputHandler.handleKeyDown "p" InputHandler.new))))) = false.
Proof.
  apply (X4_pause_toggle_needs_release
           (InputHandler.handleKeyDown "p" InputHandler.new)
           [InputHandler.KeyDown "p"; InputHandler.GetNextDirection;
            InputHandler.KeyDown "P"]); reflexivity.
Defined.

(** X5: the direction queue never holds more than three entries: in every
    reachable state its entries and the committed heading are unit
    directions, and the heading that [getNextDirection] returns is one too
    (the player always moves exactly one cell a tick). *)
Theorem X5_queue_at_most_three (cs : list InputHandler.call) :
  let h := InputHandler.run cs InputHandler.new in
  (List.length (InputHandler.directionQueue h) <= 3)%nat /\
  Forall (fun d => is_unit d = true) (InputHandler.directionQueue h) /\
  is_unit (InputHandler.currentDirection h) = true /\
  is_unit (fst (InputHandler.getNextDirection h)) = true.
Proof.
  intros h.
  destruct (queue_ok_run cs InputHandler.new queue_ok_new) as (Hc & Hu & Hn & Hi).
  fold h in Hc, Hu, Hn, Hi.
  split; [|split; [exact Hu | split; [exact Hc|]]].
  - assert (Hnd : NoDup (InputHandler.currentDirection h :: InputHandler.directionQueue h))
      by now constructor.
    assert (Hincl : incl (InputHandler.currentDirection h :: InputHandler.directionQueue h)
                         [RIGHT; LEFT; DOWN; UP]).
    { intros d [<- | Hd].
      - apply is_unit_cases in Hc. simpl. intuition.
      - rewrite Forall_forall in Hu. apply Hu, is_unit_cases in Hd. simpl. intuition. }
    pose proof (NoDup_incl_length Hnd Hincl) as Hlen. simpl in Hlen. lia.
  - pose proof (queue_ok_getNextDirection h (conj Hc (conj Hu (conj Hn Hi)))) as (Hc' & _).
    destruct (getNextDirection_no_reverse h Hc) as [-> _]. exact Hc'.
Qed.

Lemma filter_filter_same {A : Type} (f : A -> bool) (l : list A) :
  filter f (filter f l) = filter f l.
Proof.
  induction l as [|a l IH]; [reflexivity|]. simpl.
  destruct (f a) eqn:E; simpl; [rewrite E; f_equal|]; exact IH.
Qed.

Lemma submit_twice (d : Vec) (h : InputHandler.t) :
  InputHandler.submit d (InputHandler.submit d h) = InputHandler.submit d h.
Proof.
  unfold InputHandler.submit at 2.
  destruct (is_reverse d (InputHandler.currentDirection h)) eqn:R.
  - unfold InputHandler.submit. now rewrite R.
  - cbn [InputHandler.currentDirection InputHandler.directionQueue
         InputHandler.set_directionQueue].
    assert (Hdd : differs d d = false).
    { rewrite differs_same_cell. apply negb_false_iff. now apply same_cell_eq. }
    destruct (differs d (InputHandler.currentDirection h)) eqn:D;
      unfold InputHandler.submit;
      cbn [InputHandler.currentDirection InputHandler.directionQueue
           InputHandler.set_directionQueue];
      rewrite R, D.
    + rewrite filter_app, filter_filter_same. simpl. rewrite Hdd.
      now rewrite app_nil_r.
    + now rewrite filter_filter_same.
Qed.

(** X6: a repeated key is absorbed. Handling the same [keydown] twice in a
    row (the auto-repeat of a held key) leaves the handler as handling it
    once: the queue does not grow. *)
Theorem X6_key_repeat_is_absorbed (k : string) (h : InputHandler.t) :
  InputHandler.handleKeyDown k (InputHandler.handleKeyDown k h) =
  InputHandler.handleKeyDown k h.
Proof.
  unfold InputHandler.handleKeyDown.
  case_ifs; try apply submit_twice; reflexivity.
Qed.

(** ** Snake: how [update], [grow] and the collision tests compose *)

(** X7: stepping back onto the second segment is a self-collision. When a
    snake of at least three segments moves by the direction that leads from
    its head to its second segment (a 180-degree reversal of a snake that
    went straight), [checkSelfCollision] holds after the move. *)
Theorem X7_reversal_hits_self (s : Snake.t) (direction head second third : Vec)
  (rest : list Vec) :
  Snake.segments s = head :: second :: third :: rest ->
  head.(x) + direction.(x) * GRID_SIZE = second.(x) ->
  head.(y) + direction.(y) * GRID_SIZE = second.(y) ->
  exists s', Snake.update direction s = Ok s' /\ Snake.checkSelfCollision s' = true.
Proof.
  intros E Hx Hy.
  destruct (Snake_update_cons direction head (second :: third :: rest) s E)
    as (s' & Hu & Hs & _).
  exists s'. split; [exact Hu|]. unfold Snake.checkSelfCollision. rewrite Hs, Hx, Hy.
  simpl. rewrite (proj2 (same_cell_eq _ second)) by now destruct second.
  now rewrite orb_true_r.
Qed.

(** The theorem on the player's opening snake turned left. *)
Lemma X7_reversal_hits_self_witness :
  exists s',
    Snake.update LEFT (Snake.new 510 330 true 6) = Ok s' /\
    Snake.checkSelfCollision s' = true.
Proof.
  apply (X7_reversal_hits_self (Snake.new 510 330 true 6) LEFT
           (mkVec 510 330) (mkVec 490 330) (mkVec 470 330)
           [mkVec 450 330; mkVec 430 330; mkVec 410 330]); reflexivity.
Defined.

(** X8: [grow] shows at the next step. After [grow], one [update] puts the
    new head in front of all the cells the snake had before: no cell is
    given up, the tail stays where it was. *)
Theorem X8_grow_then_update_keeps_every_cell
  (direction head : Vec) (rest : list Vec) (player : bool) (timer : Q) (eyes : bool) :
  let s := Snake.mk (head :: rest) player timer eyes in
  exists grown moved,
    Snake.grow s = Ok grown /\
    Snake.update direction grown = Ok moved /\
    Snake.segments moved =
      mkVec (head.(x) + direction.(x) * GRID_SIZE) (head.(y) + direction.(y) * GRID_SIZE)
      :: head :: rest.
Proof.
  intros s.
  destruct (Snake_grow_cons head rest s eq_refl) as (grown & Hg & Hsegs & _).
  simpl app in Hsegs.
  destruct (Snake_update_cons direction head _ grown Hsegs) as (moved & Hu & Hm & _).
  exists grown, moved. split; [exact Hg|]. split; [exact Hu|]. rewrite Hm. f_equal.
  change (removelast ((head :: rest) ++ [last (head :: rest) head]) = head :: rest).
  apply removelast_last.
Qed.

(** ** Food: where [respawn] can put it *)

Lemma sample_in_arena (e : Env) (i : nat) :
  random_in_range e ->
  let p := sample_at CANVAS_WIDTH CANVAS_HEIGHT e i in
  10 <= p.(x) <= 970 /\ 10 <= p.(y) <= 610 /\
  (p.(x) - 10) mod 20 = 0 /\ (p.(y) - 10) mod 20 = 0.
Proof.
  intros Hr p. unfold p, sample_at, CANVAS_WIDTH, CANVAS_HEIGHT, GRID_SIZE.
  cbn [x y].
  change ((1000 - 20) / 20) with 49. change ((650 - 20) / 20) with 31.
  change (20 / 2) with 10.
  set (r1 := random_values e _). set (r2 := random_values e _).
  assert (H1 : 0 <= Qfloor (r1 * inject_Z 49) < 49).
  { apply floor_draw_range; try apply Hr. reflexivity. }
  assert (H2 : 0 <= Qfloor (r2 * inject_Z 31) < 31).
  { apply floor_draw_range; try apply Hr. reflexivity. }
  set (a := Qfloor (r1 * inject_Z 49)) in *. set (b := Qfloor (r2 * inject_Z 31)) in *.
  replace (a * 20 + 10 - 10) with (a * 20) by lia.
  replace (b * 20 + 10 - 10) with (b * 20) by lia.
  rewrite !Z.mod_mul by lia. lia.
Qed.

(** Where [respawn] puts the food on the game's canvas. *)
Lemma respawn_in_arena (snakes : list Snake.t) (food : Food.t) (e : Env) :
  random_in_range e ->
  exists food' n,
    Food.respawn CANVAS_WIDTH CANVAS_HEIGHT snakes food e = Ok (food', drawn (2 * n) e) /\
    (1 <= n <= 100)%nat /\
    10 <= food'.(x) <= 970 /\ 10 <= food'.(y) <= 610 /\
    (food'.(x) - 10) mod 20 = 0 /\ (food'.(y) - 10) mod 20 = 0 /\
    forall rest player timer eyes,
      Snake.checkWallCollision CANVAS_WIDTH CANVAS_HEIGHT
        (Snake.mk (food' :: rest) player timer eyes) = Ok false.
Proof.
  intros Hr.
  assert (Hwall : forall p : Vec,
             10 <= p.(x) <= 970 -> 10 <= p.(y) <= 610 ->
             forall rest player timer eyes,
               Snake.checkWallCollision CANVAS_WIDTH CANVAS_HEIGHT
                 (Snake.mk (p :: rest) player timer eyes) = Ok false).
  { intros p Hx Hy rest player timer eyes.
    unfold Snake.checkWallCollision, CANVAS_WIDTH, CANVAS_HEIGHT, GRID_SIZE. cbn.
    f_equal. rewrite !orb_false_iff, !Z.ltb_ge, !Z.geb_leb, !Z.leb_gt. lia. }
  unfold Food.respawn, bind.
  destruct (respawn_loop_spec 100 CANVAS_WIDTH CANVAS_HEIGHT snakes food e)
    as [(i & Hi & -> & _) | (-> & _)].
  - destruct (sample_in_arena e i Hr) as (Hx & Hy & Hmx & Hmy).
    exists (sample_at CANVAS_WIDTH CANVAS_HEIGHT e i), (S i).
    split; [reflexivity|]. split; [lia|]. repeat split; try tauto. now apply Hwall.
  - destruct (sample_in_arena e 99 Hr) as (Hx & Hy & Hmx & Hmy).
    exists (sample_at CANVAS_WIDTH CANVAS_HEIGHT e 99), 100%nat.
    split; [reflexivity|]. split; [lia|]. repeat split; try tauto. now apply Hwall.
Qed.

(** X9: the food is always put inside the walls and on the grid of the
    snakes. On the game's canvas [respawn] returns a cell with
    10 <= x <= 970 and 10 <= y <= 610, both of the form 20 k + 10, where
    [checkWallCollision] is false for a head; it consumes random draws
    only, two per attempt and at most 200. *)
Theorem X9_food_inside_the_walls (snakes : list Snake.t) (food : Food.t) (e : Env) :
  random_in_range e ->
  exists food' n,
    Food.respawn CANVAS_WIDTH CANVAS_HEIGHT snakes food e = Ok (food', drawn (2 * n) e) /\
    (1 <= n <= 100)%nat /\
    10 <= food'.(x) <= 970 /\ 10 <= food'.(y) <= 610 /\
    (food'.(x) - 10) mod 20 = 0 /\ (food'.(y) - 10) mod 20 = 0 /\
    forall rest player timer eyes,
      Snake.checkWallCollision CANVAS_WIDTH CANVAS_HEIGHT
        (Snake.mk (food' :: rest) player timer eyes) = Ok false.
Proof. exact (respawn_in_arena snakes food e). Qed.

(** The theorem with a snake on the corner cell and every draw 1/2. *)
Lemma X9_food_inside_the_walls_witness :
  exists food' n,
    Food.respawn CANVAS_WIDTH CANVAS_HEIGHT [corner_snake] (Food.new 0 0) (half_draws 0)
      = Ok (food', drawn (2 * n) (half_draws 0)) /\
    10 <= food'.(x) <= 970.
Proof.
  destruct (X9_food_inside_the_walls [corner_snake] (Food.new 0 0) (half_draws 0)
              (half_draws_in_range 0))
    as (food' & n & Hrun & _ & Hx & _).
  exists food', n. split; [exact Hrun | exact Hx].
Defined.

(** ** The speed controls *)



(** ** The AI policy: when it decides and what it may choose *)

Lemma interval_draw_range (r : Q) :
  (0 <= r)%Q -> (r < 1)%Q -> 4 <= 4 + Qfloor (r * 4) <= 7.
Proof.
  intros H0 H1.
  assert (H : 0 <= Qfloor (r * inject_Z 4) < 4) by (apply floor_draw_range; auto; reflexivity).
  change (inject_Z 4) with 4%Q in H. lia.
Qed.

(** X11: an AI snake decides every 4 to 7 ticks. [updateAI] keeps the
    countdown running; below the interval it only counts (no random draw,
    nothing else changes); on reaching it the timer restarts at 0 with a
    fresh interval; the snake's cells and heading are never touched, and a
    pending heading that changes becomes a unit direction that is not the
    reverse of the heading. *)
Theorem X11_ai_decides_every_4_to_7_ticks
  (canvasWidth canvasHeight : Z) (s : AISnake.t) (e : Env) :
  random_in_range e -> ai_well_formed s -> countdown_ok s ->
  exists s' e',
    AISnake.updateAI canvasWidth canvasHeight s e = Ok (s', e') /\
    countdown_ok s' /\
    AISnake.base s' = AISnake.base s /\
    AISnake.direction s' = AISnake.direction s /\
    (AISnake.aiTimer s + 1 < AISnake.aiChangeInterval s ->
     s' = AISnake.set_aiTimer (AISnake.aiTimer s + 1) s /\ e' = e) /\
    (AISnake.aiChangeInterval s <= AISnake.aiTimer s + 1 -> AISnake.aiTimer s' = 0) /\
    (AISnake.nextDirection s' = AISnake.nextDirection s \/
     (is_unit (AISnake.nextDirection s') = true /\
      is_reverse (AISnake.nextDirection s') (AISnake.direction s) = false)).
Proof.
  intros Hr Hwf ((Hi1 & Hi2) & (Ht1 & Ht2)).
  destruct (updateAI_ok canvasWidth canvasHeight s e Hr Hwf)
    as (s' & e' & Hrun & Hdraws & Hbase & Hdir & Hunit & Hnext).
  exists s', e'. split; [exact Hrun|].
  assert (Hshape :
            (AISnake.aiTimer s + 1 < AISnake.aiChangeInterval s /\
             s' = AISnake.set_aiTimer (AISnake.aiTimer s + 1) s /\ e' = e) \/
            (AISnake.aiChangeInterval s <= AISnake.aiTimer s + 1 /\
             AISnake.aiTimer s' = 0 /\
             AISnake.aiChangeInterval s' =
               4 + Qfloor (random_values e (random_count e) * 4))).
  { revert Hrun. unfold AISnake.updateAI.
    cbn [AISnake.aiTimer AISnake.aiChangeInterval AISnake.set_aiTimer
         AISnake.set_aiChangeInterval AISnake.base AISnake.direction].
    destruct (AISnake.aiTimer s + 1 >=? AISnake.aiChangeInterval s) eqn:G.
    - intros Hrun. right. rewrite Z.geb_leb in G. apply Z.leb_le in G.
      split; [exact G|].
      unfold bind at 1 in Hrun. rewrite Math_random_eq in Hrun.
      destruct (Snake.segments (AISnake.base s)) as [|head rest]; [discriminate|].
      unfold bind at 1 in Hrun.
      match type of Hrun with
      | context [(if ?b then _ else _) (drawn 1 e)] =>
          destruct ((if b then ret true
                     else r <- Math_random;; ret (Qlt_bool r (1 # 4))) (drawn 1 e))
            as [[c e1]|] eqn:Hc; [|discriminate]
      end.
      destruct c.
      + unfold bind in Hrun.
        destruct (Math_random e1) as [[r e2]|]; [|discriminate].
        destruct (array_get _ _) as [d|]; [|discriminate].
        injection Hrun as <- _. split; reflexivity.
      + injection Hrun as <- _. split; reflexivity.
    - intros Hrun. left. rewrite Z.geb_leb in G. apply Z.leb_gt in G.
      split; [exact G|]. injection Hrun as <- <-. split; reflexivity. }
  split.
  { destruct Hshape as [(Hlt & -> & _) | (Hge & Ht & Hi)].
    - unfold countdown_ok. cbn. lia.
    - unfold countdown_ok. rewrite Ht, Hi.
      pose proof (interval_draw_range _ (proj1 (Hr (random_count e)))
                    (proj2 (Hr (random_count e)))). lia. }
  split; [exact Hbase|]. split; [exact Hdir|].
  split; [|split].
  - intros Hlt. destruct Hshape as [(_ & H1 & H2) | (Hge & _)]; [auto | lia].
  - intros Hge. destruct Hshape as [(Hlt & _) | (_ & H & _)]; [lia | exact H].
  - destruct Hnext as [H | H]; [now left | right; split; assumption].
Qed.

(** The theorem on an AI snake at the start of its countdown. *)
Lemma X11_ai_decides_every_4_to_7_ticks_witness :
  exists s' e',
    AISnake.updateAI 1000 650 (falling_snake 150 150) (half_draws 0) = Ok (s', e') /\
    countdown_ok s'.
Proof.
  destruct (X11_ai_decides_every_4_to_7_ticks 1000 650 (falling_snake 150 150)
              (half_draws 0))
    as (s' & e' & Hrun & Hc & _).
  - apply half_draws_in_range.
  - apply falling_snake_well_formed.
  - unfold countdown_ok. simpl. lia.
  - exists s', e'. split; [exact Hrun | exact Hc].
Defined.

(** ** The phases of the game *)

Lemma set_inputHandler_same (g : Game.t) :
  Game.set_inputHandler (Game.inputHandler g) g = g.
Proof. now destruct g. Qed.

Lemma checkPauseToggle_false (h : InputHandler.t) :
  fst (InputHandler.checkPauseToggle h) = false ->
  InputHandler.checkPauseToggle h = (false, h).
Proof.
  unfold InputHandler.checkPauseToggle.
  destruct (InputHandler.pauseKeyDown h && negb (InputHandler.pauseKeyWasDown h));
    [discriminate | reflexivity].
Qed.

(** What [update] does outside the running phase, and at the tick that
    pauses. *)
Lemma update_outside_running (dt : Q) (g : Game.t) (e : Env) :
  Game.isGameOver g = true \/
  Game.isWaitingToStart g = true \/
  (Game.isPaused g = true /\
   fst (InputHandler.checkPauseToggle (Game.inputHandler g)) = false) \/
  (Game.isPaused g = false /\
   fst (InputHandler.checkPauseToggle (Game.inputHandler g)) = true) ->
  exists g' e',
    Game.update dt g e = Ok (g', e') /\
    Game.playerSnake g' = Game.playerSnake g /\
    Game.aiSnakes g' = Game.aiSnakes g /\
    Game.food g' = Game.food g /\
    Game.score g' = Game.score g /\
    Game.isGameOver g' = Game.isGameOver g /\
    random_count e' = random_count e /\
    (Game.isGameOver g = true -> g' = g /\ e' = e) /\
    (Game.isGameOver g = false -> Game.isWaitingToStart g = false ->
     Game.isPaused g' = true).
Proof.
  intros H. unfold Game.update.
  destruct (Game.isGameOver g) eqn:Ho.
  { exists g, e. repeat split; auto; discriminate. }
  destruct (Game.isWaitingToStart g) eqn:Hw.
  { unfold Game.await_start.
    destruct (InputHandler.checkStartPressed (Game.inputHandler g)) as [pressed h].
    destruct (if pressed then (true, h) else InputHandler.checkPauseToggle h) as [go h'].
    destruct go; eexists; eexists; (split; [reflexivity|]);
      repeat split; auto; discriminate. }
  destruct H as [H | [H | [(Hp & Ht) | (Hp & Ht)]]]; try discriminate.
  - unfold bind, Game.pause_toggle. rewrite (checkPauseToggle_false _ Ht).
    unfold ret. cbn [Game.isPaused Game.set_inputHandler]. rewrite Hp.
    eexists; eexists. split; [reflexivity|]. repeat split; auto; discriminate.
  - unfold bind, Game.pause_toggle.
    destruct (InputHandler.checkPauseToggle (Game.inputHandler g)) as [toggled h].
    simpl in Ht. subst toggled.
    unfold ret. cbn [Game.isPaused Game.set_isPaused Game.set_inputHandler negb].
    rewrite Hp. cbn [negb Game.isPaused Game.set_isPaused Game.set_inputHandler].
    eexists; eexists. split; [reflexivity|]. repeat split; auto; discriminate.
Qed.

(** X12: nothing moves unless the game is running. A call of [update] on
    a game that is over, or waiting for the start key, or paused with no
    fresh press of the pause key, or running with a fresh press of the
    pause key (the call then pauses it), leaves every snake, the food and
    the score as they were and draws no random number; on a game that is
    over it changes nothing at all. *)
Theorem X12_nothing_moves_unless_running (dt : Q) (g : Game.t) (e : Env) :
  Game.isGameOver g = true \/
  Game.isWaitingToStart g = true \/
  (Game.isPaused g = true /\
   fst (InputHandler.checkPauseToggle (Game.inputHandler g)) = false) \/
  (Game.isPaused g = false /\
   fst (InputHandler.checkPauseToggle (Game.inputHandler g)) = true) ->
  exists g' e',
    Game.update dt g e = Ok (g', e') /\
    Game.playerSnake g' = Game.playerSnake g /\
    Game.aiSnakes g' = Game.aiSnakes g /\
    Game.food g' = Game.food g /\
    Game.score g' = Game.score g /\
    Game.isGameOver g' = Game.isGameOver g /\
    random_count e' = random_count e /\
    (Game.isGameOver g = true -> g' = g /\ e' = e) /\
    (Game.isGameOver g = false -> Game.isWaitingToStart g = false ->
     Game.isPaused g' = true).
Proof. exact (update_outside_running dt g e). Qed.

(** The theorem on the tick that pauses a running game. *)
Lemma X12_nothing_moves_unless_running_witness :
  exists g' e',
    Game.update 125 (Game.set_isPaused false paused_game) (half_draws 0) = Ok (g', e') /\
    Game.playerSnake g' = Game.playerSnake paused_game /\
    Game.isPaused g' = true.
Proof.
  destruct (X12_nothing_moves_unless_running 125
              (Game.set_isPaused false paused_game) (half_draws 0))
    as (g' & e' & Hrun & Hpl & _ & _ & _ & _ & _ & _ & Hp).
  - right. right. right. split; reflexivity.
  - exists g', e'. split; [exact Hrun|]. split; [exact Hpl|]. apply Hp; reflexivity.
Defined.

(** X13: leaving the start screen. On a waiting game [update] starts the
    game exactly when the start flag is set or the pause key is freshly
    pressed; it then anchors the grace period at the clock read, raises the
    grace flag, hides the start screen and consumes the start flag, so one
    press starts once; otherwise the call changes nothing. *)
Theorem X13_start_on_key (dt : Q) (g : Game.t) (e : Env) :
  Game.isGameOver g = false ->
  Game.isWaitingToStart g = true ->
  let h := Game.inputHandler g in
  let go := InputHandler.startKeyPressed h
            || (InputHandler.pauseKeyDown h && negb (InputHandler.pauseKeyWasDown h)) in
  exists g' e',
    Game.update dt g e = Ok (g', e') /\
    Game.isWaitingToStart g' = negb go /\
    (go = true ->
     Game.gameStartTime g' = clock_values e (clock_count e) /\
     Game.isGracePeriod g' = true /\
     e' = wrote [HideStartScreen] (clock_read e) /\
     InputHandler.startKeyPressed (Game.inputHandler g') = false /\
     InputHandler.directionQueue (Game.inputHandler g') = InputHandler.directionQueue h /\
     InputHandler.currentDirection (Game.inputHandler g')
       = InputHandler.currentDirection h) /\
    (go = false -> g' = g /\ e' = e).
Proof.
  intros Ho Hw. cbv zeta. unfold Game.update. rewrite Ho, Hw.
  unfold Game.await_start, InputHandler.checkStartPressed.
  set (h := Game.inputHandler g).
  destruct (InputHandler.startKeyPressed h) eqn:Hs.
  - eexists; eexists. split; [reflexivity|]. split; [reflexivity|].
    split; [|discriminate]. intros _. repeat split.
  - unfold InputHandler.checkPauseToggle. simpl orb.
    destruct (InputHandler.pauseKeyDown h && negb (InputHandler.pauseKeyWasDown h)).
    + eexists; eexists. split; [reflexivity|]. split; [reflexivity|].
      split; [|discriminate]. intros _. cbn. repeat split. exact Hs.
    + exists g, e. split.
      { cbn. unfold ret. f_equal. f_equal. apply set_inputHandler_same. }
      split; [exact Hw|]. split; [discriminate | auto].
Qed.

(** The theorem on a waiting game with Enter pressed at time 700. *)
Lemma X13_start_on_key_witness :
  exists g' e',
    Game.update 125
      (Game.set_inputHandler (InputHandler.handleKeyDown "Enter" InputHandler.new)
         (Game.set_isWaitingToStart true bounce_game)) (half_draws 700) = Ok (g', e') /\
    Game.isWaitingToStart g' = false /\ Game.gameStartTime g' = 700.
Proof.
  destruct (X13_start_on_key 125
              (Game.set_inputHandler (InputHandler.handleKeyDown "Enter" InputHandler.new)
                 (Game.set_isWaitingToStart true bounce_game)) (half_draws 700)
              eq_refl eq_refl)
    as (g' & e' & Hrun & Hw & Hgo & _).
  exists g', e'. split; [exact Hrun|]. split; [exact Hw|].
  destruct (Hgo eq_refl) as (Hst & _). exact Hst.
Defined.

Lemma pause_key_down (k : string) (h : InputHandler.t) :
  ((toLowerCase k =? " ") || (toLowerCase k =? "p"))%string = true ->
  InputHandler.handleKeyDown k h =
  InputHandler.set_startKeyPressed true (InputHandler.set_pauseKeyDown true h).
Proof.
  intros Hk. unfold InputHandler.handleKeyDown.
  apply orb_true_iff in Hk. destruct Hk as [Hk | Hk];
    apply String.eqb_eq in Hk; rewrite Hk; reflexivity.
Qed.

(** X14: starting with the pause key pauses at once. Space and P both set
    the start flag and the pause flag; the start consumes only the start
    flag, so when the key is still down at the next call of [update] (no
    [keyup] in between) that call takes it as a fresh pause press: the game
    that has just started is paused before any snake has moved. *)
Theorem X14_start_with_space_then_paused (dt1 dt2 : Q) (k : string) (g : Game.t) (e : Env) :
  Game.isGameOver g = false ->
  Game.isWaitingToStart g = true ->
  Game.isPaused g = false ->
  InputHandler.pauseKeyWasDown (Game.inputHandler g) = false ->
  ((toLowerCase k =? " ") || (toLowerCase k =? "p"))%string = true ->
  let pressed :=
    Game.set_inputHandler (InputHandler.handleKeyDown k (Game.inputHandler g)) g in
  exists g1 e1 g2 e2,
    Game.update dt1 pressed e = Ok (g1, e1) /\
    Game.isWaitingToStart g1 = false /\ Game.isPaused g1 = false /\
    Game.update dt2 g1 e1 = Ok (g2, e2) /\
    Game.isPaused g2 = true /\
    Game.playerSnake g2 = Game.playerSnake g /\
    Game.aiSnakes g2 = Game.aiSnakes g /\
    Game.food g2 = Game.food g /\
    Game.score g2 = Game.score g.
Proof.
  intros Ho Hw Hp Hwd Hk pressed.
  destruct (update_outside_running dt1 pressed e) as
    (g1 & e1 & Hrun1 & Fp1 & Fa1 & Ff1 & Fs1 & Fo1 & _); [right; left; exact Hw|].
  assert (Hshape : Game.isWaitingToStart g1 = false /\ Game.isPaused g1 = false /\
                   fst (InputHandler.checkPauseToggle (Game.inputHandler g1)) = true).
  { revert Hrun1. unfold Game.update, pressed.
    cbn [Game.isGameOver Game.isWaitingToStart Game.set_inputHandler]. rewrite Ho, Hw.
    unfold Game.await_start. cbn [Game.inputHandler Game.set_inputHandler].
    rewrite (pause_key_down k _ Hk).
    unfold InputHandler.checkStartPressed.
    cbn [InputHandler.startKeyPressed InputHandler.set_startKeyPressed
         InputHandler.set_pauseKeyDown].
    intros Hrun. injection Hrun as <- _. cbn.
    unfold InputHandler.checkPauseToggle. cbn. rewrite Hp, Hwd. auto. }
  destruct Hshape as (Hw1 & Hp1 & Ht1).
  destruct (update_outside_running dt2 g1 e1) as
    (g2 & e2 & Hrun2 & Fp2 & Fa2 & Ff2 & Fs2 & Fo2 & _ & _ & Hpaused).
  { right. right. right. split; assumption. }
  change (Game.playerSnake pressed) with (Game.playerSnake g) in Fp1.
  change (Game.aiSnakes pressed) with (Game.aiSnakes g) in Fa1.
  change (Game.food pressed) with (Game.food g) in Ff1.
  change (Game.score pressed) with (Game.score g) in Fs1.
  change (Game.isGameOver pressed) with (Game.isGameOver g) in Fo1.
  exists g1, e1, g2, e2. split; [exact Hrun1|]. split; [exact Hw1|]. split; [exact Hp1|].
  split; [exact Hrun2|]. split; [apply Hpaused; [congruence | exact Hw1]|].
  repeat split; congruence.
Qed.

(** The theorem on a waiting game started with Space. *)
Lemma X14_start_with_space_then_paused_witness :
  exists g1 e1 g2 e2,
    Game.update 125
      (Game.set_inputHandler (InputHandler.handleKeyDown " " InputHandler.new)
         (Game.set_isWaitingToStart true bounce_game)) (half_draws 0) = Ok (g1, e1) /\
    Game.update 125 g1 e1 = Ok (g2, e2) /\
    Game.isPaused g2 = true.
Proof.
  destruct (X14_start_with_space_then_paused 125 125 " "
              (Game.set_isWaitingToStart true bounce_game) (half_draws 0)
              eq_refl eq_refl eq_refl eq_refl eq_refl)
    as (g1 & e1 & g2 & e2 & H1 & _ & _ & H2 & Hp & _).
  exists g1, e1, g2, e2. split; [exact H1|]. split; [exact H2 | exact Hp].
Defined.

(** ** A new game: the constructor and [restart] *)

Lemma spawn_ai_fresh (spawnPos : Vec) (e : Env) :
  random_in_range e ->
  exists a, Game.spawn_ai spawnPos e = Ok (a, drawn 4 e) /\ fresh_ai spawnPos a.
Proof.
  intros Hr. unfold Game.spawn_ai.
  unfold bind at 1. rewrite Math_random_eq.
  unfold bind at 1. rewrite Math_random_eq.
  set (r1 := random_values e (random_count e)).
  set (r2 := random_values (drawn 1 e) (random_count (drawn 1 e))).
  destruct (array_get_in_range directions
              (Qfloor (r2 * inject_Z (Z.of_nat (List.length directions)))))
    as (d & Hget & Hin).
  { apply floor_draw_range; try apply Hr. reflexivity. }
  rewrite Hget. unfold AISnake.new.
  unfold bind at 1. unfold bind at 1. rewrite Math_random_eq.
  unfold bind at 1. rewrite Math_random_eq.
  rewrite !drawn_drawn. eexists. split; [reflexivity|].
  assert (Hd : is_unit d = true).
  { apply is_unit_cases. unfold directions in Hin. simpl in Hin.
    unfold RIGHT, LEFT, DOWN, UP. intuition. }
  assert (H1 : 0 <= Qfloor (r1 * 3) < 3).
  { apply (floor_draw_range r1 3); try apply Hr. reflexivity. }
  unfold fresh_ai.
  cbn [AISnake.base Snake.segments Snake.set_eyeBlinkTimer AISnake.set_direction
       AISnake.set_nextDirection AISnake.direction AISnake.nextDirection
       AISnake.aiTimer AISnake.aiChangeInterval Snake.new].
  split.
  { exists (Z.to_nat (6 + Qfloor (r1 * 3))). split; [lia|]. reflexivity. }
  split; [reflexivity|]. split; [exact Hd|]. split; [reflexivity|].
  apply interval_draw_range; apply Hr.
Qed.

Lemma spawn_all_fresh (positions : list Vec) :
  forall e, random_in_range e ->
  exists ais,
    Game.spawn_all positions e = Ok (ais, drawn (4 * List.length positions) e) /\
    Forall2 fresh_ai positions ais.
Proof.
  induction positions as [|pos rest IH]; intros e Hr.
  - exists []. simpl. rewrite drawn_0. split; [reflexivity | constructor].
  - destruct (spawn_ai_fresh pos e Hr) as (a & Ha & Hf).
    assert (Hr1 : random_in_range (drawn 4 e)) by exact Hr.
    destruct (IH (drawn 4 e) Hr1) as (ais & Hrest & Hall).
    exists (a :: ais). simpl Game.spawn_all. unfold bind. rewrite Ha, Hrest.
    rewrite drawn_drawn. split; [|now constructor].
    unfold ret. do 3 f_equal. simpl List.length. lia.
Qed.

(** X2: the opening position. The constructor returns a game that waits for
    the start key with score 0 and every speed at 1: the player has six
    segments heading right from (510, 330), the four AI snakes have 6 to 8
    segments at the four spawn cells with a unit heading and a countdown of
    4 to 7 ticks, the food is inside the walls, the grace anchor is the
    first clock read, and the dashboard is the only thing written. *)
Theorem X2_opening_position (e : Env) :
  random_in_range e ->
  exists g e',
    Game.new e = Ok (g, e') /\
    fresh g /\
    Game.gameStartTime g = clock_values e (clock_count e) /\
    10 <= (Game.food g).(x) <= 970 /\ 10 <= (Game.food g).(y) <= 610 /\
    page e' = [UpdateUI 0 6 1 false false READY; UpdateUI 0 6 1 false false READY]
              ++ page e.
Proof.
  intros Hr. unfold Game.new.
  unfold bind at 1. rewrite Date_now_eq.
  assert (Hr0 : random_in_range (clock_read e)) by exact Hr.
  destruct (spawn_all_fresh Game.spawnPositions (clock_read e) Hr0) as (ais & Hspawn & Hall).
  unfold bind at 1. rewrite Hspawn.
  set (e1 := drawn _ (clock_read e)).
  assert (Hr1 : random_in_range e1) by exact Hr.
  destruct (respawn_in_arena
              (Snake.new Game.playerStartX Game.playerStartY true 6
               :: map AISnake.base ais) (Food.new 0 0) e1 Hr1)
    as (f & n & Hre & _ & Hx & Hy & _).
  unfold bind at 1. unfold Game.canvas_width, Game.canvas_height. rewrite Hre.
  eexists; eexists. split; [reflexivity|].
  split; [|split; [reflexivity | split; [exact Hx | split; [exact Hy | reflexivity]]]].
  unfold fresh. cbn. repeat split. exact Hall.
Qed.

(** The theorem with every draw 1/2. *)
Lemma X2_opening_position_witness :
  exists g e', Game.new (half_draws 0) = Ok (g, e') /\ Game.isWaitingToStart g = true.
Proof.
  destruct (X2_opening_position (half_draws 0) (half_draws_in_range 0))
    as (g & e' & Hrun & Hf & _).
  exists g, e'. split; [exact Hrun | apply Hf].
Defined.

(** X15: [restart] starts afresh whatever the game was. It returns the
    opening position (score 0, waiting, every speed at 1, a new input
    handler, new snakes) with the grace anchor at the clock read and the
    food inside the walls; of the old game only the two frame timestamps
    survive; the start screen is shown, the dashboard written and the
    game-over panel hidden. *)
Theorem X15_restart_starts_afresh (g : Game.t) (e : Env) :
  random_in_range e ->
  exists g' e',
    Game.restart g e = Ok (g', e') /\
    fresh g' /\
    Game.gameStartTime g' = clock_values e (clock_count e) /\
    Game.lastMoveTime g' = Game.lastMoveTime g /\
    Game.lastFrameTime g' = Game.lastFrameTime g /\
    10 <= (Game.food g').(x) <= 970 /\ 10 <= (Game.food g').(y) <= 610 /\
    page e' = [HideGameOver; UpdateUI 0 6 1 false false READY; ShowStartScreen]
              ++ page e.
Proof.
  intros Hr. unfold Game.restart.
  unfold bind at 1. rewrite Date_now_eq.
  unfold bind at 1. unfold write at 1.
  match goal with |- context [bind (Game.spawn_all _) _ ?e0] => set (e1 := e0) end.
  assert (Hr1 : random_in_range e1) by exact Hr.
  destruct (spawn_all_fresh Game.spawnPositions e1 Hr1) as (ais & Hspawn & Hall).
  unfold bind at 1. rewrite Hspawn.
  set (e2 := drawn _ e1).
  assert (Hr2 : random_in_range e2) by exact Hr.
  destruct (respawn_in_arena
              (Snake.new Game.playerStartX Game.playerStartY true 6
               :: map AISnake.base ais) (Game.food g) e2 Hr2)
    as (f & n & Hre & _ & Hx & Hy & _).
  unfold bind at 1. unfold Game.canvas_width, Game.canvas_height. rewrite Hre.
  eexists; eexists. split; [reflexivity|].
  split; [|repeat split; try reflexivity; tauto].
  unfold fresh. cbn. repeat split. exact Hall.
Qed.

(** The theorem on a restart of [wall_and_ai_game]. *)
Lemma X15_restart_starts_afresh_witness :
  exists g' e',
    Game.restart wall_and_ai_game (half_draws 0) = Ok (g', e') /\ Game.score g' = 0.
Proof.
  destruct (X15_restart_starts_afresh wall_and_ai_game (half_draws 0)
              (half_draws_in_range 0))
    as (g' & e' & Hrun & Hf & _).
  exists g', e'. split; [exact Hrun | apply Hf].
Defined.

(** ** Sessions: speeds in range, cells on the grid, the pace of the loop *)

(** The game after the collision part of a tick, written out: the session
    is over and nothing else changed, or the AI snakes bounced and the
    player either did not eat or grew, scored and had the food respawned
    inside the walls. *)
Lemma resolve_shape (g : Game.t) (e : Env) :
  well_formed g -> random_in_range e ->
  exists g' e',
    Game.resolve g e = Ok (g', e') /\
    same_sources e e' /\
    (g' = Game.set_isGameOver true g \/
     exists ais,
       Forall2 bounced (Game.aiSnakes g) ais /\
       (g' = Game.set_aiSnakes ais g \/
        exists p f,
          Snake.grow (Game.playerSnake g) = Ok p /\
          on_lattice f /\ in_arena f /\
          g' = Game.set_aiSnakes ais (Game.set_food f (fed p g)))).
Proof.
  intros Hwf Hr.
  assert (Heb : exists g' e',
             Game.eat_and_bounce g e = Ok (g', e') /\
             same_sources e e' /\
             (g' = Game.set_isGameOver true g \/
              exists ais,
                Forall2 bounced (Game.aiSnakes g) ais /\
                (g' = Game.set_aiSnakes ais g \/
                 exists p f,
                   Snake.grow (Game.playerSnake g) = Ok p /\
                   on_lattice f /\ in_arena f /\
                   g' = Game.set_aiSnakes ais (Game.set_food f (fed p g))))).
  { destruct (eat_and_bounce_ok g e Hwf) as (g1 & e' & ais & Heat & Hb & Hrun & _ & Hsame).
    exists (Game.set_aiSnakes ais g1), e'. split; [exact Hrun|].
    rewrite Hsame in Hb.
    destruct Hwf as (Hp & _).
    destruct (Snake.segments (Game.playerSnake g)) as [|head rest] eqn:E; [congruence|].
    destruct (eat_ok g e head rest E) as [(_ & H) | (_ & p & f & n & Hgrow & Hre & H)];
      rewrite H in Heat; injection Heat as <- <-.
    - split; [apply same_sources_refl|]. right. exists ais. split; [exact Hb|]. now left.
    - split; [split; reflexivity|]. right. exists ais. split; [exact Hb|]. right.
      exists p, f. split; [exact Hgrow|].
      assert (Hrw : random_in_range (wrote [PlayEatSound; ui_of (fed p g)] e)) by exact Hr.
      destruct (respawn_in_arena (Game.snakes (fed p g)) (Game.food g) _ Hrw)
        as (f' & n' & Hre' & _ & Hx & Hy & Hmx & Hmy & _).
      unfold Game.canvas_width, Game.canvas_height in Hre. rewrite Hre in Hre'.
      injection Hre' as <- _. repeat split; tauto. }
  unfold Game.resolve. destruct (negb (Game.isGracePeriod g)); [|exact Heb].
  destruct Hwf as (Hp & _).
  destruct (Snake.segments (Game.playerSnake g)) as [|head rest] eqn:E; [congruence|].
  destruct (checkWallCollision_cons Game.canvas_width Game.canvas_height _ _ _ E)
    as (wall & Hw).
  assert (Hover : exists g' e',
             Game.gameOver g e = Ok (g', e') /\
             same_sources e e' /\
             (g' = Game.set_isGameOver true g \/
              exists ais,
                Forall2 bounced (Game.aiSnakes g) ais /\
                (g' = Game.set_aiSnakes ais g \/
                 exists p f,
                   Snake.grow (Game.playerSnake g) = Ok p /\
                   on_lattice f /\ in_arena f /\
                   g' = Game.set_aiSnakes ais (Game.set_food f (fed p g))))).
  { rewrite gameOver_eq. eexists; eexists. split; [reflexivity|].
    split; [split; reflexivity | now left]. }
  unfold bind at 1. unfold lift at 1. rewrite Hw.
  destruct (wall || Snake.checkSelfCollision (Game.playerSnake g)); [exact Hover|].
  unfold bind, lift. rewrite (hits_ai_eq _ _ _ _ E).
  destruct (existsb _ _); [exact Hover | exact Heb].
Qed.

Lemma Forall_removelast {A : Type} (P : A -> Prop) (l : list A) :
  Forall P l -> Forall P (removelast l).
Proof.
  induction 1 as [|a l Ha Hl IH]; [constructor|].
  destruct l as [|b l]; [constructor|].
  change (Forall P (a :: removelast (b :: l))). now constructor.
Qed.

Lemma on_lattice_step (head d : Vec) :
  on_lattice head ->
  on_lattice (mkVec (head.(x) + d.(x) * GRID_SIZE) (head.(y) + d.(y) * GRID_SIZE)).
Proof.
  intros [Hx Hy]. unfold on_lattice, GRID_SIZE. cbn [x y].
  replace (x head + x d * 20 - 10) with (x head - 10 + x d * 20) by lia.
  replace (y head + y d * 20 - 10) with (y head - 10 + y d * 20) by lia.
  now rewrite !Z_mod_plus_full.
Qed.

Lemma moved_on_lattice (head d : Vec) (rest : list Vec) :
  Forall on_lattice (head :: rest) ->
  Forall on_lattice
    (mkVec (head.(x) + d.(x) * GRID_SIZE) (head.(y) + d.(y) * GRID_SIZE)
     :: removelast (head :: rest)).
Proof.
  intros H. constructor.
  - apply on_lattice_step. now inversion H.
  - now apply Forall_removelast.
Qed.

Lemma last_in_cons {A : Type} (a d : A) (l : list A) : In (last (a :: l) d) (a :: l).
Proof.
  revert a. induction l as [|b l IH]; intros a; [now left|].
  right. exact (IH b).
Qed.

Lemma grown_on_lattice (s p : Snake.t) :
  Forall on_lattice (Snake.segments s) -> Snake.grow s = Ok p ->
  Forall on_lattice (Snake.segments p).
Proof.
  intros H Hg. destruct (Snake.segments s) as [|head rest] eqn:E.
  - unfold Snake.grow in Hg. rewrite E in Hg. discriminate.
  - destruct (Snake_grow_cons head rest s E) as (p' & Hg' & Hs & _).
    rewrite Hg in Hg'. injection Hg' as <-. rewrite Hs.
    apply Forall_app. split; [exact H|]. constructor; [|constructor].
    rewrite Forall_forall in H. apply H. apply last_in_cons.
Qed.

Lemma scale_difficulty_speeds (g : Game.t) :
  0 <= Game.score g ->
  (Game.minSpeed <= Game.userSpeedMultiplier g)%Q ->
  (Game.userSpeedMultiplier g <= Game.maxSpeed)%Q ->
  speeds_ok (Game.scale_difficulty g).
Proof.
  intros Hs H1 H2. unfold speeds_ok, Game.scale_difficulty, Game.updateSpeed.
  cbn [Game.baseSpeed Game.userSpeedMultiplier Game.currentSpeed Game.moveInterval
       Game.set_baseSpeed Game.set_currentSpeed Game.set_moveInterval].
  split.
  { apply Q.min_glb; [|discriminate].
    rewrite <- (Qplus_0_r 1) at 1. apply Qplus_le_r.
    apply Qmult_le_0_compat; [|discriminate].
    change 0%Q with (inject_Z 0). rewrite <- Zle_Qle. apply Z.div_pos; lia. }
  split; [apply Q.le_min_r|]. split; [exact H1|]. split; [exact H2|].
  split; reflexivity.
Qed.

Lemma bounced_segments (a a' : AISnake.t) :
  bounced a a' -> AISnake.base a' = AISnake.base a.
Proof. intros (wall & _ & ->). now destruct wall. Qed.

Lemma ai_moved_on_lattice (l l' : list AISnake.t) :
  Forall2 ai_moved l l' ->
  Forall (fun a => Forall on_lattice (Snake.segments (AISnake.base a))) l ->
  Forall (fun a => Forall on_lattice (Snake.segments (AISnake.base a))) l'.
Proof.
  induction 1 as [|a a' l l' (_ & _ & head & rest & E & E') _ IH]; intros Hl;
    [constructor|].
  inversion Hl as [|? ? Ha Hl']; subst. constructor; [|auto].
  rewrite E'. apply moved_on_lattice. now rewrite <- E.
Qed.

Lemma bounced_on_lattice (l l' : list AISnake.t) :
  Forall2 bounced l l' ->
  Forall (fun a => Forall on_lattice (Snake.segments (AISnake.base a))) l ->
  Forall (fun a => Forall on_lattice (Snake.segments (AISnake.base a))) l'.
Proof.
  induction 1 as [|a a' l l' Hb _ IH]; intros Hl; [constructor|].
  inversion Hl as [|? ? Ha Hl']; subst. constructor; [|auto].
  now rewrite (bounced_segments _ _ Hb).
Qed.

Lemma speeds_ok_frame (g g' : Game.t) :
  Game.baseSpeed g' = Game.baseSpeed g ->
  Game.userSpeedMultiplier g' = Game.userSpeedMultiplier g ->
  Game.currentSpeed g' = Game.currentSpeed g ->
  Game.moveInterval g' = Game.moveInterval g ->
  speeds_ok g -> speeds_ok g'.
Proof. unfold speeds_ok. intros -> -> -> ->. auto. Qed.

Lemma on_grid_frame (g g' : Game.t) :
  Game.playerSnake g' = Game.playerSnake g ->
  Game.aiSnakes g' = Game.aiSnakes g ->
  Game.food g' = Game.food g ->
  on_grid g -> on_grid g'.
Proof. unfold on_grid. intros -> -> ->. auto. Qed.

Lemma tuned_frame (g g' : Game.t) :
  Game.baseSpeed g' = Game.baseSpeed g ->
  Game.userSpeedMultiplier g' = Game.userSpeedMultiplier g ->
  Game.currentSpeed g' = Game.currentSpeed g ->
  Game.moveInterval g' = Game.moveInterval g ->
  Game.playerSnake g' = Game.playerSnake g ->
  Game.aiSnakes g' = Game.aiSnakes g ->
  Game.food g' = Game.food g ->
  tuned g -> tuned g'.
Proof.
  intros H1 H2 H3 H4 H5 H6 H7 (Hs & Hg). split.
  - exact (speeds_ok_frame g g' H1 H2 H3 H4 Hs).
  - exact (on_grid_frame g g' H5 H6 H7 Hg).
Qed.

Lemma await_start_tuned (g : Game.t) (e : Env) :
  tuned g -> exists g' e', Game.await_start g e = Ok (g', e') /\ tuned g'.
Proof.
  intros Ht. unfold Game.await_start.
  destruct (InputHandler.checkStartPressed (Game.inputHandler g)) as [pressed h].
  destruct (if pressed then (true, h) else InputHandler.checkPauseToggle h) as [go h'].
  destruct go; eexists; eexists; (split; [reflexivity|]);
    apply (tuned_frame g); try reflexivity; exact Ht.
Qed.

Lemma pause_toggle_tuned (g g1 : Game.t) (e e1 : Env) :
  Game.pause_toggle g e = Ok (g1, e1) -> tuned g ->
  tuned g1 /\ Game.score g1 = Game.score g.
Proof.
  unfold Game.pause_toggle.
  destruct (InputHandler.checkPauseToggle (Game.inputHandler g)) as [toggled h].
  destruct toggled.
  - cbn [Game.isPaused Game.set_isPaused Game.set_inputHandler].
    destruct (negb (negb (Game.isPaused g)));
      intros H Ht; injection H as <- _;
      (split; [apply (tuned_frame g); try reflexivity; exact Ht | reflexivity]).
  - intros H Ht; injection H as <- _.
    split; [apply (tuned_frame g); try reflexivity; exact Ht | reflexivity].
Qed.

Lemma update_tuned (dt : Q) (g : Game.t) (e : Env) :
  sound g -> random_in_range e -> tuned g ->
  exists g' e', Game.update dt g e = Ok (g', e') /\ tuned g'.
Proof.
  intros (Hwf & _ & Hs) Hr Ht. unfold Game.update.
  destruct (Game.isGameOver g); [exists g, e; split; [reflexivity | exact Ht]|].
  destruct (Game.isWaitingToStart g); [now apply await_start_tuned|].
  destruct (pause_toggle_frame g e) as (g1 & e1 & Hrun & Fp & Fa & _ & _ & _ & Hsrc).
  destruct (pause_toggle_tuned g g1 e e1 Hrun Ht) as (Ht1 & Hs1).
  assert (Hwf1 : well_formed g1).
  { destruct Hwf as (Hp & Hai). split; [now rewrite Fp | now rewrite Fa]. }
  assert (Hr1 : random_in_range e1) by (eapply random_in_range_sources; eauto).
  unfold bind at 1. rewrite Hrun.
  destruct (Game.isPaused g1); [exists g1, e1; split; [reflexivity | exact Ht1]|].
  destruct (move_spec dt g1 e1 Hwf1 Hr1)
    as (ais & p & em & _ & Hai & Hp & Hrm & _ & Hmove).
  destruct (move_ok dt g1 e1 Hwf1 Hr1)
    as (gm & em' & Hmove' & _ & _ & Hpl & _ & _ & Hfood & _ & _ & Hwfm & _).
  rewrite Hmove in Hmove'. injection Hmove' as Hgm <-.
  destruct Ht1 as ((_ & _ & Hu1 & Hu2 & _ & _) & (Gp & Ga & Gf)).
  assert (Hsp : speeds_ok gm).
  { apply (speeds_ok_frame
             (Game.scale_difficulty
                (Game.set_isGracePeriod
                   (clock_values e1 (clock_count e1) - Game.gameStartTime g1 <? GRACE_PERIOD)
                   g1))); try (rewrite <- Hgm; reflexivity).
    apply scale_difficulty_speeds; [|exact Hu1 | exact Hu2].
    change (0 <= Game.score g1). rewrite Hs1. exact Hs. }
  assert (Hgr : on_grid gm).
  { split; [|split].
    - destruct Hpl as (head & rest & E & ->). apply moved_on_lattice. now rewrite <- E.
    - assert (Hais : Game.aiSnakes gm = ais) by (rewrite <- Hgm; reflexivity).
      rewrite Hais. eapply ai_moved_on_lattice; eauto.
    - rewrite Hfood. exact Gf. }
  destruct (resolve_shape gm em Hwfm Hrm) as (g' & e' & Hres & _ & Hcases).
  exists g', e'. unfold bind. rewrite <- Hgm in Hres. rewrite Hmove.
  split; [exact Hres|].
  destruct Hgr as (Gpm & Gam & Gfm).
  destruct Hcases as [-> | (ais' & Hb & [-> | (p' & f & Hgrow & Hfl & Hfa & ->)])].
  - apply (tuned_frame gm); try reflexivity.
    exact (conj Hsp (conj Gpm (conj Gam Gfm))).
  - split; [apply (speeds_ok_frame gm); try reflexivity; exact Hsp|].
    split; [exact Gpm|]. split; [|exact Gfm].
    change (Forall (fun a => Forall on_lattice (Snake.segments (AISnake.base a))) ais').
    eapply bounced_on_lattice; eauto.
  - split; [apply (speeds_ok_frame gm); try reflexivity; exact Hsp|].
    split; [|split].
    + change (Forall on_lattice (Snake.segments p')). eapply grown_on_lattice; eauto.
    + change (Forall (fun a => Forall on_lattice (Snake.segments (AISnake.base a))) ais').
      eapply bounced_on_lattice; eauto.
    + split; assumption.
Qed.

Lemma gameLoop_tuned (currentTime : Q) (g : Game.t) (e : Env) :
  sound g -> random_in_range e -> tuned g ->
  exists g' e', Game.gameLoop currentTime g e = Ok (g', e') /\ tuned g'.
Proof.
  intros Hs Hr Ht. unfold Game.gameLoop.
  set (g0 := Game.set_lastFrameTime currentTime g).
  assert (Hs0 : sound g0) by exact Hs.
  assert (Ht0 : tuned g0) by (apply (tuned_frame g); try reflexivity; exact Ht).
  destruct (Qle_bool (Game.moveInterval g0) (currentTime - Game.lastMoveTime g0)).
  - destruct (update_tuned (currentTime - Game.lastFrameTime g)%Q g0 e Hs0 Hr Ht0)
      as (g1 & e1 & Hrun & Ht1).
    unfold bind at 1. unfold bind at 1. rewrite Hrun.
    eexists; eexists. split; [reflexivity|].
    apply (tuned_frame g1); try reflexivity. exact Ht1.
  - eexists; eexists. split; [reflexivity | exact Ht0].
Qed.

Lemma adjustSpeed_tuned (delta : Q) (g : Game.t) (e : Env) :
  tuned g -> exists g' e', Game.adjustSpeed delta g e = Ok (g', e') /\ tuned g'.
Proof.
  intros ((Hb1 & Hb2 & _) & Hg). eexists; eexists. split; [reflexivity|].
  split; [|apply (on_grid_frame g); try reflexivity; exact Hg].
  unfold speeds_ok.
  cbn [Game.baseSpeed Game.userSpeedMultiplier Game.currentSpeed Game.moveInterval
       Game.updateSpeed Game.set_moveInterval Game.set_currentSpeed
       Game.set_userSpeedMultiplier].
  split; [exact Hb1|]. split; [exact Hb2|]. split; [apply Q.le_max_l|].
  split; [apply Q.max_lub; [discriminate | apply Q.le_min_l]|].
  split; reflexivity.
Qed.

Lemma fresh_ai_on_lattice (positions : list Vec) (ais : list AISnake.t) :
  Forall2 fresh_ai positions ais ->
  Forall (fun a => Forall on_lattice (Snake.segments (AISnake.base a))) ais.
Proof.
  induction 1 as [|pos a positions ais ((n & _ & Hsegs) & _) _ IH]; constructor; [|exact IH].
  rewrite Hsegs. apply Forall_forall. intros p Hp. apply in_map_iff in Hp.
  destruct Hp as (i & <- & _). unfold on_lattice. cbn [x y].
  replace (x pos / 20 * 20 + 10 - Z.of_nat i * 20 - 10)
    with ((x pos / 20 - Z.of_nat i) * 20) by lia.
  replace (y pos / 20 * 20 + 10 - 10) with (y pos / 20 * 20) by lia.
  now rewrite !Z.mod_mul.
Qed.

(** The state [restart] and the constructor build is sound and tuned, once
    the AI snakes are fresh and the food is where [respawn] puts it. *)
Lemma fresh_game_tuned (now : Z) (lm lf : Q) (positions : list Vec)
  (ais : list AISnake.t) (f : Food.t) :
  Forall2 fresh_ai positions ais -> on_lattice f -> in_arena f ->
  tuned (Game.mk 0 false false true now true 1 1 1 BASE_MOVE_INTERVAL lm lf
                 InputHandler.new (mkVec 1 0)
                 (Snake.new Game.playerStartX Game.playerStartY true 6) ais f).
Proof.
  intros Hais Hl Ha. split.
  - unfold speeds_ok. cbn [Game.baseSpeed Game.userSpeedMultiplier Game.currentSpeed
                           Game.moveInterval].
    repeat split; try discriminate; reflexivity.
  - split; [|split; [|split; assumption]].
    + cbn [Game.playerSnake]. repeat constructor.
    + cbn [Game.aiSnakes]. eapply fresh_ai_on_lattice; eauto.
Qed.

Lemma restart_tuned (g : Game.t) (e : Env) :
  random_in_range e ->
  exists g' e', Game.restart g e = Ok (g', e') /\ tuned g'.
Proof.
  intros Hr. unfold Game.restart.
  unfold bind at 1. rewrite Date_now_eq.
  unfold bind at 1. unfold write at 1.
  match goal with |- context [bind (Game.spawn_all _) _ ?e0] => set (e1 := e0) end.
  assert (Hr1 : random_in_range e1) by exact Hr.
  destruct (spawn_all_fresh Game.spawnPositions e1 Hr1) as (ais & Hspawn & Hall).
  unfold bind at 1. rewrite Hspawn.
  set (e2 := drawn _ e1).
  assert (Hr2 : random_in_range e2) by exact Hr.
  destruct (respawn_in_arena
              (Snake.new Game.playerStartX Game.playerStartY true 6
               :: map AISnake.base ais) (Game.food g) e2 Hr2)
    as (f & n & Hre & _ & Hx & Hy & Hmx & Hmy & _).
  unfold bind at 1. unfold Game.canvas_width, Game.canvas_height. rewrite Hre.
  eexists; eexists. split; [reflexivity|].
  eapply fresh_game_tuned; [exact Hall | split; assumption | split; assumption].
Qed.

Lemma new_tuned (e : Env) :
  random_in_range e ->
  exists g e', Game.new e = Ok (g, e') /\ tuned g.
Proof.
  intros Hr. unfold Game.new.
  unfold bind at 1. rewrite Date_now_eq.
  assert (Hr0 : random_in_range (clock_read e)) by exact Hr.
  destruct (spawn_all_fresh Game.spawnPositions (clock_read e) Hr0) as (ais & Hspawn & Hall).
  unfold bind at 1. rewrite Hspawn.
  set (e1 := drawn _ (clock_read e)).
  assert (Hr1 : random_in_range e1) by exact Hr.
  destruct (respawn_in_arena
              (Snake.new Game.playerStartX Game.playerStartY true 6
               :: map AISnake.base ais) (Food.new 0 0) e1 Hr1)
    as (f & n & Hre & _ & Hx & Hy & Hmx & Hmy & _).
  unfold bind at 1. unfold Game.canvas_width, Game.canvas_height. rewrite Hre.
  eexists; eexists. split; [reflexivity|].
  eapply fresh_game_tuned; [exact Hall | split; assumption | split; assumption].
Qed.

Lemma handle_tuned (ev : event) (g : Game.t) (e : Env) :
  sound g -> random_in_range e -> tuned g ->
  exists g' e', handle ev g e = Ok (g', e') /\ tuned g'.
Proof.
  intros Hs Hr Ht. destruct ev; simpl handle.
  - eexists; eexists. split; [reflexivity|].
    apply (tuned_frame g); try reflexivity; exact Ht.
  - eexists; eexists. split; [reflexivity|].
    apply (tuned_frame g); try reflexivity; exact Ht.
  - now apply gameLoop_tuned.
  - now apply adjustSpeed_tuned.
  - now apply adjustSpeed_tuned.
  - now apply restart_tuned.
Qed.

Lemma play_tuned (evs : list event) :
  forall g e, sound g -> random_in_range e -> tuned g ->
  exists g' e', play evs g e = Ok (g', e') /\ tuned g'.
Proof.
  induction evs as [|ev evs IH]; intros g e Hs Hr Ht.
  - exists g, e. split; [reflexivity | exact Ht].
  - destruct (handle_sound ev g e Hs Hr) as (g1 & e1 & Hrun & Hs1 & Hr1).
    destruct (handle_tuned ev g e Hs Hr Ht) as (g1' & e1' & Hrun' & Ht1).
    rewrite Hrun in Hrun'. injection Hrun' as <- <-.
    destruct (IH g1 e1 Hs1 Hr1 Ht1) as (g' & e' & Hrun' & Ht').
    exists g', e'. simpl. unfold bind. rewrite Hrun. auto.
Qed.

Lemma session_tuned (evs : list event) (e : Env) :
  random_in_range e ->
  exists g e', session evs e = Ok (g, e') /\ tuned g.
Proof.
  intros Hr. destruct (new_sound e Hr) as (g0 & e0 & Hnew & Hs0 & Hr0).
  destruct (new_tuned e Hr) as (g0' & e0' & Hnew' & Ht0).
  rewrite Hnew in Hnew'. injection Hnew' as <- <-.
  destruct (play_tuned evs g0 e0 Hs0 Hr0 Ht0) as (g & e' & Hrun & Ht).
  exists g, e'. unfold session, bind. rewrite Hnew. auto.
Qed.

(** X16: the speeds stay in range. In every state of a session the base
    speed is between 1 and [MAX_SPEED_MULTIPLIER], the user multiplier
    between 0.5 and 2.5, the current speed their product and the move
    interval [BASE_MOVE_INTERVAL] over it: the current speed is between 0.5
    and 5 and the loop's interval between 25 and 250 milliseconds, never
    zero or negative. *)
Theorem X16_speeds_stay_in_range (evs : list event) (e : Env) :
  random_in_range e ->
  exists g e',
    session evs e = Ok (g, e') /\
    (1 <= Game.baseSpeed g)%Q /\ (Game.baseSpeed g <= MAX_SPEED_MULTIPLIER)%Q /\
    (Game.minSpeed <= Game.userSpeedMultiplier g)%Q /\
    (Game.userSpeedMultiplier g <= Game.maxSpeed)%Q /\
    (Game.currentSpeed g == Game.baseSpeed g * Game.userSpeedMultiplier g)%Q /\
    (Game.moveInterval g == BASE_MOVE_INTERVAL / Game.currentSpeed g)%Q /\
    (1 # 2 <= Game.currentSpeed g)%Q /\ (Game.currentSpeed g <= 5)%Q /\
    (25 <= Game.moveInterval g)%Q /\ (Game.moveInterval g <= 250)%Q.
Proof.
  intros Hr.
  destruct (session_tuned evs e Hr)
    as (g & e' & Hrun & (Hb1 & Hb2 & Hu1 & Hu2 & Hc & Hm) & _).
  exists g, e'. split; [exact Hrun|].
  do 6 (split; [assumption|]).
  unfold MAX_SPEED_MULTIPLIER in Hb2. unfold Game.minSpeed in Hu1.
  unfold Game.maxSpeed in Hu2.
  assert (Hc1 : (1 # 2 <= Game.currentSpeed g)%Q).
  { rewrite Hc. setoid_replace (1 # 2)%Q with (1 * (1 # 2))%Q by reflexivity.
    apply Qmult_le_compat_nonneg; split; try assumption; discriminate. }
  assert (Hc2 : (Game.currentSpeed g <= 5)%Q).
  { rewrite Hc. setoid_replace 5%Q with (2 * (5 # 2))%Q by reflexivity.
    apply Qmult_le_compat_nonneg; split; try assumption.
    - eapply Qle_trans; [|exact Hb1]. discriminate.
    - eapply Qle_trans; [|exact Hu1]. discriminate. }
  assert (Hpos : (0 < Game.currentSpeed g)%Q).
  { eapply Qlt_le_trans; [|exact Hc1]. reflexivity. }
  split; [exact Hc1|]. split; [exact Hc2|]. rewrite Hm. split.
  - apply Qle_shift_div_l; [exact Hpos|].
    setoid_replace BASE_MOVE_INTERVAL with (25 * 5)%Q by reflexivity.
    apply Qmult_le_l; [reflexivity | exact Hc2].
  - apply Qle_shift_div_r; [exact Hpos|].
    setoid_replace BASE_MOVE_INTERVAL with (250 * (1 # 2))%Q by reflexivity.
    apply Qmult_le_l; [reflexivity | exact Hc1].
Qed.

(** The theorem on a session with three speed-up clicks and a tick. *)
Lemma X16_speeds_stay_in_range_witness :
  exists g e',
    session [SpeedUpClick; SpeedUpClick; KeyDownEvent "Enter"; FrameEvent 125;
             SpeedUpClick; FrameEvent 250] (half_draws 0) = Ok (g, e') /\
    (25 <= Game.moveInterval g)%Q.
Proof.
  destruct (X16_speeds_stay_in_range
              [SpeedUpClick; SpeedUpClick; KeyDownEvent "Enter"; FrameEvent 125;
               SpeedUpClick; FrameEvent 250] (half_draws 0) (half_draws_in_range 0))
    as (g & e' & Hrun & _ & _ & _ & _ & _ & _ & _ & _ & Hm & _).
  exists g, e'. split; [exact Hrun | exact Hm].
Defined.

(** X17: the cells stay on the grid. In every state of a session each
    segment of the player's snake and of every AI snake is a cell centre
    (both coordinates 10 plus a multiple of 20), and the food is a cell
    centre inside the walls: the strict comparisons of coordinates in the
    collision tests compare cells. *)
Theorem X17_cells_stay_on_the_grid (evs : list event) (e : Env) :
  random_in_range e ->
  exists g e',
    session evs e = Ok (g, e') /\
    (forall segment,
        In segment (Snake.segments (Game.playerSnake g)) -> on_lattice segment) /\
    (forall a segment,
        In a (Game.aiSnakes g) -> In segment (Snake.segments (AISnake.base a)) ->
        on_lattice segment) /\
    on_lattice (Game.food g) /\ in_arena (Game.food g).
Proof.
  intros Hr.
  destruct (session_tuned evs e Hr) as (g & e' & Hrun & _ & (Gp & Ga & Gl & Gf)).
  exists g, e'. split; [exact Hrun|].
  split; [now apply Forall_forall|].
  split; [|split; assumption].
  intros a segment Ha Hs. rewrite Forall_forall in Ga.
  specialize (Ga a Ha). rewrite Forall_forall in Ga. now apply Ga.
Qed.

(** The theorem on a session with a start, a turn and two ticks. *)
Lemma X17_cells_stay_on_the_grid_witness :
  exists g e',
    session [KeyDownEvent "Enter"; FrameEvent 125; KeyDownEvent "s"; FrameEvent 250]
      (half_draws 0) = Ok (g, e') /\
    on_lattice (Game.food g).
Proof.
  destruct (X17_cells_stay_on_the_grid
              [KeyDownEvent "Enter"; FrameEvent 125; KeyDownEvent "s"; FrameEvent 250]
              (half_draws 0) (half_draws_in_range 0))
    as (g & e' & Hrun & _ & _ & Hf & _).
  exists g, e'. split; [exact Hrun | exact Hf].
Defined.

(** X18: the last row is inside the walls but never gets the food. On the
    game's canvas a head on the row y = 630 (columns 10 to 970) is no wall
    collision, yet whatever the draws and the snakes, [respawn] never puts
    the food on that row: the food's row is at most 610. *)
Theorem X18_last_row_is_never_fed
  (hx : Z) (rest : list Vec) (player : bool) (timer : Q) (eyes : bool)
  (snakes : list Snake.t) (food : Food.t) (e : Env) :
  random_in_range e ->
  10 <= hx <= 970 ->
  Snake.checkWallCollision Game.canvas_width Game.canvas_height
    (Snake.mk (mkVec hx 630 :: rest) player timer eyes) = Ok false /\
  exists food' e',
    Food.respawn Game.canvas_width Game.canvas_height snakes food e = Ok (food', e') /\
    food'.(y) <= 610 /\
    Snake.checkFoodCollision food' (Snake.mk (mkVec hx 630 :: rest) player timer eyes)
      = Ok false.
Proof.
  intros Hr Hx. split.
  - unfold Snake.checkWallCollision, Game.canvas_width, Game.canvas_height,
      CANVAS_WIDTH, CANVAS_HEIGHT, GRID_SIZE. cbn [Snake.segments x y].
    f_equal. rewrite !orb_false_iff, !Z.ltb_ge, !Z.geb_leb, !Z.leb_gt.
    change (20 / 2) with 10. lia.
  - destruct (respawn_in_arena snakes food e Hr) as (food' & n & Hrun & _ & _ & Hy & _).
    exists food', (drawn (2 * n) e). split; [exact Hrun|]. split; [lia|].
    unfold Snake.checkFoodCollision. cbn [Snake.segments]. f_equal.
    unfold same_cell. cbn [x y]. apply andb_false_iff. right. apply Z.eqb_neq. lia.
Qed.

(** The theorem on a head in the middle of the last row. *)
Lemma X18_last_row_is_never_fed_witness :
  Snake.checkWallCollision Game.canvas_width Game.canvas_height
    (Snake.mk [mkVec 510 630; mkVec 490 630] true 0 true) = Ok false /\
  exists food' e',
    Food.respawn Game.canvas_width Game.canvas_height [corner_snake] (Food.new 0 0)
      (half_draws 0) = Ok (food', e') /\
    food'.(y) <= 610 /\
    Snake.checkFoodCollision food' (Snake.mk [mkVec 510 630; mkVec 490 630] true 0 true)
      = Ok false.
Proof.
  apply (X18_last_row_is_never_fed 510 [mkVec 490 630] true 0 true [corner_snake]
           (Food.new 0 0) (half_draws 0)).
  - apply half_draws_in_range.
  - lia.
Defined.

(** X19: at most one tick per move interval. A frame of [gameLoop] calls
    [update] exactly when at least [moveInterval] has passed since
    [lastMoveTime], and then records its own timestamp as [lastMoveTime];
    so after a frame at [t1] that called [update], a frame at [t2] less
    than the (new) move interval later only records [t2] as
    [lastFrameTime] and writes the dashboard: no snake moves. *)
Theorem X19_one_tick_per_interval (t1 t2 : Q) (g g1 : Game.t) (e e1 : Env) :
  Game.gameLoop t1 g e = Ok (g1, e1) ->
  (Game.moveInterval g <= t1 - Game.lastMoveTime g)%Q ->
  (t2 - t1 < Game.moveInterval g1)%Q ->
  (exists g' e',
      Game.update (t1 - Game.lastFrameTime g) (Game.set_lastFrameTime t1 g) e
        = Ok (g', e') /\
      g1 = Game.set_lastMoveTime t1 g' /\ e1 = wrote [ui_of g1] e') /\
  Game.lastMoveTime g1 = t1 /\
  Game.gameLoop t2 g1 e1 =
    Ok (Game.set_lastFrameTime t2 g1, wrote [ui_of (Game.set_lastFrameTime t2 g1)] e1).
Proof.
  intros Hrun Hdue Hsoon.
  assert (Hshape : exists g' e',
             Game.update (t1 - Game.lastFrameTime g) (Game.set_lastFrameTime t1 g) e
               = Ok (g', e') /\
             g1 = Game.set_lastMoveTime t1 g' /\ e1 = wrote [ui_of g1] e').
  { revert Hrun. unfold Game.gameLoop.
    cbn [Game.moveInterval Game.lastMoveTime Game.set_lastFrameTime].
    apply Qle_bool_iff in Hdue. rewrite Hdue.
    unfold bind at 1. unfold bind at 1.
    destruct (Game.update (t1 - Game.lastFrameTime g) (Game.set_lastFrameTime t1 g) e)
      as [[g' e']|]; [|discriminate].
    intros H. injection H as <- <-. exists g', e'. repeat split. }
  split; [exact Hshape|].
  destruct Hshape as (g' & e' & _ & Hg1 & _).
  assert (Hlast : Game.lastMoveTime g1 = t1) by (rewrite Hg1; reflexivity).
  split; [exact Hlast|].
  unfold Game.gameLoop.
  cbn [Game.moveInterval Game.lastMoveTime Game.set_lastFrameTime].
  rewrite Hlast.
  assert (Hno : Qle_bool (Game.moveInterval g1) (t2 - t1) = false).
  { apply not_true_iff_false. intros H. apply Qle_bool_iff in H.
    exact (Qlt_not_le _ _ Hsoon H). }
  rewrite Hno. reflexivity.
Qed.

(** The theorem on the first tick of a started game and a frame 16
    milliseconds later. *)
Lemma X19_one_tick_per_interval_witness :
  exists g1 e1,
    Game.gameLoop 125 bounce_game (half_draws 1000) = Ok (g1, e1) /\
    Game.gameLoop 141 g1 e1 =
      Ok (Game.set_lastFrameTime 141 g1, wrote [ui_of (Game.set_lastFrameTime 141 g1)] e1).
Proof.
  destruct (Game.gameLoop 125 bounce_game (half_draws 1000)) as [[g1 e1]|] eqn:Hrun;
    [|vm_compute in Hrun; discriminate].
  exists g1, e1. split; [reflexivity|].
  apply (X19_one_tick_per_interval 125 141 bounce_game g1 (half_draws 1000) e1 Hrun).
  - vm_compute. discriminate.
  - vm_compute in Hrun. injection Hrun as <- _. vm_compute. reflexivity.
Defined.
